(** * deploy_chronicle_rules.py: a shallow embedding and its properties

    The script synchronises YARA-L rule files kept in a Bitbucket repository
    with the rules registered in Chronicle.  It is a sequence of HTTP calls
    with error handling around them, so the embedding is a small monad:
    every function of the script becomes a computation over an abstract
    remote world, which answers each request, and produces a trace of the
    requests issued and of the log records written.

    Conventions of the model:
    - Python [str] and [bytes] are both Rocq strings (byte sequences); a
      [str] is kept in its UTF-8 encoding.
    - JSON numbers are integers; floating-point literals are not modelled.
    - An exception the script does not catch ([AttributeError], [TypeError],
      [SystemExit]) ends the computation with [Exc].
    - [logging.info] and [logging.debug] progress lines are dropped, except
      the run summary; warnings and errors are recorded in the trace.
    - The two [while] loops of the script take a fuel argument, because the
      remote side may hand out next-page tokens for ever. *)

From stdpp Require Import gmap strings list.
From Stdlib Require Import ZArith NArith Ascii DecimalString.

Open Scope Z_scope.
Set Warnings "-register-all".
Set Default Proof Using "Type".

(** ** Python values *)

(** What [json.loads] produces.  [JNull] is Python's [None]; an object keeps
    its items in order and its keys are pairwise distinct. *)
Inductive JSON : Type :=
| JNull
| JBool (b : bool)
| JNum (n : Z)
| JStr (s : string)
| JArr (xs : list JSON)
| JObj (items : list (string * JSON)).

(** The part of [requests.Response] the script looks at.  [json] is what
    [response.json()] returns, [None] when it raises [JSONDecodeError]. *)
Record Response : Type := mkResponse {
  status_code : Z;
  content : string;
  json : option JSON
}.

(** The values [_make_api_request] can return. *)
Inductive pyval : Type :=
| PJson (v : JSON)
| PBytes (b : string)
| PResponse (r : Response).

Definition PNone : pyval := PJson JNull.

Inductive pyexn : Type :=
| AttributeError
| TypeError
| SystemExit (code : Z).

Inductive Res (A : Type) : Type :=
| Val (a : A)
| Exc (e : pyexn)
| OutOfFuel.
Arguments Val {A} a.
Arguments Exc {A} e.
Arguments OutOfFuel {A}.

(** [Response.raise_for_status] raises [HTTPError] for 4xx and 5xx codes
    and for nothing else. *)
Definition raises_for_status (r : Response) : bool :=
  (400 <=? status_code r) && (status_code r <? 600).

(** [Response.__bool__] is [Response.ok]. *)
Definition response_ok (r : Response) : bool := negb (raises_for_status r).

Definition str_truthy (s : string) : bool :=
  match s with EmptyString => false | _ => true end.

Definition json_truthy (v : JSON) : bool :=
  match v with
  | JNull => false
  | JBool b => b
  | JNum n => negb (n =? 0)
  | JStr s => str_truthy s
  | JArr xs => match xs with [] => false | _ => true end
  | JObj kvs => match kvs with [] => false | _ => true end
  end.

Definition py_is_none (v : pyval) : bool :=
  match v with PJson JNull => true | _ => false end.

Definition py_truthy (v : pyval) : bool :=
  match v with
  | PJson j => json_truthy j
  | PBytes b => str_truthy b
  | PResponse r => response_ok r
  end.

(** [dict.get] on a list of items. *)
Fixpoint assoc (k : string) (kvs : list (string * JSON)) : option JSON :=
  match kvs with
  | [] => None
  | (k', v) :: rest => if String.eqb k k' then Some v else assoc k rest
  end.

(** [v.get(k, d)]: only a dict has the method. *)
Definition json_get (v : JSON) (k : string) (d : JSON) : Res JSON :=
  match v with
  | JObj kvs => Val (default d (assoc k kvs))
  | _ => Exc AttributeError
  end.

Definition py_get (v : pyval) (k : string) (d : JSON) : Res JSON :=
  match v with
  | PJson j => json_get j k d
  | _ => Exc AttributeError
  end.

Definition json_is_str (v : JSON) (s : string) : bool :=
  match v with JStr s' => String.eqb s' s | _ => false end.

Fixpoint str_prefix (p s : string) : bool :=
  match p, s with
  | EmptyString, _ => true
  | String a p', String b s' => Ascii.eqb a b && str_prefix p' s'
  | String _ _, EmptyString => false
  end.

(** [p in s] on two [str]. *)
Fixpoint str_contains (p s : string) : bool :=
  str_prefix p s ||
  match s with
  | EmptyString => false
  | String _ s' => str_contains p s'
  end.

(** [k in v] for a [str] k. *)
Definition json_contains (k : string) (v : JSON) : Res bool :=
  match v with
  | JObj kvs => Val (bool_decide (is_Some (assoc k kvs)))
  | JArr xs => Val (existsb (fun x => json_is_str x k) xs)
  | JStr s => Val (str_contains k s)
  | _ => Exc TypeError
  end.

(** On a [Response], [in] falls back to iterating over byte chunks, none of
    which equals a [str]. *)
Definition py_contains (k : string) (v : pyval) : Res bool :=
  match v with
  | PJson j => json_contains k j
  | PBytes _ => Exc TypeError
  | PResponse _ => Val false
  end.

Fixpoint str_chars (s : string) : list string :=
  match s with
  | EmptyString => []
  | String a s' => String a EmptyString :: str_chars s'
  end.

(** [for x in v]. *)
Definition json_iter (v : JSON) : Res (list JSON) :=
  match v with
  | JArr xs => Val xs
  | JStr s => Val (JStr <$> str_chars s)
  | JObj kvs => Val ((fun kv => JStr (fst kv)) <$> kvs)
  | _ => Exc TypeError
  end.

(** [len(v)]. *)
Definition json_len (v : JSON) : Res nat :=
  match v with
  | JArr xs => Val (length xs)
  | JStr s => Val (String.length s)
  | JObj kvs => Val (length kvs)
  | _ => Exc TypeError
  end.

(** [s.endswith(suffix)]. *)
Fixpoint endswith (s suffix : string) : bool :=
  String.eqb s suffix ||
  match s with
  | EmptyString => false
  | String _ s' => endswith s' suffix
  end.

Definition json_endswith (v : JSON) (suffix : string) : Res bool :=
  match v with
  | JStr s => Val (endswith s suffix)
  | _ => Exc AttributeError
  end.

(** Members of the Python set of rule names: the hashable JSON values, with
    [True == 1] and [False == 0]. *)
Inductive pykey : Type :=
| KNone
| KInt (n : Z)
| KStr (s : string).

Global Instance pykey_eq_dec : EqDecision pykey.
Proof. solve_decision. Defined.

Global Instance pykey_countable : Countable pykey.
Proof.
  refine (inj_countable'
    (fun k => match k with
              | KNone => inl ()
              | KInt n => inr (inl n)
              | KStr s => inr (inr s)
              end)
    (fun x => match x with
              | inl _ => KNone
              | inr (inl n) => KInt n
              | inr (inr s) => KStr s
              end) _).
  by intros [].
Defined.

(** [hash(v)], as [set.add] needs it. *)
Definition json_key (v : JSON) : Res pykey :=
  match v with
  | JNull => Val KNone
  | JBool b => Val (KInt (if b then 1 else 0))
  | JNum n => Val (KInt n)
  | JStr s => Val (KStr s)
  | JArr _ | JObj _ => Exc TypeError
  end.

(** ** Text *)

Definition is_cont (b : N) : bool := ((0x80 <=? b) && (b <=? 0xBF))%N.

(** [bytes.decode('utf-8')]: the code points, or [None] for
    [UnicodeDecodeError]. *)
Fixpoint utf8_decode (s : string) : option (list N) :=
  match s with
  | EmptyString => Some []
  | String c0 r0 =>
    let b0 := N_of_ascii c0 in
    if (b0 <? 0x80)%N then cons b0 <$> utf8_decode r0
    else if ((0xC2 <=? b0) && (b0 <=? 0xDF))%N then
      match r0 with
      | String c1 r1 =>
        let b1 := N_of_ascii c1 in
        if is_cont b1
        then cons ((b0 - 0xC0) * 64 + (b1 - 0x80))%N <$> utf8_decode r1
        else None
      | _ => None
      end
    else if ((0xE0 <=? b0) && (b0 <=? 0xEF))%N then
      match r0 with
      | String c1 (String c2 r2) =>
        let b1 := N_of_ascii c1 in
        let b2 := N_of_ascii c2 in
        if (is_cont b1 && is_cont b2
            && (negb (b0 =? 0xE0) || (0xA0 <=? b1))
            && (negb (b0 =? 0xED) || (b1 <=? 0x9F)))%N
        then cons ((b0 - 0xE0) * 4096 + (b1 - 0x80) * 64 + (b2 - 0x80))%N
               <$> utf8_decode r2
        else None
      | _ => None
      end
    else if ((0xF0 <=? b0) && (b0 <=? 0xF4))%N then
      match r0 with
      | String c1 (String c2 (String c3 r3)) =>
        let b1 := N_of_ascii c1 in
        let b2 := N_of_ascii c2 in
        let b3 := N_of_ascii c3 in
        if (is_cont b1 && is_cont b2 && is_cont b3
            && (negb (b0 =? 0xF0) || (0x90 <=? b1))
            && (negb (b0 =? 0xF4) || (b1 <=? 0x8F)))%N
        then cons ((b0 - 0xF0) * 262144 + (b1 - 0x80) * 4096
                   + (b2 - 0x80) * 64 + (b3 - 0x80))%N
               <$> utf8_decode r3
        else None
      | _ => None
      end
    else None
  end.

(** [str.isspace] on one code point. *)
Definition py_isspace (c : N) : bool :=
  (((9 <=? c) && (c <=? 13)) || ((28 <=? c) && (c <=? 32))
   || (c =? 133) || (c =? 160) || (c =? 5760)
   || ((8192 <=? c) && (c <=? 8202))
   || (c =? 8232) || (c =? 8233) || (c =? 8239) || (c =? 8287)
   || (c =? 12288))%N.

(** Truth value of [rule_text.strip()]. *)
Definition strip_truthy (cps : list N) : bool :=
  existsb (fun c => negb (py_isspace c)) cps.

(** ** Paths *)

Definition slash : ascii := "/"%char.
Definition dot : ascii := "."%char.

(** [s.split('/')]. *)
Fixpoint split_slash (s : string) : list string :=
  match s with
  | EmptyString => [EmptyString]
  | String a s' =>
    if Ascii.eqb a slash then EmptyString :: split_slash s'
    else match split_slash s' with
         | [] => [String a EmptyString]
         | seg :: segs => String a seg :: segs
         end
  end.

(** [PurePosixPath(p).name]: the last of the parts that are neither empty
    nor a single dot. *)
Definition path_name (p : string) : string :=
  List.last
    (List.filter (fun seg => negb (String.eqb seg EmptyString) && negb (String.eqb seg "."))
       (split_slash p))
    EmptyString.

(** [s.rfind('.')], [None] for -1. *)
Fixpoint rfind_dot (s : string) : option nat :=
  match s with
  | EmptyString => None
  | String a s' =>
    match rfind_dot s' with
    | Some i => Some (S i)
    | None => if Ascii.eqb a dot then Some 0%nat else None
    end
  end.

Fixpoint str_take (n : nat) (s : string) : string :=
  match n, s with
  | O, _ => EmptyString
  | S n', String a s' => String a (str_take n' s')
  | S _, EmptyString => EmptyString
  end.

(** [PurePath.stem] (Python 3.4 to 3.13) applied to a name. *)
Definition path_stem (nm : string) : string :=
  match rfind_dot nm with
  | Some i =>
    if bool_decide (0 < i < String.length nm - 1)%nat then str_take i nm else nm
  | None => nm
  end.

(** ** Requests, events and the monad *)

Inductive Method : Type := GET | POST.

Inductive Headers : Type := CHRONICLE_HEADERS | BITBUCKET_HEADERS.

(** The arguments of one [requests.request] call.  The URL is a JSON value
    because the script passes on whatever the [next] field of a Bitbucket
    page holds. *)
Record Request : Type := mkRequest {
  req_method : Method;
  req_url : JSON;
  req_headers : Headers;
  req_params : list (string * JSON);
  req_json : option JSON;
  req_stream : bool
}.

(** [requests.request] returns a response or raises a [RequestException],
    which may carry a response. *)
Inductive http_outcome : Type :=
| Responded (r : Response)
| RequestException (r : option Response).

Inductive level : Type := INFO | WARNING | ERROR.

(** The run summary of [main]. *)
Record Summary : Type := mkSummary {
  rules_processed : nat;
  rules_uploaded : nat;
  rules_skipped : nat;
  rules_failed_verification : nat;
  rules_failed_upload : nat
}.

Inductive logmsg : Type :=
| MsgUnexpectedStatus (m : Method) (url : JSON) (status : Z)
| MsgRequestError (m : Method) (url : JSON)
| MsgResponseStatus (status : Z)
| MsgResponseBodyJson (body : JSON)
| MsgResponseBodyText (body : string)
| MsgListFilesFailed
| MsgEmptyRuleFile (file_path : string)
| MsgUndecodable (file_path : string)
| MsgProcessingError (file_path : string)
| MsgFetchContentFailed (file_path : string)
| MsgInitialPageFailed
| MsgPageFailed (page_num : nat)
| MsgRuleWithoutName (rule_id : JSON)
| MsgVerifyFailed (target_rule_name : string)
| MsgUploadFailed (target_rule_name : string)
| MsgAbortChronicle
| MsgAbortBitbucket
| MsgNoRuleFiles
| MsgSummary (s : Summary).

(** Entering one of the two Chronicle operations of the orchestrator. *)
Inductive call : Type :=
| CallVerify (target_rule_name rule_text : string)
| CallUpload (target_rule_name rule_text : string).

Inductive event : Type :=
| EvHttp (req : Request)
| EvLog (lvl : level) (msg : logmsg)
| EvCall (c : call).

(** An entry of [rule_files_content]. *)
Record rule_data : Type := mkRule {
  name : string;
  text : string;
  path : string
}.

Definition initial_summary : Summary := mkSummary 0 0 0 0 0.

Definition count_processed (s : Summary) : Summary :=
  mkSummary (S (rules_processed s)) (rules_uploaded s) (rules_skipped s)
    (rules_failed_verification s) (rules_failed_upload s).

Definition count_uploaded (s : Summary) : Summary :=
  mkSummary (rules_processed s) (S (rules_uploaded s)) (rules_skipped s)
    (rules_failed_verification s) (rules_failed_upload s).

Definition count_skipped (s : Summary) : Summary :=
  mkSummary (rules_processed s) (rules_uploaded s) (S (rules_skipped s))
    (rules_failed_verification s) (rules_failed_upload s).

Definition count_failed_verification (s : Summary) : Summary :=
  mkSummary (rules_processed s) (rules_uploaded s) (rules_skipped s)
    (S (rules_failed_verification s)) (rules_failed_upload s).

Definition count_failed_upload (s : Summary) : Summary :=
  mkSummary (rules_processed s) (rules_uploaded s) (rules_skipped s)
    (rules_failed_verification s) (S (rules_failed_upload s)).

Section Monad.
Context {World : Type}.

(** A computation reads and changes the remote world and yields a result
    together with the events it produced, oldest first. *)
Definition M (A : Type) : Type := World -> Res A * World * list event.

Definition ret {A} (a : A) : M A := fun w => (Val a, w, []).

Definition bind {A B} (m : M A) (f : A -> M B) : M B :=
  fun w =>
    match m w with
    | (Val a, w1, t1) =>
      match f a w1 with
      | (r, w2, t2) => (r, w2, t1 ++ t2)
      end
    | (Exc e, w1, t1) => (Exc e, w1, t1)
    | (OutOfFuel, w1, t1) => (OutOfFuel, w1, t1)
    end.

Definition raise {A} (e : pyexn) : M A := fun w => (Exc e, w, []).

Definition out_of_fuel {A} : M A := fun w => (OutOfFuel, w, []).

Definition lift {A} (r : Res A) : M A := fun w => (r, w, []).

Definition emit (ev : event) : M unit := fun w => (Val tt, w, [ev]).

Definition log (lvl : level) (msg : logmsg) : M unit := emit (EvLog lvl msg).

(** The builtin [exit]. *)
Definition exit {A} (code : Z) : M A := raise (SystemExit code).
End Monad.

Arguments M World A : clear implicits.

Notation "x <- m ;; k" := (bind m (fun x => k))
  (at level 100, m at next level, right associativity).
Notation "m ;; k" := (bind m (fun _ => k))
  (at level 100, right associativity).

Definition result {World A} (o : Res A * World * list event) : Res A := o.1.1.
Definition final_world {World A} (o : Res A * World * list event) : World := o.1.2.
Definition events {World A} (o : Res A * World * list event) : list event := o.2.

(** ** The script *)

Section Script.
Context {World : Type}.

(** The remote side: how the world answers a request and what it becomes. *)
Variable http : World -> Request -> http_outcome * World.

(** The configuration taken from the environment. *)
Variables REGION BITBUCKET_WORKSPACE BITBUCKET_REPO_SLUG : string.
Variables BITBUCKET_BRANCH_OR_COMMIT RULES_DIR : string.

Definition CHRONICLE_BASE_API_URL : string :=
  "https://" +:+ REGION +:+ "-backstory.googleapis.com/v2".

Definition BITBUCKET_BASE_API_URL : string := "https://api.bitbucket.org/2.0".

(** [requests.request(...)]. *)
Definition request (req : Request) : M World http_outcome :=
  fun w => match http w req with (o, w') => (Val o, w', [EvHttp req]) end.

(** Lines 63-68: what the handler logs about [e.response]. *)
Definition log_exception_response (er : option Response) : M World unit :=
  match er with
  | None => ret tt
  | Some r =>
    log ERROR (MsgResponseStatus (status_code r));;
    match json r with
    | Some v => log ERROR (MsgResponseBodyJson v)
    | None => log ERROR (MsgResponseBodyText (content r))
    end
  end.

(** Lines 56-59 and the handler of a failed [response.json()], which with
    requests 2.27 or later is a [RequestException] without a response. *)
Definition read_body (method : Method) (url : JSON) (stream : bool)
    (response : Response) : M World pyval :=
  if (status_code response =? 204) || negb (str_truthy (content response))
  then ret (if stream then PResponse response else PNone)
  else if stream then ret (PBytes (content response))
  else match json response with
       | Some v => ret (PJson v)
       | None => log ERROR (MsgRequestError method url);; ret PNone
       end.

Definition _make_api_request (method : Method) (url : JSON)
    (headers : Headers) (params : list (string * JSON))
    (json_data : option JSON) (expected_status : Z) (stream : bool)
    : M World pyval :=
  o <- request (mkRequest method url headers params json_data stream);;
  match o with
  | RequestException er =>
    log ERROR (MsgRequestError method url);;
    log_exception_response er;;
    ret PNone
  | Responded response =>
    if status_code response =? expected_status
    then read_body method url stream response
    else
      log ERROR (MsgUnexpectedStatus method url (status_code response));;
      if raises_for_status response
      then
        log ERROR (MsgRequestError method url);;
        log_exception_response (Some response);;
        ret PNone
      else read_body method url stream response
  end.

Definition file_content_url (file_path : string) : string :=
  BITBUCKET_BASE_API_URL +:+ "/repositories/" +:+ BITBUCKET_WORKSPACE
    +:+ "/" +:+ BITBUCKET_REPO_SLUG +:+ "/src/"
    +:+ BITBUCKET_BRANCH_OR_COMMIT +:+ "/" +:+ file_path.

(** Line 92: the path of an item the loop takes up, [None] for an item it
    passes over. *)
Definition select_item (item : JSON) : Res (option string) :=
  match json_get item "type" JNull with
  | Val t =>
    if json_is_str t "commit_file"
    then match json_get item "path" (JStr EmptyString) with
         | Val (JStr p) => Val (if endswith p ".yaral" then Some p else None)
         | Val _ => Exc AttributeError
         | Exc e => Exc e
         | OutOfFuel => OutOfFuel
         end
    else Val None
  | Exc e => Exc e
  | OutOfFuel => OutOfFuel
  end.

(** Lines 93-117: one selected file. *)
Definition fetch_rule_file (file_path : string)
    (rule_files_content : list rule_data) : M World (list rule_data) :=
  let file_name := path_name file_path in
  let filename_stem := path_stem (path_name file_name) in
  file_content_bytes <-
    _make_api_request GET (JStr (file_content_url file_path))
      BITBUCKET_HEADERS [] None 200 true;;
  if py_truthy file_content_bytes
  then
    match file_content_bytes with
    | PBytes b =>
      match utf8_decode b with
      | Some rule_text =>
        if strip_truthy rule_text
        then ret (rule_files_content ++ [mkRule filename_stem b file_path])
        else log WARNING (MsgEmptyRuleFile file_path);; ret rule_files_content
      | None => log ERROR (MsgUndecodable file_path);; ret rule_files_content
      end
    | _ =>
      (* no [decode] attribute: caught by [except Exception] *)
      log ERROR (MsgProcessingError file_path);; ret rule_files_content
    end
  else log ERROR (MsgFetchContentFailed file_path);; ret rule_files_content.

(** Lines 91-117: the [for item in ...] loop. *)
Fixpoint fetch_items (items : list JSON) (rule_files_content : list rule_data)
    : M World (list rule_data) :=
  match items with
  | [] => ret rule_files_content
  | item :: rest =>
    sel <- lift (select_item item);;
    match sel with
    | Some file_path =>
      rule_files_content' <- fetch_rule_file file_path rule_files_content;;
      fetch_items rest rule_files_content'
    | None => fetch_items rest rule_files_content
    end
  end.

Definition initial_list_url : string :=
  BITBUCKET_BASE_API_URL +:+ "/repositories/" +:+ BITBUCKET_WORKSPACE
    +:+ "/" +:+ BITBUCKET_REPO_SLUG +:+ "/src/"
    +:+ BITBUCKET_BRANCH_OR_COMMIT +:+ "/" +:+ RULES_DIR.

(** Lines 83-120: the [while list_url] loop. *)
Fixpoint files_loop (fuel : nat) (list_url : JSON)
    (rule_files_content : list rule_data)
    : M World (option (list rule_data)) :=
  if negb (json_truthy list_url) then ret (Some rule_files_content)
  else
    match fuel with
    | O => out_of_fuel
    | S fuel' =>
      response_data <-
        _make_api_request GET list_url BITBUCKET_HEADERS [] None 200 false;;
      unusable <-
        (if py_is_none response_data then ret true
         else present <- lift (py_contains "values" response_data);;
              ret (negb present));;
      if unusable : bool
      then log ERROR MsgListFilesFailed;; ret None
      else
        values <- lift (py_get response_data "values" (JArr []));;
        items <- lift (json_iter values);;
        rule_files_content' <- fetch_items items rule_files_content;;
        next <- lift (py_get response_data "next" JNull);;
        files_loop fuel' next rule_files_content'
    end.

Definition get_files_from_bitbucket (fuel : nat)
    : M World (option (list rule_data)) :=
  files_loop fuel (JStr initial_list_url) [].

(** Lines 161-168: the [for rule in rules] loop. *)
Fixpoint collect_rule_names (rules : list JSON)
    (existing_rule_names_set : gset pykey) : M World (gset pykey) :=
  match rules with
  | [] => ret existing_rule_names_set
  | rule :: rest =>
    rule_name_from_api <- lift (json_get rule "ruleName" JNull);;
    if json_truthy rule_name_from_api
    then
      k <- lift (json_key rule_name_from_api);;
      collect_rule_names rest ({[k]} ∪ existing_rule_names_set)
    else
      fallback <- lift (json_get rule "id" (JStr "Unknown ID"));;
      rule_id <- lift (json_get rule "ruleId" fallback);;
      log WARNING (MsgRuleWithoutName rule_id);;
      collect_rule_names rest existing_rule_names_set
  end.

Definition rules_url : string := CHRONICLE_BASE_API_URL +:+ "/detect/rules".

Definition page_params (next_page_token : JSON) : list (string * JSON) :=
  if json_truthy next_page_token then [("pageToken", next_page_token)] else [].

(** Lines 142-173: the [while True] loop. *)
Fixpoint rules_loop (fuel : nat) (page_num : nat) (next_page_token : JSON)
    (existing_rule_names_set : gset pykey)
    : M World (option (gset pykey)) :=
  match fuel with
  | O => out_of_fuel
  | S fuel' =>
    response_data <-
      _make_api_request GET (JStr rules_url) CHRONICLE_HEADERS
        (page_params next_page_token) None 200 false;;
    if py_is_none response_data
    then
      if Nat.eqb page_num 1
      then log ERROR MsgInitialPageFailed;; ret None
      else log ERROR (MsgPageFailed page_num);;
           ret (Some existing_rule_names_set)
    else
      rules <- lift (py_get response_data "rules" (JArr []));;
      _ <- lift (json_len rules);;
      items <- lift (json_iter rules);;
      existing_rule_names_set' <-
        collect_rule_names items existing_rule_names_set;;
      next_page_token' <- lift (py_get response_data "nextPageToken" JNull);;
      if negb (json_truthy next_page_token')
      then ret (Some existing_rule_names_set')
      else rules_loop fuel' (S page_num) next_page_token'
             existing_rule_names_set'
  end.

Definition get_existing_rule_names (fuel : nat)
    : M World (option (gset pykey)) :=
  rules_loop fuel 1 JNull ∅.

Definition verify_url : string :=
  CHRONICLE_BASE_API_URL +:+ "/detect/rules:verifyRule".

Definition verify_request (rule_text : string) : Request :=
  mkRequest POST (JStr verify_url) CHRONICLE_HEADERS []
    (Some (JObj [("rule_text", JStr rule_text)])) false.

Definition verify_rule (target_rule_name rule_text : string) : M World bool :=
  emit (EvCall (CallVerify target_rule_name rule_text));;
  response_data <-
    _make_api_request POST (JStr verify_url) CHRONICLE_HEADERS []
      (Some (JObj [("rule_text", JStr rule_text)])) 200 false;;
  if negb (py_is_none response_data) then ret true
  else log ERROR (MsgVerifyFailed target_rule_name);; ret false.

Definition upload_request (target_rule_name rule_text : string) : Request :=
  mkRequest POST (JStr rules_url) CHRONICLE_HEADERS []
    (Some (JObj [("ruleName", JStr target_rule_name);
                 ("ruleText", JStr rule_text)])) false.

Definition upload_rule (target_rule_name rule_text : string) : M World bool :=
  emit (EvCall (CallUpload target_rule_name rule_text));;
  response_data <-
    _make_api_request POST (JStr rules_url) CHRONICLE_HEADERS []
      (Some (JObj [("ruleName", JStr target_rule_name);
                   ("ruleText", JStr rule_text)])) 200 false;;
  has_id <-
    (if py_is_none response_data then ret false
     else has_rule_id <- lift (py_contains "ruleId" response_data);;
          if has_rule_id : bool then ret true
          else lift (py_contains "id" response_data));;
  if has_id : bool
  then
    fallback <- lift (py_get response_data "id" JNull);;
    _ <- lift (py_get response_data "ruleId" fallback);;
    ret true
  else log ERROR (MsgUploadFailed target_rule_name);; ret false.

(** Lines 265-284: the body of the loop of [main]. *)
Definition process_rule (existing_rule_names : gset pykey) (s : Summary)
    (rd : rule_data) : M World Summary :=
  let s := count_processed s in
  let target_rule_name := name rd in
  let rule_text := text rd in
  if bool_decide (KStr target_rule_name ∈ existing_rule_names)
  then ret (count_skipped s)
  else
    verified <- verify_rule target_rule_name rule_text;;
    if verified : bool
    then
      uploaded <- upload_rule target_rule_name rule_text;;
      if uploaded : bool then ret (count_uploaded s)
      else ret (count_failed_upload s)
    else ret (count_failed_verification s).

(** Lines 264-284. *)
Fixpoint process_rules (existing_rule_names : gset pykey) (s : Summary)
    (rules_from_bitbucket : list rule_data) : M World Summary :=
  match rules_from_bitbucket with
  | [] => ret s
  | rd :: rest =>
    s' <- process_rule existing_rule_names s rd;;
    process_rules existing_rule_names s' rest
  end.

(** Lines 300-303. *)
Definition exit_code (s : Summary) : Z :=
  if (0 <? rules_failed_verification s)%nat || (0 <? rules_failed_upload s)%nat
  then 1 else 0.

(** Lines 256-303: what [main] does once it has a non-empty list. *)
Definition orchestrate (fuel : nat) (existing_rule_names : gset pykey)
    (rules_from_bitbucket : list rule_data) : M World unit :=
  s <- process_rules existing_rule_names initial_summary rules_from_bitbucket;;
  log INFO (MsgSummary s);;
  _ <- get_existing_rule_names fuel;;
  exit (exit_code s).

Definition main (fuel : nat) : M World unit :=
  existing_rule_names <- get_existing_rule_names fuel;;
  match existing_rule_names with
  | None => log ERROR MsgAbortChronicle;; exit 1
  | Some existing_rule_names =>
    rules_from_bitbucket <- get_files_from_bitbucket fuel;;
    match rules_from_bitbucket with
    | None => log ERROR MsgAbortBitbucket;; exit 1
    | Some [] => log WARNING MsgNoRuleFiles;; exit 0
    | Some rules_from_bitbucket =>
      orchestrate fuel existing_rule_names rules_from_bitbucket
    end
  end.

End Script.

(** ** Notions used in the statements *)

Definition is_log (e : event) : bool :=
  match e with EvLog _ _ => true | _ => false end.

(** The calls and requests of a trace, without the log records. *)
Definition remote_events (t : list event) : list event :=
  List.filter (fun e => negb (is_log e)) t.

Definition is_http (e : event) : bool :=
  match e with EvHttp _ => true | _ => false end.

(** The requests of a trace. *)
Definition requests_of (t : list event) : list event := List.filter is_http t.

Definition is_verify_of (n : string) (e : event) : bool :=
  match e with EvCall (CallVerify n' _) => String.eqb n' n | _ => false end.

Definition is_upload_of (n : string) (e : event) : bool :=
  match e with EvCall (CallUpload n' _) => String.eqb n' n | _ => false end.

(** How often a trace enters [verify_rule], and [upload_rule], for a name. *)
Definition verify_calls (n : string) (t : list event) : nat :=
  length (List.filter (is_verify_of n) t).

Definition upload_calls (n : string) (t : list event) : nat :=
  length (List.filter (is_upload_of n) t).

(** The value of [_make_api_request] as a function of the outcome of its
    one request. *)
Definition body_value (stream : bool) (r : Response) : pyval :=
  if (status_code r =? 204) || negb (str_truthy (content r))
  then (if stream then PResponse r else PNone)
  else if stream then PBytes (content r)
  else match json r with Some v => PJson v | None => PNone end.

Definition api_value (expected_status : Z) (stream : bool) (o : http_outcome)
    : pyval :=
  match o with
  | RequestException _ => PNone
  | Responded r =>
    if (status_code r =? expected_status) || negb (raises_for_status r)
    then body_value stream r
    else PNone
  end.

(** Whether [verify_rule] reports success on the outcome of its request. *)
Definition verify_accepts (o : http_outcome) : bool :=
  negb (py_is_none (api_value 200 false o)).

(** The loop invariant of [main]: every processed rule is in one bucket. *)
Definition balanced (s : Summary) : Prop :=
  rules_processed s =
    (rules_skipped s + rules_uploaded s + rules_failed_verification s
     + rules_failed_upload s)%nat.

(** A computation that leaves the remote side alone: it returns or raises
    in the world it started in and produces log records only. *)
Definition quiet {World A} (k : M World A) : Prop :=
  forall w, exists r lg,
    k w = (r, w, lg) /\ forallb is_log lg = true /\ r <> OutOfFuel.

(** The reading of [verify_rule] under which it succeeds exactly on the
    expected status with a non-empty body that decodes as JSON. *)
Definition succeeds_iff_decodable (verdict : Res bool) (o : http_outcome)
    : Prop :=
  verdict = Val true <->
  exists r, o = Responded r /\ status_code r = 200 /\ content r <> EmptyString
            /\ is_Some (json r).

(** *** Pages of the two listings *)

(** The name a Chronicle rule contributes to the set, if any. *)
Definition rule_name_key (rule : JSON) : option pykey :=
  match rule with
  | JObj kvs =>
    let v := default JNull (assoc "ruleName" kvs) in
    if json_truthy v
    then match json_key v with Val k => Some k | _ => None end
    else None
  | _ => None
  end.

(** The names on one page of rules. *)
Definition names_of (rules : list JSON) : gset pykey :=
  list_to_set (omap rule_name_key rules).

(** A rule the loop can take in: an object whose [ruleName], if it counts
    as true, can be hashed. *)
Definition rule_entry_ok (rule : JSON) : bool :=
  match rule with
  | JObj kvs =>
    match default JNull (assoc "ruleName" kvs) with
    | JArr (_ :: _) | JObj (_ :: _) => false
    | _ => true
    end
  | _ => false
  end.

(** [v] is a page of the rule listing, with these rules and this value of
    [nextPageToken] ([JNull] when the field is missing). *)
Definition rules_page (v : pyval) (rules : list JSON) (token : JSON) : Prop :=
  exists kvs,
    v = PJson (JObj kvs)
    /\ default (JArr []) (assoc "rules" kvs) = JArr rules
    /\ forallb rule_entry_ok rules = true
    /\ default JNull (assoc "nextPageToken" kvs) = token.

(** [v] is a page of the directory listing, with these entries and this
    value of [next]. *)
Definition files_page (v : pyval) (items : list JSON) (next : JSON) : Prop :=
  exists kvs,
    v = PJson (JObj kvs)
    /\ assoc "values" kvs = Some (JArr items)
    /\ default JNull (assoc "next" kvs) = next.

(** Line 87: the listing page could not be loaded or has no [values]. *)
Definition page_unusable (v : pyval) : Prop :=
  py_is_none v = true \/ py_contains "values" v = Val false.

(** What lines 103-117 make of the value fetched for a file. *)
Inductive content_class : Type :=
| Usable (b : string)
| Blank
| Undecodable
| NotBytes
| FetchFailed.

Definition classify (v : pyval) : content_class :=
  if py_truthy v
  then match v with
       | PBytes b =>
         match utf8_decode b with
         | Some rule_text => if strip_truthy rule_text then Usable b else Blank
         | None => Undecodable
         end
       | _ => NotBytes
       end
  else FetchFailed.

(** The rule file a usable content makes. *)
Definition found_in (file_path : string) (c : content_class) : list rule_data :=
  match c with
  | Usable b =>
    [mkRule (path_stem (path_name (path_name file_path))) b file_path]
  | _ => []
  end.

(** The log record that goes with a file that is passed over. *)
Definition skip_record (c : content_class) (file_path : string) : list event :=
  match c with
  | Usable _ => []
  | Blank => [EvLog WARNING (MsgEmptyRuleFile file_path)]
  | Undecodable => [EvLog ERROR (MsgUndecodable file_path)]
  | NotBytes => [EvLog ERROR (MsgProcessingError file_path)]
  | FetchFailed => [EvLog ERROR (MsgFetchContentFailed file_path)]
  end.

Fixpoint str_has_slash (s : string) : bool :=
  match s with
  | EmptyString => false
  | String a s' => Ascii.eqb a slash || str_has_slash s'
  end.

(** The reading of line 92 under which an entry is taken up exactly when
    its type is ["file"] and its path ends with the rule extension. *)
Definition taken_up_iff_file (item : JSON) (sel : Res (option string)) : Prop :=
  forall kvs p,
    item = JObj kvs ->
    (sel = Val (Some p) <->
     assoc "type" kvs = Some (JStr "file")
     /\ assoc "path" kvs = Some (JStr p) /\ endswith p ".yaral" = true).

Section Pages.
Context {World : Type}.
Variable http : World -> Request -> http_outcome * World.
Variables REGION BITBUCKET_WORKSPACE BITBUCKET_REPO_SLUG : string.
Variables BITBUCKET_BRANCH_OR_COMMIT : string.

Definition rules_request (next_page_token : JSON) : Request :=
  mkRequest GET (JStr (rules_url REGION)) CHRONICLE_HEADERS
    (page_params next_page_token) None false.

Definition files_request (list_url : JSON) : Request :=
  mkRequest GET list_url BITBUCKET_HEADERS [] None false.

Definition content_request (file_path : string) : Request :=
  mkRequest GET
    (JStr (file_content_url BITBUCKET_WORKSPACE BITBUCKET_REPO_SLUG
             BITBUCKET_BRANCH_OR_COMMIT file_path))
    BITBUCKET_HEADERS [] None true.

(** The creation endpoint answers with JSON objects, if with anything
    usable at all. *)
Definition upload_answers_are_objects : Prop :=
  forall w n t,
    let v := api_value 200 false (http w (upload_request REGION n t)).1 in
    v = PNone \/ exists kvs, v = PJson (JObj kvs).

(** [rule_pages w token pages w' token']: from world [w] and page token
    [token], the rule listing yields the pages [pages], each with a
    next-page token that counts as true, and leaves the world [w'] and the
    token [token'] of the last of them. *)
Inductive rule_pages
    : World -> JSON -> list (list JSON) -> World -> JSON -> Prop :=
| rule_pages_nil w token : rule_pages w token [] w token
| rule_pages_cons w token o w1 rules token1 pages w2 token2 :
    http w (rules_request token) = (o, w1) ->
    rules_page (api_value 200 false o) rules token1 ->
    json_truthy token1 = true ->
    rule_pages w1 token1 pages w2 token2 ->
    rule_pages w token (rules :: pages) w2 token2.

(** The same for the directory listing: each page is given with the rule
    files the loop over its entries gathers. *)
Inductive file_pages
    : World -> JSON -> list (list rule_data) -> World -> JSON -> Prop :=
| file_pages_nil w list_url : file_pages w list_url [] w list_url
| file_pages_cons w list_url o w1 items next found w1' t pages w2 list_url2 :
    json_truthy list_url = true ->
    http w (files_request list_url) = (o, w1) ->
    files_page (api_value 200 false o) items next ->
    fetch_items http BITBUCKET_WORKSPACE BITBUCKET_REPO_SLUG
      BITBUCKET_BRANCH_OR_COMMIT items [] w1 = (Val found, w1', t) ->
    file_pages w1' next pages w2 list_url2 ->
    file_pages w list_url (found :: pages) w2 list_url2.
End Pages.

(** An outcome with earlier events put in front of its own. *)
Definition preceded_by {World A} (t : list event)
    (o : Res A * World * list event) : Res A * World * list event :=
  (result o, final_world o, t ++ events o).

(** The requests of a trace that ask for a page of a listing: those that
    are not streamed (a file's content is). *)
Definition is_page_request (e : event) : bool :=
  match e with EvHttp req => negb (req_stream req) | _ => false end.

Definition page_requests (t : list event) : list event :=
  List.filter is_page_request t.

(** The summary a run has logged. *)
Definition summary_of (t : list event) : option Summary :=
  match List.filter (fun e => match e with
                              | EvLog _ (MsgSummary _) => true
                              | _ => false
                              end) t with
  | [EvLog _ (MsgSummary s)] => Some s
  | _ => None
  end.


(** ** Configuration (lines 9-21)

    The module reads its settings from the environment when it is loaded
    and refuses to go on when a required one is missing. *)

(** [s.lstrip('/')]. *)
Fixpoint lstrip_slash (s : string) : string :=
  match s with
  | EmptyString => EmptyString
  | String a s' => if Ascii.eqb a slash then lstrip_slash s' else s
  end.

(** [s.rstrip('/')]. *)
Fixpoint rstrip_slash (s : string) : string :=
  match s with
  | EmptyString => EmptyString
  | String a s' =>
    match rstrip_slash s' with
    | EmptyString => if Ascii.eqb a slash then EmptyString else String a EmptyString
    | r => String a r
    end
  end.

(** [s.strip('/')]. *)
Definition strip_slash (s : string) : string := rstrip_slash (lstrip_slash s).

(** Truth value of what [os.environ.get] returns. *)
Definition env_truthy (v : option string) : bool :=
  match v with
  | Some s => str_truthy s
  | None => false
  end.

Module Config.
Record t : Type := mk {
  ACCESS_TOKEN : option string;
  REGION : option string;
  BITBUCKET_WORKSPACE : option string;
  BITBUCKET_REPO_SLUG : option string;
  BITBUCKET_ACCESS_TOKEN : option string;
  BITBUCKET_BRANCH_OR_COMMIT : string;
  RULES_DIR : string
}.
End Config.

(** Loading the module: the settings, or the message of the [ValueError]. *)
Inductive startup (A : Type) : Type :=
| Loaded (a : A)
| ValueError (msg : string).
Arguments Loaded {A} a.
Arguments ValueError {A} msg.

Definition chronicle_message : string :=
  "Missing required Chronicle environment variables: CHRONICLE_ACCESS_TOKEN, CHRONICLE_REGION".

Definition bitbucket_message : string :=
  "Missing required Bitbucket environment variables: BITBUCKET_WORKSPACE, BITBUCKET_REPO_SLUG, BITBUCKET_ACCESS_TOKEN".

(** Lines 9-15. *)
Definition read_environ (environ : string -> option string) : Config.t :=
  Config.mk
    (environ "CHRONICLE_ACCESS_TOKEN")
    (environ "CHRONICLE_REGION")
    (environ "BITBUCKET_WORKSPACE")
    (environ "BITBUCKET_REPO_SLUG")
    (environ "BITBUCKET_ACCESS_TOKEN")
    (default "main" (environ "BITBUCKET_BRANCH_OR_COMMIT"))
    (strip_slash (default "rules" (environ "RULES_DIR"))).

(** Lines 18-21. *)
Definition validate (c : Config.t) : startup Config.t :=
  if negb (env_truthy (Config.ACCESS_TOKEN c) && env_truthy (Config.REGION c))
  then ValueError chronicle_message
  else if negb (env_truthy (Config.BITBUCKET_WORKSPACE c)
                && env_truthy (Config.BITBUCKET_REPO_SLUG c)
                && env_truthy (Config.BITBUCKET_ACCESS_TOKEN c))
  then ValueError bitbucket_message
  else Loaded c.

Definition load_config (environ : string -> option string) : startup Config.t :=
  validate (read_environ environ).

(** The module run as a script: the settings are loaded, then [main] is
    called (lines 306-307). *)
Definition script {World : Type}
    (http : World -> Request -> http_outcome * World)
    (environ : string -> option string) (fuel : nat) (w : World)
    : startup (Res unit * World * list event) :=
  match load_config environ with
  | ValueError msg => ValueError msg
  | Loaded c =>
    Loaded (main http
              (default EmptyString (Config.REGION c))
              (default EmptyString (Config.BITBUCKET_WORKSPACE c))
              (default EmptyString (Config.BITBUCKET_REPO_SLUG c))
              (Config.BITBUCKET_BRANCH_OR_COMMIT c)
              (Config.RULES_DIR c) fuel w)
  end.

(** A setting that is there and not empty. *)
Definition provided (environ : string -> option string) (k : string) : Prop :=
  exists s, environ k = Some s /\ s <> EmptyString.

(** [n] slashes. *)
Fixpoint slashes (n : nat) : string :=
  match n with
  | O => EmptyString
  | S n' => String slash (slashes n')
  end.

(** A string that neither begins nor ends with a slash. *)
Definition no_outer_slash (s : string) : Prop :=
  str_prefix "/" s = false /\ endswith s "/" = false.

(** ** How a run ends

    The exit status of the interpreter for the way [main] ends: the code
    given to [exit], 1 for an exception that nothing catches, 0 when [main]
    returns.  A run that is out of fuel has not ended. *)
Definition process_exit_status (r : Res unit) : option Z :=
  match r with
  | Val _ => Some 0
  | Exc (SystemExit code) => Some code
  | Exc _ => Some 1
  | OutOfFuel => None
  end.

Section Counters.
Context {World : Type}.
Variable http : World -> Request -> http_outcome * World.
Variable REGION : string.

(** The counters of lines 257-261 when the loop of [main] is left, at its
    end or by an exception: a rule in whose turn a call raises has been
    counted as processed (line 265) and in no other counter. *)
Fixpoint counters_at_end (existing_rule_names : gset pykey) (s : Summary)
    (rules_from_bitbucket : list rule_data) (w : World) : Summary :=
  match rules_from_bitbucket with
  | [] => s
  | rd :: rest =>
    match process_rule http REGION existing_rule_names s rd w with
    | (Val s', w', _) => counters_at_end existing_rule_names s' rest w'
    | _ => count_processed s
    end
  end.

End Counters.

(** The reading of the exit status under which it is failure exactly when a
    verification or an upload has been counted as failed. *)
Definition exit_follows_counters (status : option Z) (s : Summary) : Prop :=
  status = Some 1 <->
  (0 < rules_failed_verification s + rules_failed_upload s)%nat.

(** ** More notions for statements about traces *)

(** The [verify_rule] calls of a trace, in order, with their arguments. *)
Definition verify_events (t : list event) : list (string * string) :=
  omap (fun e => match e with
                 | EvCall (CallVerify n x) => Some (n, x)
                 | _ => None
                 end) t.

(** The [upload_rule] calls of a trace. *)
Definition upload_events (t : list event) : list (string * string) :=
  omap (fun e => match e with
                 | EvCall (CallUpload n x) => Some (n, x)
                 | _ => None
                 end) t.

(** The rules whose verification, and whose upload, a trace logs as
    failed. *)
Definition verify_failures (t : list event) : list string :=
  omap (fun e => match e with
                 | EvLog ERROR (MsgVerifyFailed n) => Some n
                 | _ => None
                 end) t.

Definition upload_failures (t : list event) : list string :=
  omap (fun e => match e with
                 | EvLog ERROR (MsgUploadFailed n) => Some n
                 | _ => None
                 end) t.

(** The rules the loop of [main] passes on to [verify_rule]. *)
Definition new_rules (existing : gset pykey) (rules : list rule_data)
    : list rule_data :=
  List.filter (fun rd => negb (bool_decide (KStr (name rd) ∈ existing))) rules.

(** The paths of the entries the loop over a directory page takes up. *)
Definition selected_paths (items : list JSON) : list string :=
  omap (fun item => match select_item item with
                    | Val sel => sel
                    | _ => None
                    end) items.

Definition is_post (e : event) : bool :=
  match e with
  | EvHttp req => match req_method req with POST => true | GET => false end
  | _ => false
  end.

(** The requests of a trace, as requests. *)
Definition requests_made (t : list event) : list Request :=
  omap (fun e => match e with EvHttp req => Some req | _ => None end) t.

(** What the script may send: to Chronicle, with the Chronicle headers, a
    GET of the rule listing or a POST of a rule text to the verification
    endpoint or of a name and a rule text to the creation endpoint; to
    Bitbucket, with the Bitbucket headers, a GET without parameters or
    body. *)
Definition request_allowed (region : string) (req : Request) : Prop :=
  match req_headers req with
  | CHRONICLE_HEADERS =>
    (req_method req = GET /\ req_url req = JStr (rules_url region)
     /\ req_json req = None /\ req_stream req = false)
    \/ (exists rule_text, req = verify_request region rule_text)
    \/ (exists target_rule_name rule_text,
          req = upload_request region target_rule_name rule_text)
  | BITBUCKET_HEADERS =>
    req_method req = GET /\ req_params req = [] /\ req_json req = None
  end.

(** A rule file as [get_files_from_bitbucket] makes them. *)
Definition well_formed_rule (rd : rule_data) : Prop :=
  endswith (path rd) ".yaral" = true
  /\ name rd = path_stem (path_name (path_name (path rd)))
  /\ text rd <> EmptyString
  /\ exists rule_text,
       utf8_decode (text rd) = Some rule_text /\ strip_truthy rule_text = true.

(** A computation all of whose events satisfy [P], however it ends. *)
Definition only_emits {World A} (P : event -> Prop) (m : M World A) : Prop :=
  forall w, Forall P (events (m w)).

(** The log records [_make_api_request] writes. *)
Definition is_api_log (e : event) : bool :=
  match e with
  | EvLog ERROR (MsgUnexpectedStatus _ _ _)
  | EvLog ERROR (MsgRequestError _ _)
  | EvLog ERROR (MsgResponseStatus _)
  | EvLog ERROR (MsgResponseBodyJson _)
  | EvLog ERROR (MsgResponseBodyText _) => true
  | _ => false
  end.

(** An event that is no request, or a request the script may send. *)
Definition event_allowed (region : string) (e : event) : Prop :=
  match e with
  | EvHttp req => request_allowed region req
  | _ => True
  end.

(** An event that changes nothing on the remote side: no POST and no call
    of [verify_rule] or [upload_rule]. *)
Definition reads_only (e : event) : Prop :=
  match e with
  | EvHttp req => req_method req = GET
  | EvLog _ _ => True
  | EvCall _ => False
  end.

(** A Chronicle rule without a usable [ruleName] (line 163). *)
Definition lacks_name (rule : JSON) : bool :=
  match rule with
  | JObj kvs => negb (json_truthy (default JNull (assoc "ruleName" kvs)))
  | _ => false
  end.

(** The warning of line 168 for such a rule. *)
Definition nameless_warning (rule : JSON) : event :=
  match rule with
  | JObj kvs =>
    EvLog WARNING
      (MsgRuleWithoutName
         (default (default (JStr "Unknown ID") (assoc "id" kvs))
            (assoc "ruleId" kvs)))
  | _ => EvLog WARNING (MsgRuleWithoutName JNull)
  end.

(** Lines 222-223 once the test of line 222 has passed: reading the
    identifier. *)
Definition read_identifier (response_data : pyval) : Res bool :=
  match py_get response_data "id" JNull with
  | Val fallback =>
    match py_get response_data "ruleId" fallback with
    | Val _ => Val true
    | Exc e => Exc e
    | OutOfFuel => OutOfFuel
    end
  | Exc e => Exc e
  | OutOfFuel => OutOfFuel
  end.

(** What [upload_rule] makes of the value of its request (lines 222-229). *)
Definition upload_verdict (response_data : pyval) : Res bool :=
  if py_is_none response_data then Val false
  else
    match py_contains "ruleId" response_data with
    | Val true => read_identifier response_data
    | Val false =>
      match py_contains "id" response_data with
      | Val true => read_identifier response_data
      | Val false => Val false
      | Exc e => Exc e
      | OutOfFuel => OutOfFuel
      end
    | Exc e => Exc e
    | OutOfFuel => OutOfFuel
    end.

(** The log record of a verdict that is a failure. *)
Definition failure_record (msg : logmsg) (verdict : Res bool) : list event :=
  match verdict with
  | Val false => [EvLog ERROR msg]
  | _ => []
  end.

(** What one turn of the loop that returns has done. *)
Inductive turn (existing : gset pykey) (rd : rule_data) (s : Summary)
    : Summary -> list event -> Prop :=
| turn_skipped :
    KStr (name rd) ∈ existing ->
    turn existing rd s (count_skipped (count_processed s)) []
| turn_failed_verification t :
    KStr (name rd) ∉ existing ->
    verify_events t = [(name rd, text rd)] ->
    upload_events t = [] ->
    verify_failures t = [name rd] ->
    upload_failures t = [] ->
    turn existing rd s (count_failed_verification (count_processed s)) t
| turn_uploaded t :
    KStr (name rd) ∉ existing ->
    verify_events t = [(name rd, text rd)] ->
    upload_events t = [(name rd, text rd)] ->
    verify_failures t = [] ->
    upload_failures t = [] ->
    turn existing rd s (count_uploaded (count_processed s)) t
| turn_failed_upload t :
    KStr (name rd) ∉ existing ->
    verify_events t = [(name rd, text rd)] ->
    upload_events t = [(name rd, text rd)] ->
    verify_failures t = [] ->
    upload_failures t = [name rd] ->
    turn existing rd s (count_failed_upload (count_processed s)) t.


(** ** A sample deployment

    A remote side small enough to run the script on: three pages of
    Chronicle rules, two pages of a Bitbucket directory, and answers of the
    verification and creation endpoints that a scenario chooses. *)

Module Sample.

Definition REGION : string := "europe".
Definition WORKSPACE : string := "acme".
Definition REPO_SLUG : string := "secops".
Definition BRANCH : string := "main".
Definition RULES_DIR : string := "rules".

Definition dquote : string := String (ascii_of_nat 34) EmptyString.

(** A [str] between quotes, with quotes and backslashes escaped. *)
Fixpoint escape (s : string) : string :=
  match s with
  | EmptyString => EmptyString
  | String a s' =>
    if Ascii.eqb a (ascii_of_nat 34) || Ascii.eqb a (ascii_of_nat 92)
    then String (ascii_of_nat 92) (String a (escape s'))
    else String a (escape s')
  end.

Definition quoted (s : string) : string := dquote +:+ escape s +:+ dquote.

(** The text of a JSON value, as the sample remote side sends it. *)
Fixpoint render (v : JSON) : string :=
  match v with
  | JNull => "null"
  | JBool b => if b then "true" else "false"
  | JNum n => NilZero.string_of_int (Z.to_int n)
  | JStr s => quoted s
  | JArr xs =>
    "[" +:+ (fix go (xs : list JSON) : string :=
               match xs with
               | [] => EmptyString
               | x :: rest =>
                 render x +:+ match rest with
                              | [] => EmptyString
                              | _ => ", " +:+ go rest
                              end
               end) xs +:+ "]"
  | JObj kvs =>
    "{" +:+ (fix go (kvs : list (string * JSON)) : string :=
               match kvs with
               | [] => EmptyString
               | (k, x) :: rest =>
                 quoted k +:+ ": " +:+ render x
                 +:+ match rest with
                     | [] => EmptyString
                     | _ => ", " +:+ go rest
                     end
               end) kvs +:+ "}"
  end.

(** An answer with status 200 and a JSON body. *)
Definition ok (v : JSON) : http_outcome :=
  Responded (mkResponse 200 (render v) (Some v)).

Definition raw (status : Z) (body : string) : http_outcome :=
  Responded (mkResponse status body None).

Definition server_error : http_outcome :=
  Responded (mkResponse 500 "Internal Server Error" None).

Record Scenario : Type := mkScenario {
  rules_page2 : http_outcome;
  files_page2 : http_outcome;
  verify_answer : http_outcome;
  upload_answer : http_outcome
}.

Definition rule_named (n : string) : JSON := JObj [("ruleName", JStr n)].

Definition rules_body1 : JSON :=
  JObj [("rules", JArr [rule_named "ruleA"]); ("nextPageToken", JStr "p2")].
Definition rules_body2 : JSON :=
  JObj [("rules", JArr [rule_named "ruleX"; JObj [("ruleId", JStr "ru_7")]]);
        ("nextPageToken", JStr "p3")].
Definition rules_body3 : JSON :=
  JObj [("rules", JArr [rule_named "ruleY"])].

Definition entry (type path : string) : JSON :=
  JObj [("type", JStr type); ("path", JStr path)].

Definition files_url2 : string := "https://api.bitbucket.org/2.0/page2".

Definition files_body1 : JSON :=
  JObj [("values", JArr [entry "commit_file" "rules/ruleA.yaral";
                          entry "commit_file" "rules/README.md";
                          entry "commit_directory" "rules/old.yaral";
                          entry "commit_file" "rules/blank.yaral"]);
        ("next", JStr files_url2)].
Definition files_body2 : JSON :=
  JObj [("values", JArr [entry "commit_file" "rules/ruleB.yaral";
                          entry "commit_file" "rules/binary.yaral";
                          entry "commit_file" "rules/empty.yaral";
                          entry "commit_file" "rules/gone.yaral"])].

Definition content_of (file_path : string) : string :=
  file_content_url WORKSPACE REPO_SLUG BRANCH file_path.

Definition text_A : string := "rule ruleA { condition: $e }".
Definition text_B : string := "rule ruleB { condition: $e }".

Definition serve_get (sc : Scenario) (u : string)
    (params : list (string * JSON)) : http_outcome :=
  if String.eqb u (rules_url REGION) then
    match params with
    | [] => ok rules_body1
    | [(_, JStr "p2")] => rules_page2 sc
    | [(_, JStr "p3")] => ok rules_body3
    | _ => raw 400 "bad token"
    end
  else if String.eqb u (initial_list_url WORKSPACE REPO_SLUG BRANCH RULES_DIR)
  then ok files_body1
  else if String.eqb u files_url2 then files_page2 sc
  else if String.eqb u (content_of "rules/ruleA.yaral") then raw 200 text_A
  else if String.eqb u (content_of "rules/ruleB.yaral") then raw 200 text_B
  else if String.eqb u (content_of "rules/blank.yaral") then raw 200 "  "
  else if String.eqb u (content_of "rules/binary.yaral")
  then raw 200 (String (ascii_of_N 255) (String (ascii_of_N 254) EmptyString))
  else if String.eqb u (content_of "rules/empty.yaral") then raw 200 EmptyString
  else raw 404 "not found".

Definition serve (sc : Scenario) (req : Request) : http_outcome :=
  match req_url req with
  | JStr u =>
    match req_method req with
    | GET => serve_get sc u (req_params req)
    | POST =>
      if String.eqb u (verify_url REGION) then verify_answer sc
      else if String.eqb u (rules_url REGION) then upload_answer sc
      else raw 404 "not found"
    end
  | _ => RequestException None
  end.

(** The sample remote side keeps no state. *)
Definition http (sc : Scenario) (w : unit) (req : Request)
    : http_outcome * unit :=
  (serve sc req, w).

Definition all_well : Scenario :=
  mkScenario (ok rules_body2) (ok files_body2)
    (ok (JObj [])) (ok (JObj [("ruleId", JStr "ru_9")])).

Definition upload_refused : Scenario :=
  mkScenario (ok rules_body2) (ok files_body2)
    (ok (JObj [])) (ok (JObj [])).

Definition verify_refused : Scenario :=
  mkScenario (ok rules_body2) (ok files_body2)
    (raw 400 "syntax error") (ok (JObj [("ruleId", JStr "ru_9")])).

Definition rules_page2_down : Scenario :=
  mkScenario server_error (ok files_body2)
    (ok (JObj [])) (ok (JObj [("ruleId", JStr "ru_9")])).

Definition files_page2_down : Scenario :=
  mkScenario (ok rules_body2) server_error
    (ok (JObj [])) (ok (JObj [("ruleId", JStr "ru_9")])).

(** The verification endpoint answers 200 with the body [null]. *)
Definition verify_null : Scenario :=
  mkScenario (ok rules_body2) (ok files_body2)
    (ok JNull) (ok (JObj [("ruleId", JStr "ru_9")])).

(** The verification endpoint answers 201 with a JSON body. *)
Definition verify_created : Scenario :=
  mkScenario (ok rules_body2) (ok files_body2)
    (Responded (mkResponse 201 (render (JObj [])) (Some (JObj []))))
    (ok (JObj [("ruleId", JStr "ru_9")])).

Definition run_main (sc : Scenario) (fuel : nat)
    : Res unit * unit * list event :=
  main (http sc) REGION WORKSPACE REPO_SLUG BRANCH RULES_DIR fuel tt.

Definition list_rules (sc : Scenario) (fuel : nat)
    : Res (option (gset pykey)) * unit * list event :=
  get_existing_rule_names (http sc) REGION fuel tt.

Definition list_files (sc : Scenario) (fuel : nat)
    : Res (option (list rule_data)) * unit * list event :=
  get_files_from_bitbucket (http sc) WORKSPACE REPO_SLUG BRANCH RULES_DIR
    fuel tt.

Definition rule_A : rule_data := mkRule "ruleA" text_A "rules/ruleA.yaral".
Definition rule_B : rule_data := mkRule "ruleB" text_B "rules/ruleB.yaral".

End Sample.

(** ** Remote sides that answer oddly *)

Module Odd.

(** A remote side that answers every request in the same way. *)
Definition always (o : http_outcome) (w : unit) (req : Request)
    : http_outcome * unit :=
  (o, w).

(** A rule listing whose body is a JSON list. *)
Definition rules_as_list : http_outcome := Sample.ok (JArr []).

(** A second directory page with a string between two entries. *)
Definition entries_with_string : list JSON :=
  [Sample.entry "commit_file" "rules/ruleB.yaral";
   JStr "rules/ruleC.yaral";
   Sample.entry "commit_file" "rules/gone.yaral"].

Definition page2_with_string : Sample.Scenario :=
  Sample.mkScenario (Sample.ok Sample.rules_body2)
    (Sample.ok (JObj [("values", JArr entries_with_string)]))
    (Sample.ok (JObj [])) (Sample.ok (JObj [("ruleId", JStr "ru_9")])).

(** The creation endpoint answers with a number. *)
Definition upload_number : Sample.Scenario :=
  Sample.mkScenario (Sample.ok Sample.rules_body2) (Sample.ok Sample.files_body2)
    (Sample.ok (JObj [])) (Sample.ok (JNum 7)).

(** A page of rules with a name that is a number and a rule without a
    name. *)
Definition rules_of_mixed_page : list JSON :=
  [Sample.rule_named "ruleX"; JObj [("ruleName", JNum 5)];
   JObj [("ruleId", JStr "ru_7")]].

(** The entries of the first page of the sample directory listing. *)
Definition entries_of_page1 : list JSON :=
  [Sample.entry "commit_file" "rules/ruleA.yaral";
   Sample.entry "commit_file" "rules/README.md";
   Sample.entry "commit_directory" "rules/old.yaral";
   Sample.entry "commit_file" "rules/blank.yaral"].

End Odd.

(** * Properties *)

Lemma bind_val {World A B} (m : M World A) (f : A -> M World B) w a w1 t1 :
  m w = (Val a, w1, t1) ->
  bind m f w = ((f a w1).1.1, (f a w1).1.2, t1 ++ (f a w1).2).
Proof. intros H. unfold bind. rewrite H. by destruct (f a w1) as [[??]?]. Qed.

Lemma emit_bind {World B} ev (k : M World B) w :
  bind (emit ev) (fun _ => k) w
  = (result (k w), final_world (k w), ev :: events (k w)).
Proof. unfold bind, emit. simpl. by destruct (k w) as [[??]?]. Qed.

Lemma bind_val_inv {World A B} (m : M World A) (f : A -> M World B) w b w' t :
  bind m f w = (Val b, w', t) ->
  exists a w1 t1 t2,
    m w = (Val a, w1, t1) /\ f a w1 = (Val b, w', t2) /\ t = t1 ++ t2.
Proof.
  unfold bind. destruct (m w) as [[[a|e|] w1] t1]; [|done..].
  destruct (f a w1) as [[r w2] t2] eqn:Hf. intros [= -> -> <-].
  by eexists _, _, _, _.
Qed.

Lemma events_bind {World A B} (m : M World A) (f : A -> M World B) w :
  events (bind m f w)
  = events (m w)
    ++ match result (m w) with
       | Val a => events (f a (final_world (m w)))
       | _ => []
       end.
Proof.
  unfold bind, events, result, final_world.
  destruct (m w) as [[[a|e|] w1] t1]; simpl; [|by rewrite app_nil_r..].
  by destruct (f a w1) as [[??]?].
Qed.

Lemma verify_calls_app n t1 t2 :
  verify_calls n (t1 ++ t2) = (verify_calls n t1 + verify_calls n t2)%nat.
Proof. unfold verify_calls. by rewrite List.filter_app, length_app. Qed.

Lemma upload_calls_app n t1 t2 :
  upload_calls n (t1 ++ t2) = (upload_calls n t1 + upload_calls n t2)%nat.
Proof. unfold upload_calls. by rewrite List.filter_app, length_app. Qed.

Lemma filter_remote_events f t :
  (forall e, f e = true -> is_log e = false) ->
  List.filter f (remote_events t) = List.filter f t.
Proof.
  intros Hf. induction t as [|e t IH]; [done|]. simpl.
  destruct (is_log e) eqn:He; simpl.
  - destruct (f e) eqn:Hfe; [|done]. apply Hf in Hfe. congruence.
  - by rewrite IH.
Qed.

Lemma verify_calls_remote n t :
  verify_calls n (remote_events t) = verify_calls n t.
Proof.
  unfold verify_calls. rewrite filter_remote_events; [done|].
  by intros [| |[]].
Qed.

Lemma upload_calls_remote n t :
  upload_calls n (remote_events t) = upload_calls n t.
Proof.
  unfold upload_calls. rewrite filter_remote_events; [done|].
  by intros [| |[]].
Qed.

Lemma bind_lift_val {World A B} (a : A) (f : A -> M World B) w :
  bind (lift (Val a)) f w = f a w.
Proof. unfold bind, lift. by destruct (f a w) as [[??]?]. Qed.

Lemma bind_ret {World A B} (a : A) (f : A -> M World B) w :
  bind (ret a) f w = f a w.
Proof. apply bind_lift_val. Qed.

Lemma bind_then {World A B} (m : M World A) (f : A -> M World B) w a w1 t1 :
  m w = (Val a, w1, t1) -> bind m f w = preceded_by t1 (f a w1).
Proof. intros H. unfold bind. rewrite H. by destruct (f a w1) as [[??]?]. Qed.

Lemma preceded_by_nil {World A} (o : Res A * World * list event) :
  preceded_by [] o = o.
Proof. by destruct o as [[??]?]. Qed.

Lemma preceded_by_twice {World A} t1 t2 (o : Res A * World * list event) :
  preceded_by t1 (preceded_by t2 o) = preceded_by (t1 ++ t2) o.
Proof. unfold preceded_by. simpl. by rewrite app_assoc. Qed.

Lemma result_bind_val {World A B} (m : M World A) (f : A -> M World B) w b :
  result (bind m f w) = Val b ->
  exists a w1 t1, m w = (Val a, w1, t1) /\ result (f a w1) = Val b.
Proof.
  unfold bind, result. destruct (m w) as [[[a|e|] w1] t1]; [|done..].
  intros H. exists a, w1, t1. split; [done|].
  by destruct (f a w1) as [[??]?].
Qed.

Lemma requests_of_app t1 t2 :
  requests_of (t1 ++ t2) = requests_of t1 ++ requests_of t2.
Proof. apply List.filter_app. Qed.

Lemma requests_of_logs t : forallb is_log t = true -> requests_of t = [].
Proof.
  induction t as [|e t IH]; [done|]. simpl.
  intros [He Ht]%andb_prop. destruct e; try done. simpl. auto.
Qed.

Lemma py_is_none_PNone v : py_is_none v = true <-> v = PNone.
Proof. destruct v as [[]| |]; split; done. Qed.

Lemma events_preceded_by {World A} t (o : Res A * World * list event) :
  events (preceded_by t o) = t ++ events o.
Proof. done. Qed.

Lemma bind_assoc {World A B C} (m : M World A) (f : A -> M World B)
    (g : B -> M World C) w :
  bind (bind m f) g w = bind m (fun a => bind (f a) g) w.
Proof.
  unfold bind. destruct (m w) as [[[a|e|] w1] t1]; [|done..].
  destruct (f a w1) as [[[b|e|] w2] t2]; [|done..].
  destruct (g b w2) as [[r w3] t3]. by rewrite app_assoc.
Qed.

Lemma remote_events_app t1 t2 :
  remote_events (t1 ++ t2) = remote_events t1 ++ remote_events t2.
Proof. apply List.filter_app. Qed.

Lemma remote_events_logs t :
  forallb is_log t = true -> remote_events t = [].
Proof.
  induction t as [|e t IH]; [done|]. simpl.
  intros [He Ht]%andb_prop. rewrite He. simpl. auto.
Qed.

Lemma py_get_fuel v k d : py_get v k d <> OutOfFuel.
Proof. by destruct v as [[]| |]. Qed.

Lemma json_get_fuel v k d : json_get v k d <> OutOfFuel.
Proof. by destruct v. Qed.

Lemma py_contains_fuel k v : py_contains k v <> OutOfFuel.
Proof. by destruct v as [[]| |]. Qed.

(** *** Quiet computations *)

Lemma quiet_ret {World A} (a : A) : quiet (@ret World A a).
Proof. intros w. by eexists _, _. Qed.

Lemma quiet_raise {World A} e : quiet (@raise World A e).
Proof. intros w. by eexists _, _. Qed.

Lemma quiet_exit {World A} c : quiet (@exit World A c).
Proof. apply quiet_raise. Qed.

Lemma quiet_log {World} lvl msg : quiet (@log World lvl msg).
Proof. intros w. by eexists _, _. Qed.

Lemma quiet_lift {World A} (r : Res A) : r <> OutOfFuel -> quiet (@lift World A r).
Proof. intros Hr w. by eexists _, _. Qed.

Lemma quiet_bind {World A B} (m : M World A) (f : A -> M World B) :
  quiet m -> (forall a, quiet (f a)) -> quiet (bind m f).
Proof.
  intros Hm Hf w. unfold bind.
  destruct (Hm w) as (r & lg & -> & Hlg & Hr).
  destruct r as [a|e|]; [|by eexists _, _|done].
  destruct (Hf a w) as (r' & lg' & -> & Hlg' & Hr').
  eexists _, _. split; [done|]. by rewrite forallb_app, Hlg, Hlg'.
Qed.

Create HintDb quiet.
#[local] Hint Resolve quiet_ret quiet_raise quiet_exit quiet_log quiet_bind
  py_get_fuel json_get_fuel py_contains_fuel : quiet.
#[local] Hint Extern 1 (quiet (lift _)) => apply quiet_lift : quiet.
#[local] Hint Extern 2 (quiet (if ?b then _ else _)) => destruct b : quiet.

(** Running a quiet computation after [m] adds no remote event. *)
Lemma bind_quiet_remote_events {World A B} (m : M World A) (f : A -> M World B) w :
  (forall a, quiet (f a)) ->
  remote_events (events (bind m f w)) = remote_events (events (m w))
  /\ final_world (bind m f w) = final_world (m w)
  /\ (result (m w) <> OutOfFuel -> result (bind m f w) <> OutOfFuel).
Proof.
  intros Hf. unfold bind, events, final_world, result.
  destruct (m w) as [[[a|e|] w1] t1]; simpl; [|done..].
  destruct (Hf a w1) as (r & lg & -> & Hlg & Hr). simpl.
  rewrite remote_events_app, (remote_events_logs lg Hlg), app_nil_r. done.
Qed.

Section Properties.
Context {World : Type}.
Variable http : World -> Request -> http_outcome * World.
Variables REGION BITBUCKET_WORKSPACE BITBUCKET_REPO_SLUG : string.
Variables BITBUCKET_BRANCH_OR_COMMIT RULES_DIR : string.

(** [_make_api_request] never raises: it issues its one request, logs, and
    returns the value [api_value] describes. *)
Lemma make_api_request_spec m u h p j e s w :
  let req := mkRequest m u h p j s in
  exists logs,
    _make_api_request http m u h p j e s w
    = (Val (api_value e s (http w req).1), (http w req).2, EvHttp req :: logs)
    /\ forallb is_log logs = true.
Proof.
  intros req. unfold _make_api_request, request, bind. fold req.
  destruct (http w req) as [o w'] eqn:Hreq. simpl.
  destruct o as [r|er]; simpl.
  - assert (exists logs,
      read_body m u s r w' = (Val (body_value s r), w', logs)
      /\ forallb is_log logs = true) as (lb & Hb & Hlb).
    { unfold read_body, body_value.
      destruct ((status_code r =? 204) || negb (str_truthy (content r)));
        [by eexists|].
      destruct s; [by eexists|].
      destruct (json r); by eexists. }
    destruct (status_code r =? e) eqn:He; simpl.
    + rewrite Hb. by exists lb.
    + destruct (raises_for_status r) eqn:Hr; simpl.
      * destruct (json r); by eexists.
      * rewrite Hb. eexists. split; [done|]. simpl. done.
  - destruct er as [r|]; simpl; [|by eexists].
    destruct (json r); by eexists.
Qed.

Lemma verify_rule_spec n t w :
  exists logs,
    verify_rule http REGION n t w
    = (Val (verify_accepts (http w (verify_request REGION t)).1),
       (http w (verify_request REGION t)).2,
       EvCall (CallVerify n t) :: EvHttp (verify_request REGION t) :: logs)
    /\ forallb is_log logs = true.
Proof.
  unfold verify_rule, verify_accepts.
  destruct (make_api_request_spec POST (JStr (verify_url REGION))
    CHRONICLE_HEADERS [] (Some (JObj [("rule_text", JStr t)])) 200 false w)
    as (logs & Hreq & Hlogs).
  fold (verify_request REGION t) in Hreq.
  unfold bind at 1. simpl.
  erewrite bind_val by exact Hreq.
  destruct (py_is_none _); simpl.
  - eexists. split; [done|]. rewrite forallb_app, Hlogs. done.
  - eexists. split; [done|]. rewrite forallb_app, Hlogs. done.
Qed.

Lemma verify_rule_result n t w :
  result (verify_rule http REGION n t w)
  = Val (verify_accepts (http w (verify_request REGION t)).1).
Proof.
  destruct (verify_rule_spec n t w) as (logs & -> & _). done.
Qed.

(** [upload_rule] issues its one request whatever it goes on to do. *)
Lemma upload_rule_remote_events n t w :
  remote_events (events (upload_rule http REGION n t w))
  = [EvCall (CallUpload n t); EvHttp (upload_request REGION n t)]
  /\ result (upload_rule http REGION n t w) <> OutOfFuel.
Proof.
  unfold upload_rule.
  destruct (make_api_request_spec POST (JStr (rules_url REGION))
    CHRONICLE_HEADERS []
    (Some (JObj [("ruleName", JStr n); ("ruleText", JStr t)])) 200 false w)
    as (logs & Hreq & Hlogs).
  fold (upload_request REGION n t) in Hreq.
  rewrite emit_bind.
  match goal with
  | |- context [bind ?m ?f w] =>
    destruct (bind_quiet_remote_events m f w) as (He & _ & Hr)
  end.
  { intros v. auto 10 with quiet. }
  rewrite Hreq in He, Hr. unfold events, result in *. simpl in *.
  destruct (bind _ _ w) as [[r w2] lg]. simpl in *.
  rewrite (remote_events_logs logs Hlogs) in He.
  split; [|by apply Hr].
  unfold remote_events in *. simpl. by rewrite He.
Qed.

(** *** The loop of [main] *)

Lemma process_rule_skip existing s rd w :
  KStr (name rd) ∈ existing ->
  process_rule http REGION existing s rd w
  = (Val (count_skipped (count_processed s)), w, []).
Proof.
  intros Hin. unfold process_rule. by rewrite bool_decide_eq_true_2.
Qed.

Lemma process_rule_new existing s rd w :
  KStr (name rd) ∉ existing ->
  remote_events (events (process_rule http REGION existing s rd w))
  = [EvCall (CallVerify (name rd) (text rd));
     EvHttp (verify_request REGION (text rd))]
    ++ (if verify_accepts (http w (verify_request REGION (text rd))).1
        then [EvCall (CallUpload (name rd) (text rd));
              EvHttp (upload_request REGION (name rd) (text rd))]
        else [])
  /\ result (process_rule http REGION existing s rd w) <> OutOfFuel.
Proof.
  intros Hin. unfold process_rule. rewrite bool_decide_eq_false_2 by done.
  destruct (verify_rule_spec (name rd) (text rd) w) as (logs & Hv & Hlogs).
  rewrite (bind_val _ _ _ _ _ _ Hv). unfold events, result. simpl.
  rewrite remote_events_app. simpl.
  rewrite (remote_events_logs logs Hlogs). simpl.
  destruct (verify_accepts _); [|done].
  match goal with
  | |- context [bind ?m ?f ?w1] =>
    destruct (bind_quiet_remote_events m f w1) as (He & _ & Hr)
  end.
  { intros []; auto with quiet. }
  destruct (upload_rule_remote_events (name rd) (text rd)
              (http w (verify_request REGION (text rd))).2) as [Hu Hf].
  unfold events, result in *. rewrite He, Hu. split; [done|by apply Hr].
Qed.

(** A rule that has been handled is in exactly one bucket. *)
Lemma process_rule_bucket existing s rd w s' w' t :
  process_rule http REGION existing s rd w = (Val s', w', t) ->
  s' = count_skipped (count_processed s)
  \/ s' = count_uploaded (count_processed s)
  \/ s' = count_failed_upload (count_processed s)
  \/ s' = count_failed_verification (count_processed s).
Proof.
  unfold process_rule. case_bool_decide.
  { intros [= <- _ _]. by left. }
  intros (verified & w1 & t1 & t2 & _ & H2 & _)%bind_val_inv.
  destruct verified.
  - apply bind_val_inv in H2 as (uploaded & w2 & t3 & t4 & _ & H3 & _).
    destruct uploaded; unfold ret in H3; simplify_eq; auto.
  - unfold ret in H2. simplify_eq. auto.
Qed.

Lemma process_rule_balanced existing s rd w s' w' t :
  balanced s ->
  process_rule http REGION existing s rd w = (Val s', w', t) ->
  balanced s' /\ rules_processed s' = S (rules_processed s).
Proof.
  unfold balanced. intros Hs H.
  apply process_rule_bucket in H as [-> | [-> | [-> | ->]]]; simpl; lia.
Qed.

Lemma process_rules_balanced existing rules : forall s w s' w' t,
  balanced s ->
  process_rules http REGION existing s rules w = (Val s', w', t) ->
  balanced s'
  /\ rules_processed s' = (rules_processed s + length rules)%nat.
Proof.
  induction rules as [|rd rest IH]; intros s w s' w' t Hs H; simpl in H.
  - unfold ret in H. simplify_eq. split; [done|]. simpl. lia.
  - apply bind_val_inv in H as (s1 & w1 & t1 & t2 & H1 & H2 & _).
    destruct (process_rule_balanced _ _ _ _ _ _ _ Hs H1) as [Hb Hn].
    destruct (IH _ _ _ _ _ Hb H2) as [Hb' Hn'].
    split; [done|]. simpl. lia.
Qed.

(** The loop of [main] has no fuel to run out of. *)
Lemma process_rules_fuel existing rules : forall s w,
  result (process_rules http REGION existing s rules w) <> OutOfFuel.
Proof.
  induction rules as [|rd rest IH]; intros s w; simpl; [done|].
  unfold bind.
  destruct (process_rule http REGION existing s rd w)
    as [[[s1|e|] w1] t1] eqn:H1; simpl; [|done|].
  - specialize (IH s1 w1).
    by destruct (process_rules http REGION existing s1 rest w1) as [[??]?].
  - destruct (decide (KStr (name rd) ∈ existing)) as [Hin|Hin].
    + by rewrite process_rule_skip in H1.
    + destruct (process_rule_new existing s rd w Hin) as [_ Hf].
      by rewrite H1 in Hf.
Qed.

Lemma process_rule_other_name existing s rd w n :
  n <> name rd ->
  verify_calls n (events (process_rule http REGION existing s rd w)) = 0%nat
  /\ upload_calls n (events (process_rule http REGION existing s rd w)) = 0%nat.
Proof.
  intros Hn. destruct (decide (KStr (name rd) ∈ existing)) as [Hin|Hin].
  { by rewrite process_rule_skip. }
  rewrite <- verify_calls_remote, <- upload_calls_remote.
  destruct (process_rule_new existing s rd w Hin) as [-> _].
  assert (String.eqb (name rd) n = false) as Hne
    by (apply String.eqb_neq; congruence).
  unfold verify_calls, upload_calls.
  destruct (verify_accepts _); simpl; by rewrite Hne.
Qed.

Lemma process_rules_existing_name existing n rules : forall s w,
  KStr n ∈ existing ->
  verify_calls n (events (process_rules http REGION existing s rules w)) = 0%nat
  /\ upload_calls n (events (process_rules http REGION existing s rules w)) = 0%nat.
Proof.
  induction rules as [|rd rest IH]; intros s w Hin; simpl; [done|].
  rewrite events_bind, verify_calls_app, upload_calls_app.
  assert (verify_calls n (events (process_rule http REGION existing s rd w)) = 0%nat
    /\ upload_calls n (events (process_rule http REGION existing s rd w)) = 0%nat)
    as [-> ->].
  { destruct (decide (n = name rd)) as [->|Hne].
    - by rewrite process_rule_skip.
    - by apply process_rule_other_name. }
  destruct (result _); simpl; [by apply IH|done..].
Qed.

(** When the creation endpoint answers with JSON objects, if with
    anything usable at all, [upload_rule] returns, and so does the loop of
    [main]. *)
Lemma upload_rule_returns n t w :
  upload_answers_are_objects http REGION ->
  exists uploaded w' tr, upload_rule http REGION n t w = (Val uploaded, w', tr).
Proof.
  intros Hobj. unfold upload_rule. rewrite emit_bind.
  destruct (make_api_request_spec POST (JStr (rules_url REGION))
    CHRONICLE_HEADERS []
    (Some (JObj [("ruleName", JStr n); ("ruleText", JStr t)])) 200 false w)
    as (logs & Hreq & _).
  fold (upload_request REGION n t) in Hreq.
  rewrite (bind_then _ _ _ _ _ _ Hreq).
  destruct (Hobj w n t) as [->|[kvs ->]]; simpl.
  - rewrite bind_ret. unfold log. rewrite emit_bind. by eexists _, _, _.
  - rewrite bind_assoc, bind_lift_val.
    destruct (bool_decide (is_Some (assoc "ruleId" kvs))).
    + rewrite bind_ret, !bind_lift_val. by eexists _, _, _.
    + rewrite bind_lift_val.
      destruct (bool_decide (is_Some (assoc "id" kvs))).
      * rewrite !bind_lift_val. by eexists _, _, _.
      * unfold log. rewrite emit_bind. by eexists _, _, _.
Qed.

Lemma process_rules_returns existing rules : forall s w,
  upload_answers_are_objects http REGION ->
  exists s' w' tr,
    process_rules http REGION existing s rules w = (Val s', w', tr).
Proof.
  intros s w Hobj. revert s w.
  induction rules as [|rd rest IH]; intros s w; simpl; [by eexists _, _, _|].
  assert (exists s1 w1 t1,
    process_rule http REGION existing s rd w = (Val s1, w1, t1))
    as (s1 & w1 & t1 & H1).
  { unfold process_rule. case_bool_decide; [by eexists _, _, _|].
    destruct (verify_rule_spec (name rd) (text rd) w) as (logs & Hv & _).
    rewrite (bind_then _ _ _ _ _ _ Hv).
    destruct (verify_accepts _); [|by eexists _, _, _].
    destruct (upload_rule_returns (name rd) (text rd)
                (http w (verify_request REGION (text rd))).2 Hobj)
      as (uploaded & w' & tr & Hu).
    rewrite (bind_then _ _ _ _ _ _ Hu).
    destruct uploaded; by eexists _, _, _. }
  rewrite (bind_then _ _ _ _ _ _ H1).
  destruct (IH s1 w1) as (s' & w' & tr & ->). by eexists _, _, _.
Qed.

(** C2. A rule whose name is among the existing rule names is counted as
    skipped without any event: no verification, no upload, no request.
    Over a whole run, [verify_rule] and [upload_rule] are entered zero
    times for such a name. *)
Theorem existing_rule_is_skipped existing rd :
  KStr (name rd) ∈ existing ->
  (forall s w,
     process_rule http REGION existing s rd w
     = (Val (count_skipped (count_processed s)), w, []))
  /\ (forall rules s w,
        verify_calls (name rd)
          (events (process_rules http REGION existing s rules w)) = 0%nat
        /\ upload_calls (name rd)
             (events (process_rules http REGION existing s rules w)) = 0%nat).
Proof.
  intros Hin. split.
  - intros s w. by apply process_rule_skip.
  - intros rules s w. by apply process_rules_existing_name.
Qed.

(** C3. For a rule whose name is not among the existing rule names, the
    calls and requests of its iteration are: [verify_rule] entered once
    with its one request, and then, exactly when [verify_rule] returned
    success, [upload_rule] entered once with its one request. *)
Theorem verify_once_then_upload_once existing s rd w :
  KStr (name rd) ∉ existing ->
  exists verified,
    result (verify_rule http REGION (name rd) (text rd) w) = Val verified
    /\ remote_events (events (process_rule http REGION existing s rd w))
       = [EvCall (CallVerify (name rd) (text rd));
          EvHttp (verify_request REGION (text rd))]
         ++ (if verified : bool
             then [EvCall (CallUpload (name rd) (text rd));
                   EvHttp (upload_request REGION (name rd) (text rd))]
             else []).
Proof.
  intros Hin. eexists. split; [apply verify_rule_result|].
  by destruct (process_rule_new existing s rd w Hin) as [-> _].
Qed.

(** C9. After any number of rules has been handled, the processed counter
    is the sum of the four outcome counters, and it is the number of rules
    handled. *)
Theorem processed_is_sum_of_buckets existing rules k w s w' t :
  process_rules http REGION existing initial_summary (take k rules) w
  = (Val s, w', t) ->
  rules_processed s
  = (rules_skipped s + rules_uploaded s + rules_failed_verification s
     + rules_failed_upload s)%nat
  /\ rules_processed s = length (take k rules).
Proof.
  intros H.
  apply process_rules_balanced in H as [Hb Hn]; [|done].
  split; [exact Hb|]. by rewrite Hn.
Qed.


(** *** Verification *)

Lemma str_truthy_nonempty s : str_truthy s = true <-> s <> EmptyString.
Proof. by destruct s. Qed.

(** C10 (amended). When the verification request is answered with the
    expected status 200, [verify_rule] returns success exactly when the
    body is non-empty and decodes to a JSON value other than [null]; a 204
    answer, a 4xx or 5xx answer and a request that raises are failures. *)
Theorem verify_rule_on_expected_status n t w o w' :
  http w (verify_request REGION t) = (o, w') ->
  (forall r, o = Responded r -> status_code r = 200 ->
     (result (verify_rule http REGION n t w) = Val true <->
      content r <> EmptyString /\ exists v, json r = Some v /\ v <> JNull))
  /\ (forall r, o = Responded r ->
        status_code r = 204 \/ 400 <= status_code r < 600 ->
        result (verify_rule http REGION n t w) = Val false)
  /\ (forall er, o = RequestException er ->
        result (verify_rule http REGION n t w) = Val false).
Proof.
  intros Hreq. rewrite verify_rule_result, Hreq. simpl.
  unfold verify_accepts, api_value, body_value.
  split; [|split].
  - intros r -> H200. rewrite H200. simpl.
    rewrite <- str_truthy_nonempty.
    destruct (str_truthy (content r)); simpl.
    + destruct (json r) as [[]|]; simpl; split;
        try done; try (intros [_ (v & [= <-] & Hv)]; done);
        intros _; (split; [done|]); eexists; (split; [done|]); done.
    + split; [done|]. by intros [? _].
  - intros r -> [H204|Hr]; unfold raises_for_status.
    + rewrite H204. done.
    + destruct (status_code r =? 200) eqn:E; [lia|].
      replace (400 <=? status_code r) with true by lia.
      replace (status_code r <? 600) with true by lia. done.
  - by intros er ->.
Qed.

End Properties.

(** The sample verification endpoint that answers 200 with the body [null]:
    the status is the expected one and the body is non-empty and decodes,
    and [verify_rule] reports failure. *)
Lemma verify_rule_null_body :
  Sample.http Sample.verify_null tt
    (verify_request Sample.REGION Sample.text_B)
  = (Responded (mkResponse 200 "null" (Some JNull)), tt)
  /\ ~ succeeds_iff_decodable
         (result (verify_rule (Sample.http Sample.verify_null) Sample.REGION
                    "ruleB" Sample.text_B tt))
         (Responded (mkResponse 200 "null" (Some JNull))).
Proof.
  split; [reflexivity|].
  unfold succeeds_iff_decodable. intros [_ H].
  assert (result (verify_rule (Sample.http Sample.verify_null) Sample.REGION
                    "ruleB" Sample.text_B tt) = Val false) as Hv
    by (vm_compute; reflexivity).
  rewrite Hv in H. discriminate H.
  eexists. split; [reflexivity|]. simpl. split; [done|]. split; [done|]. by eexists.
Qed.

Lemma verify_rule_on_expected_status_witness :
  (result (verify_rule (Sample.http Sample.all_well) Sample.REGION
             "ruleB" Sample.text_B tt) = Val true <->
   "{}" <> EmptyString /\ exists v, Some (JObj []) = Some v /\ v <> JNull).
Proof.
  refine (proj1 (verify_rule_on_expected_status (Sample.http Sample.all_well)
    Sample.REGION "ruleB" Sample.text_B tt
    (Responded (mkResponse 200 "{}" (Some (JObj [])))) tt _)
    (mkResponse 200 "{}" (Some (JObj []))) _ _); reflexivity.
Defined.

(** An answer with status 201 is logged as unexpected, yet
    [raise_for_status] does not raise for it and its body is returned. *)
Example verify_rule_status_201 :
  result (verify_rule (Sample.http Sample.verify_created) Sample.REGION
            "ruleB" Sample.text_B tt) = Val true.
Proof. vm_compute. reflexivity. Qed.

(** *** The sample deployment, run *)

Lemma existing_rule_is_skipped_witness :
(KStr (name Sample.rule_A) ∈ ({[KStr "ruleA"]} : gset pykey))
  /\ process_rule (Sample.http Sample.all_well) Sample.REGION
       {[KStr "ruleA"]} initial_summary Sample.rule_A tt
     = (Val (mkSummary 1 0 1 0 0), tt, [])
  /\ verify_calls "ruleA"
       (events (process_rules (Sample.http Sample.all_well) Sample.REGION
                  {[KStr "ruleA"]} initial_summary
                  [Sample.rule_A; Sample.rule_B] tt)) = 0%nat.
Proof.
  assert (KStr (name Sample.rule_A) ∈ ({[KStr "ruleA"]} : gset pykey)) as Hin
    by (apply elem_of_singleton; reflexivity).
  split; [exact Hin|].
  destruct (existing_rule_is_skipped (Sample.http Sample.all_well)
              Sample.REGION {[KStr "ruleA"]} Sample.rule_A Hin) as [Hstep Hrun].
  split.
  - exact (Hstep initial_summary tt).
  - exact (proj1 (Hrun [Sample.rule_A; Sample.rule_B] initial_summary tt)).
Defined.

Lemma verify_once_then_upload_once_witness :
(KStr (name Sample.rule_B) ∉ ({[KStr "ruleA"]} : gset pykey))
  /\ exists verified,
       result (verify_rule (Sample.http Sample.all_well) Sample.REGION
                 "ruleB" Sample.text_B tt) = Val verified
       /\ remote_events
            (events (process_rule (Sample.http Sample.all_well) Sample.REGION
                       {[KStr "ruleA"]} initial_summary Sample.rule_B tt))
          = [EvCall (CallVerify "ruleB" Sample.text_B);
             EvHttp (verify_request Sample.REGION Sample.text_B)]
            ++ (if verified : bool
                then [EvCall (CallUpload "ruleB" Sample.text_B);
                      EvHttp (upload_request Sample.REGION "ruleB" Sample.text_B)]
                else []).
Proof.
  assert (KStr (name Sample.rule_B) ∉ ({[KStr "ruleA"]} : gset pykey)) as Hout
    by (intros H%elem_of_singleton; discriminate H).
  split; [exact Hout|].
  exact (verify_once_then_upload_once (Sample.http Sample.all_well)
           Sample.REGION {[KStr "ruleA"]} initial_summary Sample.rule_B tt Hout).
Defined.

Lemma processed_is_sum_of_buckets_witness :
  exists s t,
    process_rules (Sample.http Sample.upload_refused) Sample.REGION
      {[KStr "ruleA"]} initial_summary
      (take 2 [Sample.rule_A; Sample.rule_B]) tt = (Val s, tt, t)
    /\ rules_processed s
       = (rules_skipped s + rules_uploaded s + rules_failed_verification s
          + rules_failed_upload s)%nat
    /\ rules_processed s = 2%nat.
Proof.
  eexists _, _. split; [vm_compute; reflexivity|].
  eapply (processed_is_sum_of_buckets (Sample.http Sample.upload_refused)
            Sample.REGION {[KStr "ruleA"]} [Sample.rule_A; Sample.rule_B] 2 tt).
  vm_compute. reflexivity.
Defined.

(** When the loop returns, the counters it is left with are the summary it
    returns. *)
Lemma counters_at_end_returned {World}
    (http : World -> Request -> http_outcome * World) REGION existing rules :
  forall s0 w s w' t,
    process_rules http REGION existing s0 rules w = (Val s, w', t) ->
    counters_at_end http REGION existing s0 rules w = s.
Proof.
  induction rules as [|rd rest IH]; intros s0 w s w' t H; simpl in *.
  { unfold ret in H. by simplify_eq. }
  apply bind_val_inv in H as (s1 & w1 & t1 & t2 & H1 & H & ->).
  rewrite H1. by apply (IH _ _ _ _ _ H).
Qed.



(** ** The listing of existing rules *)

Lemma names_of_cons rule rules :
  names_of (rule :: rules)
  = match rule_name_key rule with
    | Some k => {[k]} ∪ names_of rules
    | None => names_of rules
    end.
Proof. unfold names_of. simpl. by destruct (rule_name_key rule). Qed.

Lemma collect_rule_names_spec {World} rules : forall acc (w : World),
  forallb rule_entry_ok rules = true ->
  exists logs,
    collect_rule_names rules acc w = (Val (names_of rules ∪ acc), w, logs)
    /\ forallb is_log logs = true.
Proof.
  induction rules as [|rule rest IH]; intros acc w Hok; simpl.
  { exists []. split; [|done]. unfold ret, names_of. simpl.
    by rewrite (left_id_L ∅ (∪)). }
  simpl in Hok. apply andb_prop in Hok as [Hrule Hrest].
  destruct rule as [| | | | |kvs]; try done.
  rewrite names_of_cons. simpl in *.
  rewrite bind_lift_val.
  destruct (json_truthy (default JNull (assoc "ruleName" kvs))) eqn:Htruthy.
  - assert (exists k, json_key (default JNull (assoc "ruleName" kvs)) = Val k)
      as [k Hk].
    { destruct (default JNull (assoc "ruleName" kvs)) as [| | | |[]|[]];
        try done; by eexists. }
    rewrite Hk, bind_lift_val.
    destruct (IH ({[k]} ∪ acc) w Hrest) as (logs & -> & Hlogs).
    exists logs. split; [|done]. do 3 f_equal.
    by rewrite (assoc_L (∪)), (comm_L (∪) (names_of rest)).
  - rewrite !bind_lift_val. unfold log. rewrite emit_bind.
    destruct (IH acc w Hrest) as (logs & -> & Hlogs).
    eexists. split; [done|]. done.
Qed.

Section Rules.
Context {World : Type}.
Variable http : World -> Request -> http_outcome * World.
Variable REGION : string.

(** One turn of the loop on a page that loaded. *)
Lemma rules_loop_page fuel page_num token acc w o w1 rules token1 :
  http w (rules_request REGION token) = (o, w1) ->
  rules_page (api_value 200 false o) rules token1 ->
  exists logs,
    forallb is_log logs = true
    /\ rules_loop http REGION (S fuel) page_num token acc w
       = preceded_by (EvHttp (rules_request REGION token) :: logs)
           (if json_truthy token1
            then rules_loop http REGION fuel (S page_num) token1
                   (names_of rules ∪ acc) w1
            else (Val (Some (names_of rules ∪ acc)), w1, [])).
Proof.
  intros Hreq (kvs & Hv & Hrules & Hok & Htoken). simpl.
  destruct (make_api_request_spec http GET (JStr (rules_url REGION))
    CHRONICLE_HEADERS (page_params token) None 200 false w)
    as (logs & Hcall & Hlogs).
  fold (rules_request REGION token) in Hcall. rewrite Hreq in Hcall.
  simpl in Hcall. rewrite Hv in Hcall.
  rewrite (bind_then _ _ _ _ _ _ Hcall). simpl.
  rewrite Hrules, bind_lift_val.
  change (json_len (JArr rules)) with (Val (length rules)).
  change (json_iter (JArr rules)) with (Val rules).
  rewrite !bind_lift_val.
  destruct (collect_rule_names_spec rules acc w1 Hok) as (logs' & Hc & Hlogs').
  rewrite (bind_then _ _ _ _ _ _ Hc), bind_lift_val, Htoken.
  rewrite preceded_by_twice.
  exists (logs ++ logs'). split; [by rewrite forallb_app, Hlogs, Hlogs'|].
  by destruct (json_truthy token1).
Qed.

(** One turn of the loop on a page that did not load. *)
Lemma rules_loop_failed fuel page_num token acc w o w1 :
  http w (rules_request REGION token) = (o, w1) ->
  api_value 200 false o = PNone ->
  exists logs,
    forallb is_log logs = true
    /\ rules_loop http REGION (S fuel) page_num token acc w
       = (Val (if Nat.eqb page_num 1 then None else Some acc), w1,
          EvHttp (rules_request REGION token) :: logs).
Proof.
  intros Hreq Hv. simpl.
  destruct (make_api_request_spec http GET (JStr (rules_url REGION))
    CHRONICLE_HEADERS (page_params token) None 200 false w)
    as (logs & Hcall & Hlogs).
  fold (rules_request REGION token) in Hcall. rewrite Hreq in Hcall.
  simpl in Hcall. rewrite Hv in Hcall.
  rewrite (bind_then _ _ _ _ _ _ Hcall). simpl.
  destruct (Nat.eqb page_num 1); unfold log; rewrite emit_bind;
    eexists; (split; [|reflexivity]); by rewrite forallb_app, Hlogs.
Qed.

(** The turns of the loop over pages that load and name a next page. *)
Lemma rules_loop_pages w token pages w2 token2 :
  rule_pages http REGION w token pages w2 token2 ->
  forall fuel page_num acc,
  exists pre,
    rules_loop http REGION (length pages + fuel) page_num token acc w
    = preceded_by pre
        (rules_loop http REGION fuel (length pages + page_num) token2
           (⋃ (names_of <$> pages) ∪ acc) w2)
    /\ length (requests_of pre) = length pages.
Proof.
  induction 1 as [w token|w token o w1 rules token1 pages w2 token2
                            Hreq Hpage Htruthy _ IH];
    intros fuel page_num acc.
  - exists []. simpl. rewrite preceded_by_nil.
    by rewrite (left_id_L ∅ (∪)).
  - destruct (rules_loop_page (length pages + fuel) page_num token acc
                w o w1 rules token1 Hreq Hpage) as (logs & Hlogs & Hstep).
    rewrite Htruthy in Hstep.
    destruct (IH fuel (S page_num) (names_of rules ∪ acc)) as (pre & Hrest & Hn).
    exists ((EvHttp (rules_request REGION token) :: logs) ++ pre).
    split.
    + change (length (rules :: pages) + fuel)%nat
        with (S (length pages + fuel)).
      rewrite Hstep, Hrest, preceded_by_twice.
      change (length (rules :: pages) + page_num)%nat
        with (S (length pages + page_num)).
      rewrite Nat.add_succ_r. simpl.
      by rewrite (assoc_L (∪)), (comm_L (∪) (names_of rules)).
    + rewrite requests_of_app. simpl.
      rewrite (requests_of_logs logs Hlogs), length_app. simpl. lia.
Qed.

(** [None] can only come from the first turn, when its page fails. *)
Lemma rules_loop_none fuel : forall page_num token acc w,
  (1 <= page_num)%nat ->
  result (rules_loop http REGION fuel page_num token acc w) = Val None ->
  page_num = 1%nat
  /\ api_value 200 false (http w (rules_request REGION token)).1 = PNone.
Proof.
  induction fuel as [|fuel IH]; intros page_num token acc w Hpos H; [done|].
  simpl in H.
  destruct (make_api_request_spec http GET (JStr (rules_url REGION))
    CHRONICLE_HEADERS (page_params token) None 200 false w)
    as (logs & Hcall & Hlogs).
  fold (rules_request REGION token) in Hcall.
  apply result_bind_val in H as (v & w1 & t1 & Hcall' & H).
  rewrite Hcall in Hcall'. injection Hcall' as <- <- <-.
  destruct (py_is_none _) eqn:Hnone.
  - apply py_is_none_PNone in Hnone. split; [|done].
    destruct (Nat.eqb page_num 1) eqn:E; [by apply Nat.eqb_eq|].
    unfold log in H. rewrite emit_bind in H. done.
  - exfalso.
    apply result_bind_val in H as (rules & ? & ? & _ & H).
    apply result_bind_val in H as (? & ? & ? & _ & H).
    apply result_bind_val in H as (items & ? & ? & _ & H).
    apply result_bind_val in H as (acc' & ? & ? & _ & H).
    apply result_bind_val in H as (token' & ? & ? & _ & H).
    destruct (negb (json_truthy token')); [done|].
    apply IH in H as [? _]; lia.
Qed.

Lemma rules_listing_truncated fuel w pages w2 token2 o w3 :
  pages <> [] ->
  rule_pages http REGION w JNull pages w2 token2 ->
  http w2 (rules_request REGION token2) = (o, w3) ->
  api_value 200 false o = PNone ->
  exists t,
    get_existing_rule_names http REGION (length pages + S fuel) w
    = (Val (Some (⋃ (names_of <$> pages))), w3, t)
    /\ length (requests_of t) = S (length pages).
Proof.
  intros Hne Hpages Hreq Hfail. unfold get_existing_rule_names.
  destruct (rules_loop_pages _ _ _ _ _ Hpages (S fuel) 1%nat ∅)
    as (pre & -> & Hn).
  destruct (rules_loop_failed fuel (length pages + 1) token2
              (⋃ (names_of <$> pages) ∪ ∅) w2 o w3 Hreq Hfail)
    as (logs & Hlogs & ->).
  replace (Nat.eqb (length pages + 1) 1) with false
    by (destruct pages; [done|]; simpl; by rewrite Nat.add_succ_r).
  rewrite (right_id_L ∅ (∪)).
  eexists. split; [reflexivity|]. simpl.
  rewrite requests_of_app, length_app, Hn. simpl.
  rewrite (requests_of_logs logs Hlogs). simpl. lia.
Qed.

Lemma rules_listing_complete fuel w pages w2 token2 o w3 rules token3 :
  rule_pages http REGION w JNull pages w2 token2 ->
  http w2 (rules_request REGION token2) = (o, w3) ->
  rules_page (api_value 200 false o) rules token3 ->
  json_truthy token3 = false ->
  exists t,
    get_existing_rule_names http REGION (length pages + S fuel) w
    = (Val (Some (⋃ (names_of <$> pages ++ [rules]))), w3, t)
    /\ length (requests_of t) = S (length pages).
Proof.
  intros Hpages Hreq Hpage Hlast. unfold get_existing_rule_names.
  destruct (rules_loop_pages _ _ _ _ _ Hpages (S fuel) 1%nat ∅)
    as (pre & -> & Hn).
  destruct (rules_loop_page fuel (length pages + 1) token2
              (⋃ (names_of <$> pages) ∪ ∅) w2 o w3 rules token3 Hreq Hpage)
    as (logs & Hlogs & ->).
  rewrite Hlast, (right_id_L ∅ (∪)).
  eexists. split.
  - unfold preceded_by. simpl. do 3 f_equal.
    rewrite fmap_app, union_list_app_L. simpl.
    by rewrite (right_id_L ∅ (∪)), (comm_L (∪)).
  - simpl. rewrite requests_of_app, length_app, Hn. simpl.
    rewrite app_nil_r, (requests_of_logs logs Hlogs). simpl. lia.
Qed.

(** C4. [get_existing_rule_names] returns [None] exactly when its first
    request yields nothing; when pages have been read and the request for
    the next one yields nothing, it stops there and returns the names of
    the pages read. *)
Theorem none_only_for_first_page fuel w :
  (result (get_existing_rule_names http REGION (S fuel) w) = Val None <->
   api_value 200 false (http w (rules_request REGION JNull)).1 = PNone)
  /\ (forall pages w2 token2 o w3,
        pages <> [] ->
        rule_pages http REGION w JNull pages w2 token2 ->
        http w2 (rules_request REGION token2) = (o, w3) ->
        api_value 200 false o = PNone ->
        exists t,
          get_existing_rule_names http REGION (length pages + S fuel) w
          = (Val (Some (⋃ (names_of <$> pages))), w3, t)
          /\ length (requests_of t) = S (length pages)).
Proof.
  split.
  - split.
    + intros H. by apply rules_loop_none in H as [_ ?].
    + intros H. unfold get_existing_rule_names.
      destruct (http w (rules_request REGION JNull)) as [o w1] eqn:Hreq.
      by destruct (rules_loop_failed fuel 1 JNull ∅ w o w1 Hreq H)
        as (logs & _ & ->).
  - intros pages w2 token2 o w3. apply rules_listing_truncated.
Qed.

End Rules.

Lemma none_only_for_first_page_witness :
  (result (Sample.list_rules Sample.all_well 4) = Val None <->
   api_value 200 false
     (Sample.http Sample.all_well tt (rules_request Sample.REGION JNull)).1
   = PNone)
  /\ exists t,
       Sample.list_rules Sample.rules_page2_down 4
       = (Val (Some (⋃ (names_of <$> [[Sample.rule_named "ruleA"]]))), tt, t)
       /\ length (requests_of t) = 2%nat.
Proof.
  split.
  - exact (proj1 (none_only_for_first_page (Sample.http Sample.all_well)
                    Sample.REGION 3 tt)).
  - refine (proj2 (none_only_for_first_page (Sample.http Sample.rules_page2_down)
                     Sample.REGION 2 tt)
              [[Sample.rule_named "ruleA"]] tt (JStr "p2") Sample.server_error tt
              _ _ _ _).
    + discriminate.
    + eapply rule_pages_cons;
        [reflexivity
        |eexists; split; [reflexivity|]; split; [reflexivity|]; split; reflexivity
        |reflexivity
        |apply rule_pages_nil].
    + reflexivity.
    + reflexivity.
Defined.

(** ** Paths *)

Lemma str_app_cons x (a b : string) : String x a +:+ b = String x (a +:+ b).
Proof. reflexivity. Qed.

Lemma str_app_assoc (a b c : string) : (a +:+ b) +:+ c = a +:+ b +:+ c.
Proof.
  induction a as [|x a IH]; [done|]. by rewrite !str_app_cons, IH.
Qed.

Lemma str_length_app (a b : string) :
  String.length (a +:+ b) = (String.length a + String.length b)%nat.
Proof.
  induction a as [|x a IH]; [done|]. rewrite str_app_cons. simpl. by rewrite IH.
Qed.

Lemma str_has_slash_app (a b : string) :
  str_has_slash (a +:+ b) = str_has_slash a || str_has_slash b.
Proof.
  induction a as [|x a IH]; [done|]. rewrite str_app_cons. simpl.
  by rewrite IH, orb_assoc.
Qed.

Lemma str_take_app (a b : string) : str_take (String.length a) (a +:+ b) = a.
Proof.
  induction a as [|x a IH]; [done|]. rewrite str_app_cons. simpl. by rewrite IH.
Qed.

Lemma endswith_app s suffix :
  endswith s suffix = true -> exists pre, s = pre +:+ suffix.
Proof.
  induction s as [|x s IH].
  - destruct suffix; [by exists EmptyString|done].
  - change (endswith (String x s) suffix)
      with (String.eqb (String x s) suffix || endswith s suffix).
    intros [->%String.eqb_eq|H]%orb_prop; [by exists EmptyString|].
    destruct (IH H) as [pre ->]. by exists (String x pre).
Qed.

Lemma split_slash_nonempty s : split_slash s <> [].
Proof.
  destruct s as [|x s]; simpl; [done|].
  destruct (Ascii.eqb x slash); [done|]. by destruct (split_slash s).
Qed.

Lemma split_slash_no_slash b : str_has_slash b = false -> split_slash b = [b].
Proof.
  induction b as [|x b IH]; simpl; [done|].
  intros [Hx Hb]%orb_false_elim. rewrite Hx, (IH Hb). done.
Qed.

Lemma split_slash_app d b :
  split_slash (d +:+ String slash b) = split_slash d ++ split_slash b.
Proof.
  induction d as [|x d IH]; [done|]. rewrite str_app_cons. simpl.
  rewrite IH. destruct (Ascii.eqb x slash); [done|].
  pose proof (split_slash_nonempty d). by destruct (split_slash d).
Qed.

(** The name of a path is its last part, when that is a proper name. *)
Lemma path_name_base b :
  str_has_slash b = false -> b <> EmptyString -> b <> "." -> path_name b = b.
Proof.
  intros Hb He Hd. unfold path_name. rewrite (split_slash_no_slash b Hb).
  simpl. apply String.eqb_neq in He, Hd. by rewrite He, Hd.
Qed.

Lemma path_name_dir_base d b :
  str_has_slash b = false -> b <> EmptyString -> b <> "." ->
  path_name (d +:+ String slash b) = b.
Proof.
  intros Hb He Hd. unfold path_name.
  rewrite split_slash_app, (split_slash_no_slash b Hb), List.filter_app.
  simpl. apply String.eqb_neq in He, Hd. rewrite He, Hd. simpl.
  apply List.last_last.
Qed.

Lemma rfind_dot_app a b j :
  rfind_dot b = Some j -> rfind_dot (a +:+ b) = Some (String.length a + j)%nat.
Proof.
  intros Hb. induction a as [|x a IH]; [done|].
  rewrite str_app_cons. simpl. by rewrite IH.
Qed.

(** The stem of [stem.yaral] is [stem]. *)
Lemma path_stem_yaral stem : stem <> EmptyString -> path_stem (stem +:+ ".yaral") = stem.
Proof.
  intros Hne. unfold path_stem.
  rewrite (rfind_dot_app stem ".yaral" 0) by done.
  rewrite str_length_app, Nat.add_0_r, str_take_app. simpl.
  rewrite bool_decide_eq_true_2; [done|].
  destruct stem; [done|]. simpl. lia.
Qed.

Lemma yaral_name_is_proper stem :
  str_has_slash stem = false ->
  str_has_slash (stem +:+ ".yaral") = false
  /\ stem +:+ ".yaral" <> EmptyString /\ stem +:+ ".yaral" <> ".".
Proof.
  intros Hs. rewrite str_has_slash_app, Hs. split; [done|].
  split; intros H%(f_equal String.length); rewrite str_length_app in H;
    simpl in H; lia.
Qed.

(** A file called [.yaral] has no extension for [pathlib] and keeps its
    name. *)
Lemma rule_name_of_dotfile dir :
  dir = EmptyString \/ endswith dir "/" = true ->
  path_stem (path_name (path_name (dir +:+ ".yaral"))) = ".yaral".
Proof.
  intros Hdir.
  assert (path_name (dir +:+ ".yaral") = ".yaral") as ->; [|done].
  destruct Hdir as [->|[d ->]%endswith_app]; [done|].
  rewrite str_app_assoc. by apply path_name_dir_base.
Qed.

(** For the path [dir/stem.yaral], and for [stem.yaral], the name the
    script gives the rule is [stem]. *)
Lemma rule_name_of_path dir stem :
  dir = EmptyString \/ endswith dir "/" = true ->
  str_has_slash stem = false ->
  stem <> EmptyString ->
  path_stem (path_name (path_name (dir +:+ stem +:+ ".yaral"))) = stem.
Proof.
  intros Hdir Hs Hne.
  destruct (yaral_name_is_proper stem Hs) as (Hb & He & Hd).
  assert (path_name (dir +:+ stem +:+ ".yaral") = stem +:+ ".yaral") as ->.
  { destruct Hdir as [->|[d ->]%endswith_app].
    - by apply path_name_base.
    - rewrite str_app_assoc. by apply path_name_dir_base. }
  rewrite path_name_base by done. by apply path_stem_yaral.
Qed.

(** ** The listing of rule files *)

Lemma page_requests_app t1 t2 :
  page_requests (t1 ++ t2) = page_requests t1 ++ page_requests t2.
Proof. apply List.filter_app. Qed.

Lemma page_requests_logs t : forallb is_log t = true -> page_requests t = [].
Proof.
  induction t as [|e t IH]; [done|]. simpl.
  intros [He Ht]%andb_prop. destruct e; try done. simpl. auto.
Qed.

(** Line 92, for an entry that is an object. *)
Lemma select_item_spec kvs p :
  select_item (JObj kvs) = Val (Some p) <->
  assoc "type" kvs = Some (JStr "commit_file")
  /\ assoc "path" kvs = Some (JStr p) /\ endswith p ".yaral" = true.
Proof.
  unfold select_item. simpl. split.
  - destruct (assoc "type" kvs) as [[| | |t| |]|]; simpl; try done.
    destruct (String.eqb t "commit_file") eqn:Ht; [|done].
    apply String.eqb_eq in Ht as ->.
    destruct (assoc "path" kvs) as [[| | |q| |]|]; simpl; try done.
    destruct (endswith q ".yaral") eqn:Hq; [|done].
    intros [= ->]. done.
  - intros (-> & -> & Hp). simpl. by rewrite Hp.
Qed.

Lemma classify_usable v b :
  classify v = Usable b <->
  v = PBytes b /\ b <> EmptyString
  /\ exists rule_text,
       utf8_decode b = Some rule_text /\ strip_truthy rule_text = true.
Proof.
  unfold classify. split.
  - destruct (py_truthy v) eqn:Hv; [|done].
    destruct v as [j|b'|r]; try done.
    destruct (utf8_decode b') as [rule_text|] eqn:Hd; [|done].
    destruct (strip_truthy rule_text) eqn:Hs; [|done].
    intros [= ->]. split; [done|]. split; [by destruct b|]. by eexists.
  - intros (-> & Hne & rule_text & -> & ->). by destruct b.
Qed.

(** A file whose content is fetched with status 200 and is empty lands in
    the handler of [except Exception]: [_make_api_request] hands back the
    response itself, which is true and has no [decode]. *)
Lemma classify_empty_body r :
  status_code r = 200 -> content r = EmptyString ->
  classify (api_value 200 true (Responded r)) = NotBytes.
Proof.
  intros Hs Hc. unfold classify, api_value, body_value. rewrite Hs, Hc. simpl.
  unfold response_ok, raises_for_status. by rewrite Hs.
Qed.

(** A file whose content is not empty and decodes to blanks is recognised
    as empty. *)
Lemma classify_blank_body r rule_text :
  status_code r = 200 -> content r <> EmptyString ->
  utf8_decode (content r) = Some rule_text -> strip_truthy rule_text = false ->
  classify (api_value 200 true (Responded r)) = Blank.
Proof.
  intros Hs Hc Hd Hb. unfold classify, api_value, body_value. rewrite Hs.
  assert (str_truthy (content r) = true) as Ht by (by destruct (content r)).
  rewrite Ht. simpl. by rewrite Ht, Hd, Hb.
Qed.

Lemma classify_undecodable_body r :
  status_code r = 200 -> utf8_decode (content r) = None ->
  classify (api_value 200 true (Responded r)) = Undecodable.
Proof.
  intros Hs Hd. unfold classify, api_value, body_value. rewrite Hs.
  assert (str_truthy (content r) = true) as Ht
    by (by destruct (content r)).
  rewrite Ht. simpl. by rewrite Ht, Hd.
Qed.

Section Files.
Context {World : Type}.
Variable http : World -> Request -> http_outcome * World.
Variables BITBUCKET_WORKSPACE BITBUCKET_REPO_SLUG : string.
Variables BITBUCKET_BRANCH_OR_COMMIT RULES_DIR : string.

Local Abbreviation fetch_one :=
  (fetch_rule_file http BITBUCKET_WORKSPACE BITBUCKET_REPO_SLUG
     BITBUCKET_BRANCH_OR_COMMIT) (only parsing).
Local Abbreviation fetch_all :=
  (fetch_items http BITBUCKET_WORKSPACE BITBUCKET_REPO_SLUG
     BITBUCKET_BRANCH_OR_COMMIT) (only parsing).
Local Abbreviation list_loop :=
  (files_loop http BITBUCKET_WORKSPACE BITBUCKET_REPO_SLUG
     BITBUCKET_BRANCH_OR_COMMIT) (only parsing).
Local Abbreviation content_req :=
  (content_request BITBUCKET_WORKSPACE BITBUCKET_REPO_SLUG
     BITBUCKET_BRANCH_OR_COMMIT) (only parsing).

(** Lines 93-117 never raise: the file is added or passed over with its
    log record, after the one request for its content. *)
Lemma fetch_rule_file_spec file_path w :
  let o := http w (content_req file_path) in
  let c := classify (api_value 200 true o.1) in
  exists logs,
    forallb is_log logs = true
    /\ forall acc,
         fetch_one file_path acc w
         = (Val (acc ++ found_in file_path c), o.2,
            EvHttp (content_req file_path) :: logs ++ skip_record c file_path).
Proof.
  intros o c.
  destruct (make_api_request_spec http GET
    (JStr (file_content_url BITBUCKET_WORKSPACE BITBUCKET_REPO_SLUG
             BITBUCKET_BRANCH_OR_COMMIT file_path))
    BITBUCKET_HEADERS [] None 200 true w) as (logs & Hcall & Hlogs).
  fold (content_req file_path) in Hcall. fold o in Hcall.
  exists logs. split; [done|]. intros acc.
  unfold fetch_rule_file.
  rewrite (bind_then _ _ _ _ _ _ Hcall).
  subst c. unfold classify.
  destruct (py_truthy _).
  - destruct (api_value 200 true o.1) as [v|b|r].
    + unfold log. rewrite emit_bind. simpl. by rewrite app_nil_r.
    + destruct (utf8_decode b) as [rule_text|].
      * destruct (strip_truthy rule_text).
        -- done.
        -- unfold log. rewrite emit_bind. simpl. by rewrite app_nil_r.
      * unfold log. rewrite emit_bind. simpl. by rewrite app_nil_r.
    + unfold log. rewrite emit_bind. simpl. by rewrite app_nil_r.
  - unfold log. rewrite emit_bind. simpl. by rewrite app_nil_r.
Qed.

(** The loop over the entries adds to the list it is given. *)
Lemma fetch_items_acc items : forall acc w,
  fetch_all items acc w
  = (match result (fetch_all items [] w) with
     | Val found => Val (acc ++ found)
     | Exc e => Exc e
     | OutOfFuel => OutOfFuel
     end,
     final_world (fetch_all items [] w), events (fetch_all items [] w)).
Proof.
  induction items as [|item rest IH]; intros acc w; simpl.
  { unfold ret. simpl. by rewrite app_nil_r. }
  destruct (select_item item) as [[file_path|]|e|].
  - rewrite !bind_lift_val.
    destruct (fetch_rule_file_spec file_path w) as (logs & _ & Hfile).
    rewrite (bind_then _ _ _ _ _ _ (Hfile acc)).
    rewrite (bind_then _ _ _ _ _ _ (Hfile [])).
    rewrite (IH (acc ++ _)), (IH ([] ++ _)).
    unfold preceded_by, result, final_world, events. simpl.
    destruct (fetch_items _ _ _ _ _ _ _) as [[[found|e|] w2] t2];
      simpl; try done.
    by rewrite app_assoc.
  - rewrite !bind_lift_val. apply IH.
  - done.
  - done.
Qed.

(** It asks for contents only, never for a page. *)
Lemma fetch_items_page_requests items : forall acc w,
  page_requests (events (fetch_all items acc w)) = [].
Proof.
  induction items as [|item rest IH]; intros acc w; simpl; [done|].
  destruct (select_item item) as [[file_path|]|e|].
  - rewrite bind_lift_val.
    destruct (fetch_rule_file_spec file_path w) as (logs & Hlogs & Hfile).
    rewrite (bind_then _ _ _ _ _ _ (Hfile acc)).
    rewrite events_preceded_by. simpl.
    rewrite !page_requests_app, IH, (page_requests_logs logs Hlogs).
    by destruct (classify _).
  - rewrite bind_lift_val. apply IH.
  - done.
  - done.
Qed.

(** C6 (amended). An entry of a listing page is taken up exactly when its
    type is ["commit_file"] and its path is a string that ends with
    [".yaral"].  An entry taken up adds one rule file exactly when the
    content fetched for it is non-empty bytes that decode as UTF-8 to text
    that is not blank, and nothing otherwise.  The rule file has the
    content as text, and as name the stem of the name of the path: for a
    path [dir/stem.yaral] or [stem.yaral] that is [stem]. *)
Theorem rule_file_candidates :
  (forall kvs p,
     select_item (JObj kvs) = Val (Some p) <->
     assoc "type" kvs = Some (JStr "commit_file")
     /\ assoc "path" kvs = Some (JStr p) /\ endswith p ".yaral" = true)
  /\ (forall p acc w,
        let v := api_value 200 true (http w (content_req p)).1 in
        (forall b,
           v = PBytes b -> b <> EmptyString ->
           (exists rule_text,
              utf8_decode b = Some rule_text /\ strip_truthy rule_text = true) ->
           result (fetch_one p acc w)
           = Val (acc ++ [mkRule (path_stem (path_name (path_name p))) b p]))
        /\ (~ (exists b rule_text,
                 v = PBytes b /\ b <> EmptyString
                 /\ utf8_decode b = Some rule_text
                 /\ strip_truthy rule_text = true) ->
            result (fetch_one p acc w) = Val acc))
  /\ (forall dir stem,
        dir = EmptyString \/ endswith dir "/" = true ->
        str_has_slash stem = false ->
        stem <> EmptyString ->
        path_stem (path_name (path_name (dir +:+ stem +:+ ".yaral"))) = stem).
Proof.
  split; [exact select_item_spec|]. split; [|exact rule_name_of_path].
  intros p acc w v.
  destruct (fetch_rule_file_spec p w) as (logs & _ & Hfile).
  rewrite (Hfile acc). fold v. unfold result. simpl. split.
  - intros b Hv Hne Hdec.
    assert (classify v = Usable b) as -> by (by apply classify_usable).
    done.
  - intros Hno. destruct (classify v) as [b| | | |] eqn:Hc; simpl;
      try (by rewrite app_nil_r).
    apply classify_usable in Hc as (Hv & Hne & rule_text & Hd & Hs).
    destruct Hno. by exists b, rule_text.
Qed.

(** A file taken up whose content is not usable is passed over with the log
    record of its case, and the loop goes on. *)
Lemma unusable_file_is_passed_over file_path acc w :
  let c := classify (api_value 200 true (http w (content_req file_path)).1) in
  (forall b, c <> Usable b) ->
  result (fetch_one file_path acc w) = Val acc
  /\ List.filter is_log (events (fetch_one file_path acc w))
     = List.filter is_log
         (events (_make_api_request http GET
                    (JStr (file_content_url BITBUCKET_WORKSPACE
                             BITBUCKET_REPO_SLUG BITBUCKET_BRANCH_OR_COMMIT
                             file_path))
                    BITBUCKET_HEADERS [] None 200 true w))
       ++ skip_record c file_path.
Proof.
  intros c Hno.
  destruct (make_api_request_spec http GET
    (JStr (file_content_url BITBUCKET_WORKSPACE BITBUCKET_REPO_SLUG
             BITBUCKET_BRANCH_OR_COMMIT file_path))
    BITBUCKET_HEADERS [] None 200 true w) as (logs & Hcall & Hlogs).
  unfold fetch_rule_file.
  rewrite (bind_then _ _ _ _ _ _ Hcall), Hcall.
  fold (content_req file_path). unfold events at 2. simpl.
  subst c. unfold classify in *.
  assert (forall lvl msg,
    result ((log lvl msg;; ret acc) (http w (content_req file_path)).2)
    = Val acc
    /\ List.filter is_log
         (logs ++ events ((log lvl msg;; ret acc)
                            (http w (content_req file_path)).2))
       = List.filter is_log logs ++ [EvLog lvl msg]) as Hskip.
  { intros lvl msg. unfold log. rewrite emit_bind. simpl.
    by rewrite List.filter_app. }
  destruct (py_truthy _); [|apply Hskip].
  destruct (api_value 200 true _) as [v|b|r]; [apply Hskip| |apply Hskip].
  destruct (utf8_decode b) as [rule_text|]; [|apply Hskip].
  destruct (strip_truthy rule_text); [by destruct (Hno b)|apply Hskip].
Qed.

(** One turn of the loop on a page that loaded. *)
Lemma files_loop_page fuel list_url acc w o w1 items next found w1' t :
  json_truthy list_url = true ->
  http w (files_request list_url) = (o, w1) ->
  files_page (api_value 200 false o) items next ->
  fetch_all items [] w1 = (Val found, w1', t) ->
  exists pre,
    list_loop (S fuel) list_url acc w
    = preceded_by pre (list_loop fuel next (acc ++ found) w1')
    /\ length (page_requests pre) = 1%nat.
Proof.
  intros Htruthy Hreq (kvs & Hv & Hvalues & Hnext) Hitems. simpl.
  rewrite Htruthy. simpl.
  destruct (make_api_request_spec http GET list_url BITBUCKET_HEADERS []
              None 200 false w) as (logs & Hcall & Hlogs).
  fold (files_request list_url) in Hcall. rewrite Hreq in Hcall.
  simpl in Hcall. rewrite Hv in Hcall.
  rewrite (bind_then _ _ _ _ _ _ Hcall). simpl.
  rewrite Hvalues. simpl.
  rewrite bind_assoc, bind_lift_val, bind_ret. simpl.
  rewrite bind_lift_val.
  change (json_iter (JArr items)) with (Val items). rewrite bind_lift_val.
  assert (fetch_all items acc w1 = (Val (acc ++ found), w1', t)) as Hacc.
  { rewrite fetch_items_acc, Hitems. done. }
  rewrite (bind_then _ _ _ _ _ _ Hacc), Hnext, bind_lift_val.
  rewrite preceded_by_twice. eexists. split; [reflexivity|].
  simpl. rewrite !page_requests_app, (page_requests_logs logs Hlogs).
  pose proof (fetch_items_page_requests items [] w1) as Hp.
  rewrite Hitems in Hp. unfold events in Hp. simpl in Hp. by rewrite Hp.
Qed.

(** One turn of the loop on a page that is unusable. *)
Lemma files_loop_unusable fuel list_url acc w o w1 :
  json_truthy list_url = true ->
  http w (files_request list_url) = (o, w1) ->
  page_unusable (api_value 200 false o) ->
  exists t,
    list_loop (S fuel) list_url acc w = (Val None, w1, t)
    /\ length (page_requests t) = 1%nat.
Proof.
  intros Htruthy Hreq Hbad. simpl. rewrite Htruthy. simpl.
  destruct (make_api_request_spec http GET list_url BITBUCKET_HEADERS []
              None 200 false w) as (logs & Hcall & Hlogs).
  fold (files_request list_url) in Hcall. rewrite Hreq in Hcall.
  simpl in Hcall.
  rewrite (bind_then _ _ _ _ _ _ Hcall).
  assert (forall (k : bool -> M World (option (list rule_data))),
    bind (if py_is_none (api_value 200 false o) then ret true
          else present <- lift (py_contains "values" (api_value 200 false o));;
               ret (negb present)) k w1 = k true w1) as ->.
  { intros k. destruct Hbad as [->| ->]; [by rewrite bind_ret|].
    destruct (py_is_none _); [by rewrite bind_ret|].
    by rewrite bind_assoc, bind_lift_val, bind_ret. }
  unfold log. rewrite emit_bind. eexists. split; [reflexivity|].
  simpl. rewrite !page_requests_app, (page_requests_logs logs Hlogs). done.
Qed.

(** The turns of the loop over pages that load. *)
Lemma files_loop_pages w list_url pages w2 list_url2 :
  file_pages http BITBUCKET_WORKSPACE BITBUCKET_REPO_SLUG
    BITBUCKET_BRANCH_OR_COMMIT w list_url pages w2 list_url2 ->
  forall fuel acc,
  exists pre,
    list_loop (length pages + fuel) list_url acc w
    = preceded_by pre (list_loop fuel list_url2 (acc ++ concat pages) w2)
    /\ length (page_requests pre) = length pages.
Proof.
  induction 1 as [w list_url
                 |w list_url o w1 items next found w1' t pages w2 list_url2
                    Htruthy Hreq Hpage Hitems _ IH];
    intros fuel acc.
  - exists []. simpl. by rewrite preceded_by_nil, app_nil_r.
  - destruct (files_loop_page (length pages + fuel) list_url acc w o w1 items
                next found w1' t Htruthy Hreq Hpage Hitems)
      as (pre1 & Hstep & Hn1).
    destruct (IH fuel (acc ++ found)) as (pre2 & Hrest & Hn2).
    exists (pre1 ++ pre2). split.
    + change (length (found :: pages) + fuel)%nat
        with (S (length pages + fuel)).
      rewrite Hstep, Hrest, preceded_by_twice. simpl.
      by rewrite app_assoc.
    + rewrite page_requests_app, length_app. simpl. lia.
Qed.

Lemma files_listing_fatal fuel w pages w2 list_url2 o w3 :
  file_pages http BITBUCKET_WORKSPACE BITBUCKET_REPO_SLUG
    BITBUCKET_BRANCH_OR_COMMIT w (JStr (initial_list_url BITBUCKET_WORKSPACE
      BITBUCKET_REPO_SLUG BITBUCKET_BRANCH_OR_COMMIT RULES_DIR))
    pages w2 list_url2 ->
  json_truthy list_url2 = true ->
  http w2 (files_request list_url2) = (o, w3) ->
  page_unusable (api_value 200 false o) ->
  exists t,
    get_files_from_bitbucket http BITBUCKET_WORKSPACE BITBUCKET_REPO_SLUG
      BITBUCKET_BRANCH_OR_COMMIT RULES_DIR (length pages + S fuel) w
    = (Val None, w3, t)
    /\ length (page_requests t) = S (length pages).
Proof.
  intros Hpages Htruthy Hreq Hbad. unfold get_files_from_bitbucket.
  destruct (files_loop_pages _ _ _ _ _ Hpages (S fuel) []) as (pre & -> & Hn).
  destruct (files_loop_unusable fuel list_url2 ([] ++ concat pages) w2 o w3
              Htruthy Hreq Hbad) as (t & -> & Hn').
  eexists. split; [reflexivity|]. simpl.
  rewrite page_requests_app, length_app. lia.
Qed.

Lemma files_listing_complete fuel w pages w2 list_url2 :
  file_pages http BITBUCKET_WORKSPACE BITBUCKET_REPO_SLUG
    BITBUCKET_BRANCH_OR_COMMIT w (JStr (initial_list_url BITBUCKET_WORKSPACE
      BITBUCKET_REPO_SLUG BITBUCKET_BRANCH_OR_COMMIT RULES_DIR))
    pages w2 list_url2 ->
  json_truthy list_url2 = false ->
  exists t,
    get_files_from_bitbucket http BITBUCKET_WORKSPACE BITBUCKET_REPO_SLUG
      BITBUCKET_BRANCH_OR_COMMIT RULES_DIR (length pages + fuel) w
    = (Val (Some (concat pages)), w2, t)
    /\ length (page_requests t) = length pages.
Proof.
  intros Hpages Hlast. unfold get_files_from_bitbucket.
  destruct (files_loop_pages _ _ _ _ _ Hpages fuel []) as (pre & -> & Hn).
  assert (list_loop fuel list_url2 ([] ++ concat pages) w2
          = (Val (Some (concat pages)), w2, [])) as ->.
  { destruct fuel; simpl; by rewrite Hlast. }
  eexists. split; [reflexivity|]. simpl. by rewrite app_nil_r.
Qed.

End Files.

(** ** The two listings in a run *)

Section Run.
Context {World : Type}.
Variable http : World -> Request -> http_outcome * World.
Variables REGION BITBUCKET_WORKSPACE BITBUCKET_REPO_SLUG : string.
Variables BITBUCKET_BRANCH_OR_COMMIT RULES_DIR : string.

Local Abbreviation get_files :=
  (get_files_from_bitbucket http BITBUCKET_WORKSPACE BITBUCKET_REPO_SLUG
     BITBUCKET_BRANCH_OR_COMMIT RULES_DIR) (only parsing).
Local Abbreviation run :=
  (main http REGION BITBUCKET_WORKSPACE BITBUCKET_REPO_SLUG
     BITBUCKET_BRANCH_OR_COMMIT RULES_DIR) (only parsing).
Local Abbreviation first_list_url :=
  (JStr (initial_list_url BITBUCKET_WORKSPACE BITBUCKET_REPO_SLUG
           BITBUCKET_BRANCH_OR_COMMIT RULES_DIR)) (only parsing).

(** C5 (amended). When any page of the directory listing, the first or a
    later one, cannot be loaded or has no [values], the listing returns
    [None], whatever the pages before it have yielded; a run whose directory
    listing returns [None] logs that and exits with 1 without doing
    anything else.  A file whose content cannot be fetched is no such
    failure: it is passed over with an error record, and the loop over the
    entries goes on with the list as it was. *)
Theorem any_unusable_page_is_fatal fuel w pages w2 list_url2 o w3 :
  file_pages http BITBUCKET_WORKSPACE BITBUCKET_REPO_SLUG
    BITBUCKET_BRANCH_OR_COMMIT w first_list_url pages w2 list_url2 ->
  json_truthy list_url2 = true ->
  http w2 (files_request list_url2) = (o, w3) ->
  page_unusable (api_value 200 false o) ->
  result (get_files (length pages + S fuel) w) = Val None
  /\ (forall w0 existing t1,
       get_existing_rule_names http REGION (length pages + S fuel) w0
       = (Val (Some existing), w, t1) ->
       result (run (length pages + S fuel) w0) = Exc (SystemExit 1)
       /\ events (run (length pages + S fuel) w0)
          = t1 ++ events (get_files (length pages + S fuel) w)
            ++ [EvLog ERROR MsgAbortBitbucket])
  /\ (forall file_path acc w',
        py_truthy
          (api_value 200 true
             (http w' (content_request BITBUCKET_WORKSPACE BITBUCKET_REPO_SLUG
                         BITBUCKET_BRANCH_OR_COMMIT file_path)).1) = false ->
        result (fetch_rule_file http BITBUCKET_WORKSPACE BITBUCKET_REPO_SLUG
                  BITBUCKET_BRANCH_OR_COMMIT file_path acc w') = Val acc
        /\ In (EvLog ERROR (MsgFetchContentFailed file_path))
             (events (fetch_rule_file http BITBUCKET_WORKSPACE
                        BITBUCKET_REPO_SLUG BITBUCKET_BRANCH_OR_COMMIT
                        file_path acc w'))).
Proof.
  intros Hpages Htruthy Hreq Hbad.
  destruct (files_listing_fatal http _ _ _ RULES_DIR fuel w pages w2 list_url2
              o w3 Hpages Htruthy Hreq Hbad) as (t & Hfiles & _).
  rewrite Hfiles. split; [done|]. split.
  - intros w0 existing t1 Hrules. unfold main.
    rewrite (bind_then _ _ _ _ _ _ Hrules).
    rewrite (bind_then _ _ _ _ _ _ Hfiles).
    unfold log. rewrite emit_bind. done.
  - intros file_path acc w' Hfail.
    destruct (fetch_rule_file_spec http BITBUCKET_WORKSPACE BITBUCKET_REPO_SLUG
                BITBUCKET_BRANCH_OR_COMMIT file_path w')
      as (logs & _ & Hfile).
    cbv zeta in Hfile. rewrite (Hfile acc). unfold classify.
    rewrite Hfail. unfold result, events. simpl. rewrite app_nil_r.
    split; [done|]. right. apply in_or_app. right. by left.
Qed.

(** C7. A listing whose pages all load goes on while a page names a next
    page and stops at the first page that does not: it then has asked for
    each page once and returns what all pages yield, the union of their
    names for the rules and their rule files in order for the directory.
    With three pages of rules, the result is the union of the names on the
    three pages. *)
Theorem listing_reads_every_page :
  (forall fuel w pages w2 token2 o w3 rules token3,
     rule_pages http REGION w JNull pages w2 token2 ->
     http w2 (rules_request REGION token2) = (o, w3) ->
     rules_page (api_value 200 false o) rules token3 ->
     json_truthy token3 = false ->
     exists t,
       get_existing_rule_names http REGION (length pages + S fuel) w
       = (Val (Some (⋃ (names_of <$> pages ++ [rules]))), w3, t)
       /\ length (requests_of t) = S (length pages))
  /\ (forall fuel w pages w2 list_url2,
        file_pages http BITBUCKET_WORKSPACE BITBUCKET_REPO_SLUG
          BITBUCKET_BRANCH_OR_COMMIT w first_list_url pages w2 list_url2 ->
        json_truthy list_url2 = false ->
        exists t,
          get_files (length pages + fuel) w
          = (Val (Some (concat pages)), w2, t)
          /\ length (page_requests t) = length pages)
  /\ (forall fuel w o1 w1 rules1 token1 o2 w2 rules2 token2 o3 w3 rules3 token3,
        http w (rules_request REGION JNull) = (o1, w1) ->
        rules_page (api_value 200 false o1) rules1 token1 ->
        json_truthy token1 = true ->
        http w1 (rules_request REGION token1) = (o2, w2) ->
        rules_page (api_value 200 false o2) rules2 token2 ->
        json_truthy token2 = true ->
        http w2 (rules_request REGION token2) = (o3, w3) ->
        rules_page (api_value 200 false o3) rules3 token3 ->
        json_truthy token3 = false ->
        exists t,
          get_existing_rule_names http REGION (3 + fuel) w
          = (Val (Some (names_of rules1 ∪ names_of rules2 ∪ names_of rules3)),
             w3, t)
          /\ length (requests_of t) = 3%nat).
Proof.
  split; [|split].
  - intros fuel w pages w2 token2 o w3 rules token3.
    apply rules_listing_complete.
  - intros fuel w pages w2 list_url2. apply files_listing_complete.
  - intros fuel w o1 w1 rules1 token1 o2 w2 rules2 token2 o3 w3 rules3 token3
      H1 P1 T1 H2 P2 T2 H3 P3 T3.
    assert (rule_pages http REGION w JNull [rules1; rules2] w2 token2) as Hpages.
    { eapply rule_pages_cons; [exact H1|exact P1|exact T1|].
      eapply rule_pages_cons; [exact H2|exact P2|exact T2|].
      apply rule_pages_nil. }
    destruct (rules_listing_complete http REGION fuel w _ _ _ _ _ _ _
                Hpages H3 P3 T3) as (t & Ht & Hn).
    exists t. split; [|exact Hn].
    change (3 + fuel)%nat with (length [rules1; rules2] + S fuel)%nat.
    rewrite Ht. do 3 f_equal. simpl.
    by rewrite (right_id_L ∅ (∪)), !(assoc_L (∪)).
Qed.

End Run.

(** In the sample deployment with the second directory page down, the first
    page has loaded and yielded a rule file, and the listing returns [None]
    and the run exits with 1 after logging the failure. *)
Lemma later_page_failure_discards_earlier_pages :
  file_pages (Sample.http Sample.files_page2_down) Sample.WORKSPACE
    Sample.REPO_SLUG Sample.BRANCH tt
    (JStr (initial_list_url Sample.WORKSPACE Sample.REPO_SLUG Sample.BRANCH
             Sample.RULES_DIR))
    [[Sample.rule_A]] tt (JStr Sample.files_url2)
  /\ Sample.http Sample.files_page2_down tt
       (files_request (JStr Sample.files_url2))
     = (Sample.server_error, tt)
  /\ result (Sample.list_files Sample.files_page2_down 5) = Val None
  /\ result (Sample.list_files Sample.files_page2_down 5)
     <> Val (Some [Sample.rule_A])
  /\ result (Sample.run_main Sample.files_page2_down 5) = Exc (SystemExit 1)
  /\ last (events (Sample.run_main Sample.files_page2_down 5))
     = Some (EvLog ERROR MsgAbortBitbucket).
Proof.
  split.
  { eapply file_pages_cons;
      [reflexivity
      |reflexivity
      |eexists; split; [reflexivity|]; split; reflexivity
      |vm_compute; reflexivity
      |apply file_pages_nil]. }
  split; [reflexivity|].
  assert (result (Sample.list_files Sample.files_page2_down 5) = Val None) as H
    by (vm_compute; reflexivity).
  split; [exact H|]. split; [by rewrite H|].
  split; vm_compute; reflexivity.
Qed.

Lemma any_unusable_page_is_fatal_witness :
  result (Sample.list_files Sample.files_page2_down 5) = Val None
  /\ result (Sample.run_main Sample.files_page2_down 5) = Exc (SystemExit 1)
  /\ result (fetch_rule_file (Sample.http Sample.files_page2_down)
               Sample.WORKSPACE Sample.REPO_SLUG Sample.BRANCH
               "rules/gone.yaral" [Sample.rule_A] tt)
     = Val [Sample.rule_A].
Proof.
  assert (file_pages (Sample.http Sample.files_page2_down) Sample.WORKSPACE
    Sample.REPO_SLUG Sample.BRANCH tt
    (JStr (initial_list_url Sample.WORKSPACE Sample.REPO_SLUG Sample.BRANCH
             Sample.RULES_DIR))
    [[Sample.rule_A]] tt (JStr Sample.files_url2)) as Hpages.
  { eapply file_pages_cons;
      [reflexivity
      |reflexivity
      |eexists; split; [reflexivity|]; split; reflexivity
      |vm_compute; reflexivity
      |apply file_pages_nil]. }
  destruct (any_unusable_page_is_fatal (Sample.http Sample.files_page2_down)
              Sample.REGION Sample.WORKSPACE Sample.REPO_SLUG Sample.BRANCH
              Sample.RULES_DIR 3 tt [[Sample.rule_A]] tt
              (JStr Sample.files_url2) Sample.server_error tt
              Hpages eq_refl eq_refl (or_introl eq_refl))
    as (Hlist & Hrun & Hfile).
  split; [exact Hlist|]. split.
  - edestruct (Hrun tt) as [Hexit _]; [vm_compute; reflexivity|exact Hexit].
  - exact (proj1 (Hfile "rules/gone.yaral" [Sample.rule_A] tt eq_refl)).
Defined.

Lemma listing_reads_every_page_witness :
  (exists t,
     Sample.list_rules Sample.all_well 5
     = (Val (Some (names_of [Sample.rule_named "ruleA"]
                   ∪ names_of [Sample.rule_named "ruleX";
                               JObj [("ruleId", JStr "ru_7")]]
                   ∪ names_of [Sample.rule_named "ruleY"])), tt, t)
     /\ length (requests_of t) = 3%nat)
  /\ (exists t,
        Sample.list_files Sample.all_well 2
        = (Val (Some (concat [[Sample.rule_A]; [Sample.rule_B]])), tt, t)
        /\ length (page_requests t) = 2%nat).
Proof.
  destruct (listing_reads_every_page (Sample.http Sample.all_well)
              Sample.REGION Sample.WORKSPACE Sample.REPO_SLUG Sample.BRANCH
              Sample.RULES_DIR) as (_ & Hfiles & Hthree).
  unfold Sample.list_rules, Sample.list_files. split.
  - refine (Hthree 2%nat tt _ tt [Sample.rule_named "ruleA"] (JStr "p2")
              _ tt [Sample.rule_named "ruleX"; JObj [("ruleId", JStr "ru_7")]]
              (JStr "p3") _ tt [Sample.rule_named "ruleY"] JNull
              _ _ _ _ _ _ _ _ _); try reflexivity;
      (eexists; split; [reflexivity|]; split; [reflexivity|]; split; reflexivity).
  - refine (Hfiles 0%nat tt [[Sample.rule_A]; [Sample.rule_B]] tt JNull _ _);
      [|reflexivity].
    eapply file_pages_cons;
      [reflexivity
      |reflexivity
      |eexists; split; [reflexivity|]; split; reflexivity
      |vm_compute; reflexivity
      |].
    eapply file_pages_cons;
      [reflexivity
      |reflexivity
      |eexists; split; [reflexivity|]; split; reflexivity
      |vm_compute; reflexivity
      |apply file_pages_nil].
Defined.

(** ** Rule files in the sample deployment *)

(** An entry of type ["file"] whose path ends with [".yaral"] and whose
    content is there is passed over, without a request; the same entry with
    type ["commit_file"] becomes a rule file. *)
Lemma entry_of_type_file_is_passed_over :
  ~ taken_up_iff_file (Sample.entry "file" "rules/ruleA.yaral")
      (select_item (Sample.entry "file" "rules/ruleA.yaral"))
  /\ Sample.http Sample.all_well tt
       (content_request Sample.WORKSPACE Sample.REPO_SLUG Sample.BRANCH
          "rules/ruleA.yaral")
     = (Sample.raw 200 Sample.text_A, tt)
  /\ fetch_items (Sample.http Sample.all_well) Sample.WORKSPACE
       Sample.REPO_SLUG Sample.BRANCH
       [Sample.entry "file" "rules/ruleA.yaral"] [] tt
     = (Val [], tt, [])
  /\ result (fetch_items (Sample.http Sample.all_well) Sample.WORKSPACE
               Sample.REPO_SLUG Sample.BRANCH
               [Sample.entry "commit_file" "rules/ruleA.yaral"] [] tt)
     = Val [Sample.rule_A].
Proof.
  split; [|split; [reflexivity|split; vm_compute; reflexivity]].
  intros H.
  destruct (H _ "rules/ruleA.yaral" eq_refl) as [_ Hsel].
  discriminate Hsel. split; [reflexivity|]. split; reflexivity.
Qed.

Lemma rule_file_candidates_witness :
  (select_item (Sample.entry "commit_file" "rules/ruleB.yaral")
   = Val (Some "rules/ruleB.yaral"))
  /\ result (fetch_rule_file (Sample.http Sample.all_well) Sample.WORKSPACE
               Sample.REPO_SLUG Sample.BRANCH "rules/ruleB.yaral" [] tt)
     = Val [mkRule (path_stem (path_name (path_name "rules/ruleB.yaral")))
              Sample.text_B "rules/ruleB.yaral"]
  /\ path_stem (path_name (path_name ("rules/" +:+ "ruleB" +:+ ".yaral")))
     = "ruleB".
Proof.
  destruct (rule_file_candidates (Sample.http Sample.all_well)
              Sample.WORKSPACE Sample.REPO_SLUG Sample.BRANCH)
    as (Hsel & Hfile & Hname).
  split; [|split].
  - apply Hsel. split; [reflexivity|]. split; reflexivity.
  - apply (proj1 (Hfile "rules/ruleB.yaral" [] tt) Sample.text_B).
    + reflexivity.
    + discriminate.
    + eexists. split; vm_compute; reflexivity.
  - apply Hname; [right; reflexivity|reflexivity|discriminate].
Defined.

(** C8, at a rule file of length zero.  The content request is answered
    with status 200 and an empty body; the file is passed over and the loop
    goes on to the next entry, yet the log record is the error of the
    general handler, not the warning for an empty rule file. *)
Theorem empty_rule_file_is_logged_as_error :
  Sample.http Sample.all_well tt
    (content_request Sample.WORKSPACE Sample.REPO_SLUG Sample.BRANCH
       "rules/empty.yaral")
  = (Responded (mkResponse 200 EmptyString None), tt)
  /\ fetch_items (Sample.http Sample.all_well) Sample.WORKSPACE
       Sample.REPO_SLUG Sample.BRANCH
       [Sample.entry "commit_file" "rules/empty.yaral";
        Sample.entry "commit_file" "rules/ruleB.yaral"] [] tt
     = (Val [Sample.rule_B], tt,
        [EvHttp (content_request Sample.WORKSPACE Sample.REPO_SLUG Sample.BRANCH
                   "rules/empty.yaral");
         EvLog ERROR (MsgProcessingError "rules/empty.yaral");
         EvHttp (content_request Sample.WORKSPACE Sample.REPO_SLUG Sample.BRANCH
                   "rules/ruleB.yaral")])
  /\ fetch_items (Sample.http Sample.all_well) Sample.WORKSPACE
       Sample.REPO_SLUG Sample.BRANCH
       [Sample.entry "commit_file" "rules/blank.yaral"] [] tt
     = (Val [], tt,
        [EvHttp (content_request Sample.WORKSPACE Sample.REPO_SLUG Sample.BRANCH
                   "rules/blank.yaral");
         EvLog WARNING (MsgEmptyRuleFile "rules/blank.yaral")]).
Proof. split; [reflexivity|]. split; vm_compute; reflexivity. Qed.

(** ** The scenarios of the sample deployment *)

(** One rule is there already and one is new, verified and uploaded. *)
Example run_all_well :
  summary_of (events (Sample.run_main Sample.all_well 3))
  = Some (mkSummary 2 1 1 0 0)
  /\ result (Sample.run_main Sample.all_well 3) = Exc (SystemExit 0).
Proof. split; vm_compute; reflexivity. Qed.

(** The same with an upload that is refused. *)
Example run_upload_refused :
  summary_of (events (Sample.run_main Sample.upload_refused 3))
  = Some (mkSummary 2 0 1 0 1)
  /\ result (Sample.run_main Sample.upload_refused 3) = Exc (SystemExit 1).
Proof. split; vm_compute; reflexivity. Qed.

(** The same with a verification that is refused: no upload is tried. *)
Example run_verify_refused :
  summary_of (events (Sample.run_main Sample.verify_refused 3))
  = Some (mkSummary 2 0 1 1 0)
  /\ upload_calls "ruleB" (events (Sample.run_main Sample.verify_refused 3))
     = 0%nat
  /\ result (Sample.run_main Sample.verify_refused 3) = Exc (SystemExit 1).
Proof. split; [|split]; vm_compute; reflexivity. Qed.

(** With the second page of rules down the run goes on with the names of
    the first page. *)
Example run_rules_page2_down :
  summary_of (events (Sample.run_main Sample.rules_page2_down 3))
  = Some (mkSummary 2 1 1 0 0)
  /\ result (Sample.run_main Sample.rules_page2_down 3) = Exc (SystemExit 0).
Proof. split; vm_compute; reflexivity. Qed.

(** Fuel for fewer pages than there are is not enough. *)
Example run_out_of_fuel :
  result (Sample.run_main Sample.all_well 2) = OutOfFuel.
Proof. vm_compute. reflexivity. Qed.

(** * Further properties of the script *)

(** ** Events of a computation *)

Lemma result_preceded_by_eq {World A} t (o : Res A * World * list event) :
  result (preceded_by t o) = result o.
Proof. done. Qed.

Lemma only_emits_ret {World A} P (a : A) : only_emits P (@ret World A a).
Proof. intros w. constructor. Qed.

Lemma only_emits_raise {World A} P e : only_emits P (@raise World A e).
Proof. intros w. constructor. Qed.

Lemma only_emits_exit {World A} P c : only_emits P (@exit World A c).
Proof. intros w. constructor. Qed.

Lemma only_emits_out_of_fuel {World A} P : only_emits P (@out_of_fuel World A).
Proof. intros w. constructor. Qed.

Lemma only_emits_lift {World A} P (r : Res A) : only_emits P (@lift World A r).
Proof. intros w. constructor. Qed.

Lemma only_emits_emit {World} (P : event -> Prop) ev :
  P ev -> only_emits P (@emit World ev).
Proof. intros H w. by repeat constructor. Qed.

Lemma only_emits_log {World} (P : event -> Prop) lvl msg :
  P (EvLog lvl msg) -> only_emits P (@log World lvl msg).
Proof. apply only_emits_emit. Qed.

Lemma only_emits_bind {World A B} P (m : M World A) (f : A -> M World B) :
  only_emits P m -> (forall a, only_emits P (f a)) -> only_emits P (bind m f).
Proof.
  intros Hm Hf w. rewrite events_bind. apply Forall_app. split; [apply Hm|].
  destruct (result (m w)); [apply Hf|constructor..].
Qed.

Ltac emits :=
  repeat first
    [ apply only_emits_ret
    | apply only_emits_raise
    | apply only_emits_exit
    | apply only_emits_out_of_fuel
    | apply only_emits_lift
    | apply only_emits_log; solve [auto]
    | apply only_emits_emit; solve [auto]
    | apply only_emits_bind; [|intros ?]
    | match goal with
      | |- only_emits _ (if ?b then _ else _) => destruct b
      | |- only_emits _ (match ?x with _ => _ end) => destruct x
      end ].

Section Emits.
Context {World : Type}.
Variable http : World -> Request -> http_outcome * World.
Variables REGION BITBUCKET_WORKSPACE BITBUCKET_REPO_SLUG : string.
Variables BITBUCKET_BRANCH_OR_COMMIT RULES_DIR : string.
Variable P : event -> Prop.
Hypothesis logs_ok : forall lvl msg, P (EvLog lvl msg).
Set Default Proof Using "Type*".

Lemma only_emits_request req : P (EvHttp req) -> only_emits P (request http req).
Proof.
  intros H w. unfold request, events. destruct (http w req). simpl.
  by repeat constructor.
Qed.

Lemma only_emits_api_request m u h p j e s :
  P (EvHttp (mkRequest m u h p j s)) ->
  only_emits P (_make_api_request http m u h p j e s).
Proof.
  intros H. unfold _make_api_request, read_body, log_exception_response.
  apply only_emits_bind; [by apply only_emits_request|]. intros o. emits.
Qed.

Lemma only_emits_fetch_items items : forall acc,
  (forall p, P (EvHttp (content_request BITBUCKET_WORKSPACE BITBUCKET_REPO_SLUG
                          BITBUCKET_BRANCH_OR_COMMIT p))) ->
  only_emits P (fetch_items http BITBUCKET_WORKSPACE BITBUCKET_REPO_SLUG
                  BITBUCKET_BRANCH_OR_COMMIT items acc).
Proof.
  intros acc Hc. revert acc.
  induction items as [|item rest IH]; intros acc; simpl; [emits|].
  apply only_emits_bind; [emits|]. intros [file_path|]; [|apply IH].
  apply only_emits_bind; [|intros ?; apply IH].
  unfold fetch_rule_file.
  apply only_emits_bind; [apply only_emits_api_request, Hc|]. intros v. emits.
Qed.

Lemma only_emits_files_loop fuel : forall list_url acc,
  (forall u, P (EvHttp (files_request u))) ->
  (forall p, P (EvHttp (content_request BITBUCKET_WORKSPACE BITBUCKET_REPO_SLUG
                          BITBUCKET_BRANCH_OR_COMMIT p))) ->
  only_emits P (files_loop http BITBUCKET_WORKSPACE BITBUCKET_REPO_SLUG
                  BITBUCKET_BRANCH_OR_COMMIT fuel list_url acc).
Proof.
  intros list_url acc Hl Hc. revert list_url acc.
  induction fuel as [|fuel IH]; intros list_url acc; simpl.
  - emits.
  - destruct (negb (json_truthy list_url)); [emits|].
    apply only_emits_bind; [apply only_emits_api_request, Hl|]. intros v.
    apply only_emits_bind; [emits|]. intros [|]; [emits|].
    apply only_emits_bind; [emits|]. intros values.
    apply only_emits_bind; [emits|]. intros items.
    apply only_emits_bind; [by apply only_emits_fetch_items|]. intros acc'.
    apply only_emits_bind; [emits|]. intros next. apply IH.
Qed.

Lemma only_emits_collect rules : forall acc,
  only_emits P (@collect_rule_names World rules acc).
Proof.
  induction rules as [|rule rest IH]; intros acc; simpl; [emits|].
  apply only_emits_bind; [emits|]. intros v.
  destruct (json_truthy v).
  - apply only_emits_bind; [emits|]. intros k. apply IH.
  - apply only_emits_bind; [emits|]. intros ?.
    apply only_emits_bind; [emits|]. intros ?.
    apply only_emits_bind; [emits|]. intros ?. apply IH.
Qed.

Lemma only_emits_rules_loop fuel : forall page_num token acc,
  (forall token, P (EvHttp (rules_request REGION token))) ->
  only_emits P (rules_loop http REGION fuel page_num token acc).
Proof.
  intros page_num token acc Hr. revert page_num token acc.
  induction fuel as [|fuel IH]; intros page_num token acc; simpl; [emits|].
  apply only_emits_bind; [apply only_emits_api_request, Hr|]. intros v.
  destruct (py_is_none v); [emits|].
  apply only_emits_bind; [emits|]. intros rules.
  apply only_emits_bind; [emits|]. intros ?.
  apply only_emits_bind; [emits|]. intros items.
  apply only_emits_bind; [apply only_emits_collect|]. intros acc'.
  apply only_emits_bind; [emits|]. intros token'.
  destruct (negb (json_truthy token')); [emits|apply IH].
Qed.

Lemma only_emits_main fuel :
  (forall c, P (EvCall c)) ->
  (forall token, P (EvHttp (rules_request REGION token))) ->
  (forall u, P (EvHttp (files_request u))) ->
  (forall p, P (EvHttp (content_request BITBUCKET_WORKSPACE BITBUCKET_REPO_SLUG
                          BITBUCKET_BRANCH_OR_COMMIT p))) ->
  (forall x, P (EvHttp (verify_request REGION x))) ->
  (forall n x, P (EvHttp (upload_request REGION n x))) ->
  only_emits P (main http REGION BITBUCKET_WORKSPACE BITBUCKET_REPO_SLUG
                  BITBUCKET_BRANCH_OR_COMMIT RULES_DIR fuel).
Proof.
  intros Hcall Hr Hl Hc Hv Hu.
  assert (forall existing rules s,
    only_emits P (process_rules http REGION existing s rules)) as Hloop.
  { intros existing rules. induction rules as [|rd rest IH]; intros s; simpl;
      [emits|].
    apply only_emits_bind; [|intros ?; apply IH].
    unfold process_rule. case_bool_decide; [emits|].
    apply only_emits_bind.
    { unfold verify_rule. apply only_emits_bind; [emits|]. intros _.
      apply only_emits_bind; [apply only_emits_api_request, Hv|].
      intros v. emits. }
    intros [|]; [|emits].
    apply only_emits_bind; [|intros ?; emits].
    unfold upload_rule. apply only_emits_bind; [emits|]. intros _.
    apply only_emits_bind; [apply only_emits_api_request, Hu|].
    intros v. emits. }
  unfold main, get_existing_rule_names, get_files_from_bitbucket.
  apply only_emits_bind; [by apply only_emits_rules_loop|].
  intros [existing|]; [|emits].
  apply only_emits_bind; [by apply only_emits_files_loop|].
  intros [[|rd rest]|]; [emits| |emits].
  unfold orchestrate, get_existing_rule_names.
  apply only_emits_bind; [apply Hloop|]. intros s.
  apply only_emits_bind; [emits|]. intros _.
  apply only_emits_bind; [by apply only_emits_rules_loop|]. intros _. emits.
Qed.

End Emits.
Set Default Proof Using "Type".

Lemma requests_made_allowed region t :
  Forall (event_allowed region) t ->
  Forall (request_allowed region) (requests_made t).
Proof.
  induction 1 as [|e t He _ IH]; [constructor|].
  destruct e; simpl; [by constructor|done..].
Qed.

Lemma reads_only_no_write t :
  Forall reads_only t ->
  List.filter is_post t = [] /\ verify_events t = [] /\ upload_events t = [].
Proof.
  induction 1 as [|e t He _ (IH1 & IH2 & IH3)]; [done|].
  destruct e as [req|lvl msg|c]; simpl in *; [|done..].
  unfold is_post. by rewrite He.
Qed.

(** ** The run as a whole *)

Section Whole.
Context {World : Type}.
Variable http : World -> Request -> http_outcome * World.
Variables REGION BITBUCKET_WORKSPACE BITBUCKET_REPO_SLUG : string.
Variables BITBUCKET_BRANCH_OR_COMMIT RULES_DIR : string.

Local Abbreviation run :=
  (main http REGION BITBUCKET_WORKSPACE BITBUCKET_REPO_SLUG
     BITBUCKET_BRANCH_OR_COMMIT RULES_DIR) (only parsing).
Local Abbreviation get_files :=
  (get_files_from_bitbucket http BITBUCKET_WORKSPACE BITBUCKET_REPO_SLUG
     BITBUCKET_BRANCH_OR_COMMIT RULES_DIR) (only parsing).

(** X11. Whatever the remote side answers and however the run ends, every
    request of a run is one the script may send: the Chronicle headers go
    with a GET of the rule listing, a POST to the verification endpoint or
    a POST to the creation endpoint and with nothing else, and every
    request with the Bitbucket headers is a GET without body. *)
Theorem run_sends_only_allowed_requests fuel w :
  Forall (request_allowed REGION) (requests_made (events (run fuel w))).
Proof.
  apply requests_made_allowed.
  apply (only_emits_main http REGION BITBUCKET_WORKSPACE BITBUCKET_REPO_SLUG
           BITBUCKET_BRANCH_OR_COMMIT RULES_DIR (event_allowed REGION));
    try done.
  - intros token. simpl. left. done.
  - intros x. simpl. right. left. by eexists.
  - intros n x. simpl. right. right. by eexists _, _.
Qed.

Lemma listings_read_only fuel w :
  Forall reads_only (events (get_existing_rule_names http REGION fuel w))
  /\ Forall reads_only (events (get_files fuel w)).
Proof.
  split.
  - by apply (only_emits_rules_loop http REGION reads_only).
  - by apply (only_emits_files_loop http BITBUCKET_WORKSPACE
                BITBUCKET_REPO_SLUG BITBUCKET_BRANCH_OR_COMMIT reads_only).
Qed.

(** The events of a run, step by step. *)
Lemma run_events fuel w :
  events (run fuel w)
  = let o1 := get_existing_rule_names http REGION fuel w in
    events o1
    ++ match result o1 with
       | Val (Some existing) =>
         let o2 := get_files fuel (final_world o1) in
         events o2
         ++ match result o2 with
            | Val None => [EvLog ERROR MsgAbortBitbucket]
            | Val (Some []) => [EvLog WARNING MsgNoRuleFiles]
            | Val (Some rules) =>
              events (orchestrate http REGION fuel existing rules
                        (final_world o2))
            | _ => []
            end
       | Val None => [EvLog ERROR MsgAbortChronicle]
       | _ => []
       end.
Proof.
  unfold main. rewrite events_bind. cbv zeta. f_equal.
  destruct (result _) as [[existing|]|e|]; [|done..].
  rewrite events_bind. f_equal.
  destruct (result _) as [[[|rd rest]|]|e|]; done.
Qed.

(** X12. A run sends a POST, or enters [verify_rule] or [upload_rule],
    only after the listing of existing rules has returned a set and the
    listing of rule files has returned a list that is not empty; and the
    two listings have sent nothing but GETs and entered neither
    function. *)
Theorem run_writes_only_after_both_listings fuel w :
  List.filter is_post (events (run fuel w)) <> []
  \/ verify_events (events (run fuel w)) <> []
  \/ upload_events (events (run fuel w)) <> [] ->
  exists existing w1 t1 rd rest w2 t2,
    get_existing_rule_names http REGION fuel w = (Val (Some existing), w1, t1)
    /\ get_files fuel w1 = (Val (Some (rd :: rest)), w2, t2)
    /\ Forall reads_only t1
    /\ Forall reads_only t2.
Proof.
  intros Hwrite.
  assert (Forall reads_only (events (run fuel w)) -> False) as Hno.
  { intros (Hp & Hv & Hu)%reads_only_no_write.
    destruct Hwrite as [?|[?|?]]; done. }
  rewrite run_events in Hno. cbv zeta in Hno.
  destruct (listings_read_only fuel w) as [Hr1 _].
  destruct (get_existing_rule_names http REGION fuel w)
    as [[r1 w1] t1] eqn:H1.
  destruct (listings_read_only fuel w1) as [_ Hr2].
  destruct (get_files fuel w1) as [[r2 w2] t2] eqn:H2.
  unfold result, final_world, events in Hno, Hr1, Hr2. simpl in Hno, Hr1, Hr2.
  destruct r1 as [[existing|]|e|];
    try (exfalso; apply Hno; apply Forall_app; split;
         [done|by repeat constructor]).
  rewrite H2 in Hno. simpl in Hno.
  destruct r2 as [[[|rd rest]|]|e|];
    try (exfalso; apply Hno; apply Forall_app; split; [done|];
         apply Forall_app; split; [done|by repeat constructor]).
  by eexists _, _, _, _, _, _, _.
Qed.

End Whole.

Lemma run_writes_only_after_both_listings_witness :
  List.filter is_post (events (Sample.run_main Sample.all_well 3)) <> []
  /\ exists existing w1 t1 rd rest w2 t2,
       Sample.list_rules Sample.all_well 3 = (Val (Some existing), w1, t1)
       /\ get_files_from_bitbucket (Sample.http Sample.all_well)
            Sample.WORKSPACE Sample.REPO_SLUG Sample.BRANCH Sample.RULES_DIR
            3 w1
          = (Val (Some (rd :: rest)), w2, t2)
       /\ Forall reads_only t1
       /\ Forall reads_only t2.
Proof.
  assert (List.filter is_post (events (Sample.run_main Sample.all_well 3)) <> [])
    as Hpost by (vm_compute; discriminate).
  split; [exact Hpost|].
  exact (run_writes_only_after_both_listings (Sample.http Sample.all_well)
           Sample.REGION Sample.WORKSPACE Sample.REPO_SLUG Sample.BRANCH
           Sample.RULES_DIR 3 tt (or_introl Hpost)).
Defined.

(** ** The request helper *)

Section Helper.
Context {World : Type}.
Variable http : World -> Request -> http_outcome * World.


(** X2. A request that raises, and an answer with a status other than the
    expected one that is a 4xx or a 5xx, make [_make_api_request] return
    [None] and log the request error. *)
Theorem api_request_failure_is_none m u h p j e s w o w' :
  http w (mkRequest m u h p j s) = (o, w') ->
  match o with
  | RequestException _ => True
  | Responded r => status_code r <> e /\ 400 <= status_code r < 600
  end ->
  result (_make_api_request http m u h p j e s w) = Val PNone
  /\ In (EvLog ERROR (MsgRequestError m u))
       (events (_make_api_request http m u h p j e s w)).
Proof.
  intros Hreq Ho. unfold _make_api_request, request, bind. rewrite Hreq.
  destruct o as [r|er]; simpl.
  - destruct Ho as [Hne Hrange].
    replace (status_code r =? e) with false by lia.
    unfold raises_for_status.
    replace (400 <=? status_code r) with true by lia.
    replace (status_code r <? 600) with true by lia. simpl.
    destruct (json r); simpl; split; auto.
  - destruct er as [r|]; simpl; [|split; auto].
    destruct (json r); simpl; split; auto.
Qed.

(** X3. What [_make_api_request] returns: without [stream] a JSON value
    ([None] included) and never bytes or a response; with [stream], for an
    answer that is not an error, never [None]: the content when it is not
    empty and the status is not 204, and the response object itself
    otherwise. *)
Theorem api_request_value_shape m u h p j e s w v :
  result (_make_api_request http m u h p j e s w) = Val v ->
  (s = false -> exists value, v = PJson value)
  /\ (s = true ->
      forall r,
        (http w (mkRequest m u h p j s)).1 = Responded r ->
        status_code r = e \/ ~ (400 <= status_code r < 600) ->
        if (status_code r =? 204) || negb (str_truthy (content r))
        then v = PResponse r
        else v = PBytes (content r)).
Proof.
  destruct (make_api_request_spec http m u h p j e s w) as (logs & -> & _).
  unfold result. simpl. intros [= <-]. split.
  - intros ->. unfold api_value, body_value.
    destruct (http w _).1 as [r|er]; [|by eexists].
    destruct (_ || _); [|by eexists].
    destruct (_ || _); [by eexists|].
    destruct (json r); by eexists.
  - intros -> r -> Hok. unfold api_value, body_value.
    assert ((status_code r =? e) || negb (raises_for_status r) = true) as ->.
    { unfold raises_for_status. destruct Hok as [->|Hok].
      - by rewrite Z.eqb_refl.
      - apply orb_true_iff. right. apply negb_true_iff.
        apply andb_false_iff. lia. }
    by destruct (_ || _).
Qed.

(** X4. An answer with the expected status and an empty body gives [None]
    without [stream], exactly as a failure does, and nothing is logged. *)
Theorem empty_body_is_a_silent_none m u h p j e w r w' :
  http w (mkRequest m u h p j false) = (Responded r, w') ->
  status_code r = e ->
  content r = EmptyString ->
  _make_api_request http m u h p j e false w
  = (Val PNone, w', [EvHttp (mkRequest m u h p j false)]).
Proof.
  intros Hreq Hs Hc. unfold _make_api_request, request, bind. rewrite Hreq.
  simpl. rewrite Hs, Z.eqb_refl. unfold read_body. rewrite Hc. simpl.
  by rewrite orb_true_r.
Qed.

(** The log records of [_make_api_request] are its own. *)
Lemma make_api_request_api_logs m u h p j e s w :
  let req := mkRequest m u h p j s in
  exists logs,
    _make_api_request http m u h p j e s w
    = (Val (api_value e s (http w req).1), (http w req).2, EvHttp req :: logs)
    /\ forallb is_api_log logs = true.
Proof.
  intros req. unfold _make_api_request, request, bind. fold req.
  destruct (http w req) as [o w'] eqn:Hreq. simpl.
  destruct o as [r|er]; simpl.
  - assert (exists logs,
      read_body m u s r w' = (Val (body_value s r), w', logs)
      /\ forallb is_api_log logs = true) as (lb & Hb & Hlb).
    { unfold read_body, body_value.
      destruct ((status_code r =? 204) || negb (str_truthy (content r)));
        [by eexists|].
      destruct s; [by eexists|].
      destruct (json r); by eexists. }
    destruct (status_code r =? e) eqn:He; simpl.
    + rewrite Hb. by exists lb.
    + destruct (raises_for_status r) eqn:Hr; simpl.
      * destruct (json r); by eexists.
      * rewrite Hb. eexists. split; [done|]. simpl. done.
  - destruct er as [r|]; simpl; [|by eexists].
    destruct (json r); by eexists.
Qed.

End Helper.

(** ** Uploading a rule *)

Lemma api_logs_are_no_calls logs :
  forallb is_api_log logs = true ->
  upload_failures logs = [] /\ verify_failures logs = []
  /\ verify_events logs = [] /\ upload_events logs = []
  /\ requests_made logs = [].
Proof.
  induction logs as [|ev logs IH]; [done|]. simpl.
  intros [Hev Hlogs]%andb_prop. destruct (IH Hlogs) as (? & ? & ? & ? & ?).
  destruct ev as [|[] []|]; try done; simpl; auto.
Qed.

Section Upload.
Context {World : Type}.
Variable http : World -> Request -> http_outcome * World.
Variable REGION : string.

(** [upload_rule] as its one request followed by the verdict on the value
    of the request. *)
Lemma upload_rule_verdict n x w :
  let response_data :=
    api_value 200 false (http w (upload_request REGION n x)).1 in
  exists logs,
    forallb is_api_log logs = true
    /\ upload_rule http REGION n x w
       = (upload_verdict response_data,
          (http w (upload_request REGION n x)).2,
          EvCall (CallUpload n x) :: EvHttp (upload_request REGION n x)
          :: logs ++ failure_record (MsgUploadFailed n)
                       (upload_verdict response_data)).
Proof.
  intros response_data.
  destruct (make_api_request_api_logs http POST (JStr (rules_url REGION))
    CHRONICLE_HEADERS []
    (Some (JObj [("ruleName", JStr n); ("ruleText", JStr x)])) 200 false w)
    as (logs & Hcall & Hlogs).
  fold (upload_request REGION n x) in Hcall. fold response_data in Hcall.
  exists logs. split; [done|].
  unfold upload_rule. rewrite emit_bind, (bind_then _ _ _ _ _ _ Hcall).
  set (w1 := (http w (upload_request REGION n x)).2).
  assert (forall (k : M World bool) r lg,
    k w1 = (r, w1, lg) ->
    (result (preceded_by (EvHttp (upload_request REGION n x) :: logs) (k w1)),
     final_world
       (preceded_by (EvHttp (upload_request REGION n x) :: logs) (k w1)),
     EvCall (CallUpload n x)
     :: events (preceded_by (EvHttp (upload_request REGION n x) :: logs) (k w1)))
    = (r, w1,
       EvCall (CallUpload n x) :: EvHttp (upload_request REGION n x)
       :: logs ++ lg)) as Hk.
  { intros k r lg ->. done. }
  apply Hk. clear Hk.
  assert (bind (lift (py_get response_data "id" JNull))
            (fun fallback =>
               _ <- lift (py_get response_data "ruleId" fallback);; ret true) w1
          = (read_identifier response_data, w1,
             failure_record (MsgUploadFailed n)
               (read_identifier response_data))) as Hid.
  { unfold read_identifier.
    destruct (py_get response_data "id" JNull) as [a|e|] eqn:E1;
      [|done|by apply py_get_fuel in E1].
    rewrite bind_lift_val.
    destruct (py_get response_data "ruleId" a) as [b|e|] eqn:E2;
      [|done|by apply py_get_fuel in E2].
    by rewrite bind_lift_val. }
  unfold upload_verdict.
  destruct (py_is_none response_data).
  { rewrite bind_ret. unfold log. by rewrite emit_bind. }
  rewrite bind_assoc.
  destruct (py_contains "ruleId" response_data) as [[|]|e|] eqn:E1;
    [| |done|by apply py_contains_fuel in E1].
  { by rewrite bind_lift_val, bind_ret. }
  rewrite bind_lift_val.
  destruct (py_contains "id" response_data) as [[|]|e|] eqn:E2;
    [| |done|by apply py_contains_fuel in E2].
  { by rewrite bind_lift_val. }
  rewrite bind_lift_val. unfold log. by rewrite emit_bind.
Qed.

(** X5. [upload_rule] returns success exactly when the answer is a JSON
    object with a key [ruleId] or a key [id], whatever the value under the
    key; an object without both, and no usable answer at all, are upload
    failures; a failure is logged with the name of the rule, once. *)
Theorem upload_rule_needs_identifier n x w :
  let response_data :=
    api_value 200 false (http w (upload_request REGION n x)).1 in
  (forall kvs,
     response_data = PJson (JObj kvs) ->
     result (upload_rule http REGION n x w)
     = Val (bool_decide (is_Some (assoc "ruleId" kvs))
            || bool_decide (is_Some (assoc "id" kvs))))
  /\ (response_data = PNone ->
      result (upload_rule http REGION n x w) = Val false)
  /\ upload_failures (events (upload_rule http REGION n x w))
     = match result (upload_rule http REGION n x w) with
       | Val false => [n]
       | _ => []
       end.
Proof.
  intros response_data.
  destruct (upload_rule_verdict n x w) as (logs & Hlogs & ->).
  fold response_data. unfold result, events. simpl.
  destruct (api_logs_are_no_calls logs Hlogs) as (Hnone & _).
  split; [|split].
  - intros kvs ->. unfold upload_verdict, read_identifier. simpl.
    destruct (bool_decide (is_Some (assoc "ruleId" kvs))); [done|].
    by destruct (bool_decide (is_Some (assoc "id" kvs))).
  - by intros ->.
  - unfold upload_failures in *. rewrite omap_app, Hnone.
    by destruct (upload_verdict response_data) as [[|]|e|].
Qed.

(** X6. An answer that is a JSON number or boolean makes [upload_rule]
    raise [TypeError], and an answer that is a JSON string raises
    [AttributeError] when the string contains [ruleId] or [id] and is an
    upload failure when it does not: none of these is caught.  An answer
    that is a JSON array raises [AttributeError] when one of its elements
    is the string [ruleId] or the string [id] and is an upload failure when
    none is. *)
Theorem upload_rule_on_scalar_answers n x w :
  let response_data :=
    api_value 200 false (http w (upload_request REGION n x)).1 in
  (forall k, response_data = PJson (JNum k) ->
     result (upload_rule http REGION n x w) = Exc TypeError)
  /\ (forall b, response_data = PJson (JBool b) ->
        result (upload_rule http REGION n x w) = Exc TypeError)
  /\ (forall s, response_data = PJson (JStr s) ->
        result (upload_rule http REGION n x w)
        = if str_contains "ruleId" s || str_contains "id" s
          then Exc AttributeError else Val false)
  /\ (forall xs, response_data = PJson (JArr xs) ->
        result (upload_rule http REGION n x w)
        = if existsb (fun v => json_is_str v "ruleId") xs
             || existsb (fun v => json_is_str v "id") xs
          then Exc AttributeError else Val false).
Proof.
  intros response_data.
  destruct (upload_rule_verdict n x w) as (logs & Hlogs & ->).
  fold response_data. unfold result. simpl.
  split; [|split; [|split]].
  - by intros k ->.
  - by intros b ->.
  - intros s ->. unfold upload_verdict, read_identifier. simpl.
    destruct (str_contains "ruleId" s); [done|].
    by destruct (str_contains "id" s).
  - intros xs ->. unfold upload_verdict, read_identifier. simpl.
    destruct (existsb (fun v => json_is_str v "ruleId") xs); [done|].
    by destruct (existsb (fun v => json_is_str v "id") xs).
Qed.

End Upload.

(** ** The loop of [main], rule by rule *)

Lemma verify_events_app t1 t2 :
  verify_events (t1 ++ t2) = verify_events t1 ++ verify_events t2.
Proof. apply omap_app. Qed.

Lemma upload_events_app t1 t2 :
  upload_events (t1 ++ t2) = upload_events t1 ++ upload_events t2.
Proof. apply omap_app. Qed.

Lemma verify_failures_app t1 t2 :
  verify_failures (t1 ++ t2) = verify_failures t1 ++ verify_failures t2.
Proof. apply omap_app. Qed.

Lemma upload_failures_app t1 t2 :
  upload_failures (t1 ++ t2) = upload_failures t1 ++ upload_failures t2.
Proof. apply omap_app. Qed.

Section Loop.
Context {World : Type}.
Variable http : World -> Request -> http_outcome * World.
Variable REGION : string.

Lemma verify_rule_verdict n x w :
  let verdict := verify_accepts (http w (verify_request REGION x)).1 in
  exists logs,
    forallb is_api_log logs = true
    /\ verify_rule http REGION n x w
       = (Val verdict, (http w (verify_request REGION x)).2,
          EvCall (CallVerify n x) :: EvHttp (verify_request REGION x)
          :: logs ++ failure_record (MsgVerifyFailed n) (Val verdict)).
Proof.
  intros verdict.
  destruct (make_api_request_api_logs http POST (JStr (verify_url REGION))
    CHRONICLE_HEADERS [] (Some (JObj [("rule_text", JStr x)])) 200 false w)
    as (logs & Hcall & Hlogs).
  fold (verify_request REGION x) in Hcall.
  exists logs. split; [done|].
  unfold verify_rule. rewrite emit_bind, (bind_then _ _ _ _ _ _ Hcall).
  subst verdict. unfold verify_accepts.
  destruct (py_is_none _); simpl.
  - unfold log. by rewrite emit_bind.
  - unfold preceded_by, result, final_world, events. simpl.
    by rewrite app_nil_r.
Qed.

Lemma process_rule_turn existing s rd w s' w' t :
  process_rule http REGION existing s rd w = (Val s', w', t) ->
  turn existing rd s s' t.
Proof.
  unfold process_rule. case_bool_decide as Hin.
  { intros [= <- _ <-]. by constructor. }
  destruct (verify_rule_verdict (name rd) (text rd) w) as (lv & Hlv & Hv).
  destruct (api_logs_are_no_calls lv Hlv) as (Hv1 & Hv2 & Hv3 & Hv4 & _).
  rewrite (bind_then _ _ _ _ _ _ Hv).
  destruct (verify_accepts _); simpl.
  - destruct (upload_rule_verdict http REGION (name rd) (text rd)
                (http w (verify_request REGION (text rd))).2)
      as (lu & Hlu & Hu).
    destruct (api_logs_are_no_calls lu Hlu) as (Hu1 & Hu2 & Hu3 & Hu4 & _).
    cbv zeta in Hu.
    destruct (upload_verdict _) as [[|]|e|] eqn:Hverdict.
    + rewrite (bind_then _ _ _ _ _ _ Hu).
      intros [= <- _ <-]. apply turn_uploaded; [done|..];
        simpl; rewrite ?app_nil_r;
        rewrite ?verify_events_app, ?upload_events_app,
          ?verify_failures_app, ?upload_failures_app; simpl;
        rewrite ?verify_events_app, ?upload_events_app,
          ?verify_failures_app, ?upload_failures_app;
        by rewrite ?Hv1, ?Hv2, ?Hv3, ?Hv4, ?Hu1, ?Hu2, ?Hu3, ?Hu4.
    + rewrite (bind_then _ _ _ _ _ _ Hu).
      intros [= <- _ <-]. apply turn_failed_upload; [done|..];
        simpl; rewrite ?app_nil_r;
        rewrite ?verify_events_app, ?upload_events_app,
          ?verify_failures_app, ?upload_failures_app; simpl;
        rewrite ?verify_events_app, ?upload_events_app,
          ?verify_failures_app, ?upload_failures_app;
        by rewrite ?Hv1, ?Hv2, ?Hv3, ?Hv4, ?Hu1, ?Hu2, ?Hu3, ?Hu4.
    + unfold bind. rewrite Hu. done.
    + unfold bind. rewrite Hu. done.
  - intros [= <- _ <-]. apply turn_failed_verification; [done|..];
      simpl; rewrite ?app_nil_r;
      rewrite ?verify_events_app, ?upload_events_app,
        ?verify_failures_app, ?upload_failures_app; simpl;
      by rewrite ?Hv1, ?Hv2, ?Hv3, ?Hv4.
Qed.

(** The account of a loop that returns, from any summary it starts with. *)
Lemma process_rules_account existing rules : forall s0 w s w' t,
  process_rules http REGION existing s0 rules w = (Val s, w', t) ->
  verify_events t = (fun rd => (name rd, text rd)) <$> new_rules existing rules
  /\ upload_events t `sublist_of` verify_events t
  /\ rules_skipped s
     = (rules_skipped s0 + (length rules - length (new_rules existing rules)))%nat
  /\ (rules_uploaded s + rules_failed_upload s
      = rules_uploaded s0 + rules_failed_upload s0 + length (upload_events t))%nat
  /\ (rules_failed_verification s + length (upload_events t)
      = rules_failed_verification s0 + length (verify_events t))%nat
  /\ rules_failed_verification s
     = (rules_failed_verification s0 + length (verify_failures t))%nat
  /\ rules_failed_upload s
     = (rules_failed_upload s0 + length (upload_failures t))%nat.
Proof.
  induction rules as [|rd rest IH]; intros s0 w s w' t H; simpl in H.
  { unfold ret in H. simplify_eq. simpl. repeat split; try lia. constructor. }
  apply bind_val_inv in H as (s1 & w1 & t1 & t2 & H1 & H2 & ->).
  apply process_rule_turn in H1.
  destruct (IH _ _ _ _ _ H2) as (Hv & Hsub & Hsk & Hup & Hfv & Hlv & Hlu).
  assert (length (new_rules existing rest) <= length rest)%nat as Hle.
  { unfold new_rules. apply List.filter_length_le. }
  rewrite verify_events_app, upload_events_app, verify_failures_app,
    upload_failures_app, !length_app.
  unfold new_rules in *. simpl.
  inversion H1 as [Hin|t' Hin E1 E2 E3 E4|t' Hin E1 E2 E3 E4|t' Hin E1 E2 E3 E4];
    subst; simpl in *.
  - rewrite bool_decide_eq_true_2 by done. simpl.
    repeat split; try done; lia.
  - rewrite bool_decide_eq_false_2 by done. rewrite E1, E2, E3, E4. simpl.
    repeat split; try lia.
    + by rewrite Hv.
    + by apply sublist_cons.
  - rewrite bool_decide_eq_false_2 by done. rewrite E1, E2, E3, E4. simpl.
    repeat split; try lia.
    + by rewrite Hv.
    + by apply sublist_skip.
  - rewrite bool_decide_eq_false_2 by done. rewrite E1, E2, E3, E4. simpl.
    repeat split; try lia.
    + by rewrite Hv.
    + by apply sublist_skip.
Qed.

(** X7. When the loop of [main] returns, [verify_rule] has been called for
    the rules whose name is not among the existing names, once each and in
    the order of the listing, also when two of them have the same name;
    and every call of [upload_rule] is for a rule that has been verified,
    in the same order. *)
Theorem rules_are_verified_in_listing_order existing rules s0 w s w' t :
  process_rules http REGION existing s0 rules w = (Val s, w', t) ->
  verify_events t = (fun rd => (name rd, text rd)) <$> new_rules existing rules
  /\ upload_events t `sublist_of` verify_events t.
Proof.
  intros H. by destruct (process_rules_account _ _ _ _ _ _ _ H) as (? & ? & _).
Qed.

(** X8. The summary of a loop that returns agrees with what the loop has
    done: skipped is the number of rules whose name is among the existing
    names, uploaded and failed upload add up to the number of calls of
    [upload_rule], and failed verification is the number of calls of
    [verify_rule] that no call of [upload_rule] has followed. *)
Theorem summary_agrees_with_calls existing rules w s w' t :
  process_rules http REGION existing initial_summary rules w = (Val s, w', t) ->
  (rules_skipped s + length (new_rules existing rules))%nat = length rules
  /\ (rules_uploaded s + rules_failed_upload s)%nat = length (upload_events t)
  /\ (rules_failed_verification s + length (upload_events t))%nat
     = length (verify_events t)
  /\ length (verify_events t) = length (new_rules existing rules).
Proof.
  intros H.
  destruct (process_rules_account _ _ _ _ _ _ _ H)
    as (Hv & _ & Hsk & Hup & Hfv & _).
  assert (length (new_rules existing rules) <= length rules)%nat as Hle.
  { unfold new_rules. apply List.filter_length_le. }
  simpl in *. rewrite Hv, length_fmap. repeat split; try lia.
  rewrite Hv, length_fmap in Hfv. lia.
Qed.

(** X9. In a loop that returns, every failed verification and every failed
    upload is in the log, as an error with the name of the rule: the two
    failure counters are the numbers of these records. *)
Theorem failure_counters_agree_with_log existing rules w s w' t :
  process_rules http REGION existing initial_summary rules w = (Val s, w', t) ->
  rules_failed_verification s = length (verify_failures t)
  /\ rules_failed_upload s = length (upload_failures t).
Proof.
  intros H.
  by destruct (process_rules_account _ _ _ _ _ _ _ H)
    as (_ & _ & _ & _ & _ & ? & ?).
Qed.

End Loop.

(** ** The names of the existing rules *)

Lemma lift_val_inv {World A} (r : Res A) (w : World) a w' t :
  lift r w = (Val a, w', t) -> r = Val a /\ w' = w /\ t = [].
Proof. unfold lift. by intros [= -> -> <-]. Qed.

Lemma requests_made_app t1 t2 :
  requests_made (t1 ++ t2) = requests_made t1 ++ requests_made t2.
Proof. apply omap_app. Qed.

Lemma requests_made_logs t : forallb is_log t = true -> requests_made t = [].
Proof.
  induction t as [|e t IH]; [done|]. simpl.
  intros [He Ht]%andb_prop. destruct e; try done. simpl. auto.
Qed.

Lemma json_key_str v n :
  json_truthy v = true ->
  (json_key v = Val (KStr n) <-> v = JStr n /\ n <> EmptyString).
Proof.
  intros Hv. destruct v as [| | |s| |]; simpl in *; split;
    try done; try (by intros [? _]).
  - intros [= ->]. split; [done|]. by destruct n.
  - by intros [[= ->] _].
Qed.

(** What the loop over the rules of a page has done when it returns. *)
Lemma collect_rule_names_account {World} rules :
  forall acc (w : World) names w' t,
  collect_rule_names rules acc w = (Val names, w', t) ->
  w' = w
  /\ t = nameless_warning <$> List.filter lacks_name rules
  /\ forall k,
       k ∈ names <->
       k ∈ acc
       \/ exists kvs v,
            JObj kvs ∈ rules /\ assoc "ruleName" kvs = Some v
            /\ json_truthy v = true /\ json_key v = Val k.
Proof.
  induction rules as [|rule rest IH]; intros acc w names w' t H; simpl in H.
  { unfold ret in H. simplify_eq. split; [done|]. split; [done|].
    intros k. split; [auto|]. intros [?|(kvs & v & Hin & _)]; [done|].
    by apply elem_of_nil in Hin. }
  apply bind_val_inv in H as (v & w1 & t1 & t2 & Hget & H & ->).
  apply lift_val_inv in Hget as (Hget & -> & ->).
  destruct rule as [| | | | |kvs]; try done.
  simpl in Hget. injection Hget as <-.
  set (v := default JNull (assoc "ruleName" kvs)) in *.
  assert (forall v', json_truthy v' = true ->
            (assoc "ruleName" kvs = Some v' <-> v = v')) as Hassoc.
  { intros v' Hv'. subst v. destruct (assoc "ruleName" kvs); simpl; split;
      try congruence. intros <-. done. }
  simpl. unfold lacks_name at 1. fold v.
  destruct (json_truthy v) eqn:Htruthy; simpl.
  - apply bind_val_inv in H as (k0 & w2 & t3 & t4 & Hkey & H & ->).
    apply lift_val_inv in Hkey as (Hkey & -> & ->).
    destruct (IH _ _ _ _ _ H) as (-> & -> & Hnames).
    split; [done|]. split; [done|].
    intros k. rewrite Hnames, elem_of_union, elem_of_singleton. split.
    + intros [[->|?]|(kvs' & v' & Hin & Hname & Hv' & Hk)]; [|by left|].
      * right. exists kvs, v. split; [by left|].
        split; [by apply Hassoc|done].
      * right. exists kvs', v'. split; [by right|done].
    + intros [?|(kvs' & v' & Hin & Hname & Hv' & Hk)]; [by left; right|].
      apply elem_of_cons in Hin as [[= <-]|Hin].
      * left. left. apply Hassoc in Hname; [|done]. congruence.
      * right. by exists kvs', v'.
  - apply bind_val_inv in H as (fb & w2 & t3 & t4 & Hfb & H & ->).
    apply lift_val_inv in Hfb as (Hfb & -> & ->).
    apply bind_val_inv in H as (id & w3 & t5 & t6 & Hid & H & ->).
    apply lift_val_inv in Hid as (Hid & -> & ->).
    unfold log in H. rewrite emit_bind in H.
    destruct (collect_rule_names rest acc w) as [[r w4] t7] eqn:Hrest.
    unfold result, final_world, events in H. simpl in H.
    injection H as -> -> <-.
    destruct (IH _ _ _ _ _ Hrest) as (-> & -> & Hnames).
    simpl in Hfb, Hid. injection Hfb as <-. injection Hid as <-.
    split; [done|]. split; [done|].
    intros k. rewrite Hnames. split.
    + intros [?|(kvs' & v' & Hin & Hname & Hv' & Hk)]; [by left|].
      right. exists kvs', v'. split; [by right|done].
    + intros [?|(kvs' & v' & Hin & Hname & Hv' & Hk)]; [by left|].
      apply elem_of_cons in Hin as [[= <-]|Hin].
      * apply Hassoc in Hname; [|done]. congruence.
      * right. by exists kvs', v'.
Qed.

(** X13. When the loop over the rules of a page returns, it has left the
    world alone, and the log has one warning for each rule without a name,
    in the order of the page.  The set has gained exactly the values of
    [ruleName] that count as true, each as the set hashes it, whatever
    their type: a string [n] is in the set when it was there before or is
    the [ruleName], not empty, of a rule of the page, and in the same way
    a number other than 0 and the boolean [true], which is the number 1 to
    the set, are added as names. *)
Theorem rules_without_name_are_left_out {World} rules acc (w : World)
    names w' t :
  collect_rule_names rules acc w = (Val names, w', t) ->
  w' = w
  /\ t = nameless_warning <$> List.filter lacks_name rules
  /\ (forall k,
        k ∈ names <->
        k ∈ acc
        \/ exists kvs v,
             JObj kvs ∈ rules /\ assoc "ruleName" kvs = Some v
             /\ json_truthy v = true /\ json_key v = Val k)
  /\ (forall n,
        KStr n ∈ names <->
        KStr n ∈ acc
        \/ (n <> EmptyString
            /\ exists kvs,
                 JObj kvs ∈ rules /\ assoc "ruleName" kvs = Some (JStr n)))
  /\ (forall z,
        KInt z ∈ names <->
        KInt z ∈ acc
        \/ exists kvs,
             JObj kvs ∈ rules
             /\ ((z <> 0 /\ assoc "ruleName" kvs = Some (JNum z))
                 \/ (z = 1 /\ assoc "ruleName" kvs = Some (JBool true))))
  /\ (KNone ∈ names <-> KNone ∈ acc).
Proof.
  intros (-> & -> & Hnames)%collect_rule_names_account.
  split; [done|]. split; [done|]. split; [done|]. split; [|split].
  - intros n. rewrite Hnames. split.
    + intros [?|(kvs & v & Hin & Hname & Hv & Hk)]; [by left|]. right.
      apply json_key_str in Hk as [-> Hn]; [|done].
      split; [done|]. by exists kvs.
    + intros [?|(Hn & kvs & Hin & Hname)]; [by left|]. right.
      exists kvs, (JStr n). split; [done|]. split; [done|].
      split; [by destruct n|done].
  - intros z. rewrite Hnames. split.
    + intros [?|(kvs & v & Hin & Hname & Hv & Hk)]; [by left|]. right.
      exists kvs. split; [done|].
      destruct v as [|[|]|z'| | |]; simpl in *; simplify_eq.
      * by right.
      * left. split; [|done]. intros ->. done.
    + intros [?|(kvs & Hin & [[Hz Hname]|[-> Hname]])]; [by left| |]; right.
      * exists kvs, (JNum z). split; [done|]. split; [done|].
        split; [|done]. simpl. by destruct z.
      * by exists kvs, (JBool true).
  - rewrite Hnames. split; [|by left].
    intros [?|(kvs & v & Hin & Hname & Hv & Hk)]; [done|].
    destruct v as [|[|]| | | |]; simpl in *; simplify_eq.
Qed.

Section RuleListing.
Context {World : Type}.
Variable http : World -> Request -> http_outcome * World.
Variable REGION : string.

Local Abbreviation get_existing :=
  (get_existing_rule_names http REGION) (only parsing).

(** Every turn of the loop begins with the request for its page. *)
Lemma rules_loop_first_event fuel page_num token acc w :
  exists t,
    events (rules_loop http REGION (S fuel) page_num token acc w)
    = EvHttp (rules_request REGION token) :: t.
Proof.
  simpl.
  destruct (make_api_request_spec http GET (JStr (rules_url REGION))
    CHRONICLE_HEADERS (page_params token) None 200 false w)
    as (logs & Hcall & _).
  rewrite (bind_then _ _ _ _ _ _ Hcall), events_preceded_by.
  by eexists.
Qed.

(** X14. A first page of the rule listing that is JSON but no object and
    not null is not recognised as a failure: [get_existing_rule_names]
    raises [AttributeError] on it.  A page whose [rules] field is a number
    raises [TypeError], and a page whose first rule is no object raises
    [AttributeError]. *)
Theorem rules_page_of_wrong_shape_raises fuel w v :
  api_value 200 false (http w (rules_request REGION JNull)).1 = PJson v ->
  (v <> JNull -> (forall kvs, v <> JObj kvs) ->
   result (get_existing (S fuel) w) = Exc AttributeError)
  /\ (forall kvs n,
        v = JObj kvs -> assoc "rules" kvs = Some (JNum n) ->
        result (get_existing (S fuel) w) = Exc TypeError)
  /\ (forall kvs item rest,
        v = JObj kvs -> assoc "rules" kvs = Some (JArr (item :: rest)) ->
        (forall kvs', item <> JObj kvs') ->
        result (get_existing (S fuel) w) = Exc AttributeError).
Proof.
  intros Hv. unfold get_existing_rule_names. simpl.
  destruct (make_api_request_spec http GET (JStr (rules_url REGION))
    CHRONICLE_HEADERS (page_params JNull) None 200 false w)
    as (logs & Hcall & _).
  fold (rules_request REGION JNull) in Hcall. rewrite Hv in Hcall.
  change (page_params JNull) with (@nil (string * JSON)) in Hcall.
  rewrite (bind_then _ _ _ _ _ _ Hcall), result_preceded_by_eq.
  split; [|split].
  - intros Hnull Hobj. destruct v as [| | | | |kvs]; try done.
    by destruct (Hobj kvs).
  - intros kvs n -> Hrules. simpl. by rewrite Hrules.
  - intros kvs item rest -> Hrules Hitem. simpl. rewrite Hrules. simpl.
    rewrite !bind_lift_val. simpl.
    destruct item as [| | | | |kvs']; try done. by destruct (Hitem kvs').
Qed.

(** X15. When the first page of the rule listing names a next page, the
    second request of [get_existing_rule_names] is the first one with the
    page's [nextPageToken] as its [pageToken] parameter. *)
Theorem next_rules_page_is_asked_with_the_token fuel w o w1 rules token1 :
  http w (rules_request REGION JNull) = (o, w1) ->
  rules_page (api_value 200 false o) rules token1 ->
  json_truthy token1 = true ->
  take 2 (requests_made (events (get_existing (S (S fuel)) w)))
  = [rules_request REGION JNull; rules_request REGION token1]
  /\ req_params (rules_request REGION JNull) = []
  /\ req_params (rules_request REGION token1) = [("pageToken", token1)].
Proof.
  intros Hreq Hpage Htruthy. unfold get_existing_rule_names.
  destruct (rules_loop_page http REGION (S fuel) 1 JNull ∅ w o w1 rules token1
              Hreq Hpage) as (logs & Hlogs & ->).
  rewrite Htruthy, events_preceded_by.
  destruct (rules_loop_first_event fuel 2 token1 (names_of rules ∪ ∅) w1)
    as (t & ->).
  split; [|split].
  - change (EvHttp (rules_request REGION JNull) :: logs)
      with ([EvHttp (rules_request REGION JNull)] ++ logs).
    rewrite !requests_made_app, (requests_made_logs logs Hlogs). done.
  - done.
  - unfold rules_request, page_params. simpl. by rewrite Htruthy.
Qed.

End RuleListing.

(** ** The listing of rule files, entry by entry *)

Lemma select_item_some item p :
  select_item item = Val (Some p) -> endswith p ".yaral" = true.
Proof.
  destruct item as [| | | | |kvs]; try done.
  by intros (_ & _ & Hp)%select_item_spec.
Qed.

Lemma found_in_well_formed p v :
  endswith p ".yaral" = true ->
  Forall well_formed_rule (found_in p (classify v)).
Proof.
  intros Hp. destruct (classify v) as [b| | | |] eqn:Hc; simpl;
    try by constructor.
  apply classify_usable in Hc as (_ & Hne & Hdec).
  constructor; [|constructor]. by unfold well_formed_rule.
Qed.

Lemma found_in_path p c : path <$> found_in p c `sublist_of` [p].
Proof.
  destruct c; simpl; try apply sublist_nil_l. done.
Qed.

Section FileListing.
Context {World : Type}.
Variable http : World -> Request -> http_outcome * World.
Variables BITBUCKET_WORKSPACE BITBUCKET_REPO_SLUG : string.
Variables BITBUCKET_BRANCH_OR_COMMIT RULES_DIR : string.

Local Abbreviation fetch_one :=
  (fetch_rule_file http BITBUCKET_WORKSPACE BITBUCKET_REPO_SLUG
     BITBUCKET_BRANCH_OR_COMMIT) (only parsing).
Local Abbreviation fetch_all :=
  (fetch_items http BITBUCKET_WORKSPACE BITBUCKET_REPO_SLUG
     BITBUCKET_BRANCH_OR_COMMIT) (only parsing).
Local Abbreviation list_loop :=
  (files_loop http BITBUCKET_WORKSPACE BITBUCKET_REPO_SLUG
     BITBUCKET_BRANCH_OR_COMMIT) (only parsing).
Local Abbreviation content_req :=
  (content_request BITBUCKET_WORKSPACE BITBUCKET_REPO_SLUG
     BITBUCKET_BRANCH_OR_COMMIT) (only parsing).
Local Abbreviation get_files :=
  (get_files_from_bitbucket http BITBUCKET_WORKSPACE BITBUCKET_REPO_SLUG
     BITBUCKET_BRANCH_OR_COMMIT RULES_DIR) (only parsing).

(** What one selected file adds. *)
Lemma fetch_rule_file_adds p acc w :
  endswith p ".yaral" = true ->
  exists found logs,
    fetch_one p acc w
    = (Val (acc ++ found), (http w (content_req p)).2,
       EvHttp (content_req p) :: logs)
    /\ forallb is_log logs = true
    /\ Forall well_formed_rule found
    /\ path <$> found `sublist_of` [p].
Proof.
  intros Hp.
  destruct (fetch_rule_file_spec http BITBUCKET_WORKSPACE BITBUCKET_REPO_SLUG
              BITBUCKET_BRANCH_OR_COMMIT p w) as (logs & Hlogs & Hfile).
  cbv zeta in Hfile.
  set (c := classify (api_value 200 true (http w (content_req p)).1)) in *.
  exists (found_in p c), (logs ++ skip_record c p).
  split; [apply Hfile|]. split; [|split].
  - rewrite forallb_app, Hlogs. by destruct c.
  - by apply found_in_well_formed.
  - apply found_in_path.
Qed.

(** What the loop over the entries of a page has done when it returns. *)
Lemma fetch_items_account items : forall acc w out w' t,
  fetch_all items acc w = (Val out, w', t) ->
  requests_made t = content_req <$> selected_paths items
  /\ exists found,
       out = acc ++ found
       /\ Forall well_formed_rule found
       /\ path <$> found `sublist_of` selected_paths items.
Proof.
  induction items as [|item rest IH]; intros acc w out w' t H; simpl in H.
  { unfold ret in H. simplify_eq. split; [done|]. exists [].
    by rewrite app_nil_r. }
  apply bind_val_inv in H as (sel & w1 & t1 & t2 & Hsel & H & ->).
  apply lift_val_inv in Hsel as (Hsel & -> & ->).
  unfold selected_paths. simpl. rewrite Hsel.
  fold (selected_paths rest). destruct sel as [p|].
  - apply bind_val_inv in H as (acc' & w2 & t3 & t4 & Hfile & H & ->).
    destruct (fetch_rule_file_adds p acc w (select_item_some _ _ Hsel))
      as (found & logs & Hfile' & Hlogs & Hwf & Hsub).
    rewrite Hfile' in Hfile. simplify_eq.
    destruct (IH _ _ _ _ _ H) as (Hreqs & found' & -> & Hwf' & Hsub').
    split.
    + simpl. change (EvHttp (content_req p) :: logs ++ t4)
        with ([EvHttp (content_req p)] ++ logs ++ t4).
      rewrite !requests_made_app, (requests_made_logs logs Hlogs), Hreqs.
      done.
    + exists (found ++ found'). split; [by rewrite app_assoc|].
      split; [by apply Forall_app|].
      rewrite fmap_app. by apply (sublist_app _ [p]).
  - simpl. apply (IH _ _ _ _ _ H).
Qed.

(** One turn of the loop on a page that loaded, with its events. *)
Lemma files_loop_turn fuel list_url acc w o w1 items next found w1' t :
  json_truthy list_url = true ->
  http w (files_request list_url) = (o, w1) ->
  files_page (api_value 200 false o) items next ->
  fetch_all items [] w1 = (Val found, w1', t) ->
  exists logs,
    forallb is_log logs = true
    /\ list_loop (S fuel) list_url acc w
       = preceded_by (EvHttp (files_request list_url) :: logs ++ t)
           (list_loop fuel next (acc ++ found) w1').
Proof.
  intros Htruthy Hreq (kvs & Hv & Hvalues & Hnext) Hitems. simpl.
  rewrite Htruthy. simpl.
  destruct (make_api_request_spec http GET list_url BITBUCKET_HEADERS []
              None 200 false w) as (logs & Hcall & Hlogs).
  fold (files_request list_url) in Hcall. rewrite Hreq in Hcall.
  simpl in Hcall. rewrite Hv in Hcall.
  rewrite (bind_then _ _ _ _ _ _ Hcall). simpl.
  rewrite Hvalues. simpl.
  rewrite bind_assoc, bind_lift_val, bind_ret. simpl.
  rewrite bind_lift_val.
  change (json_iter (JArr items)) with (Val items). rewrite bind_lift_val.
  assert (fetch_all items acc w1 = (Val (acc ++ found), w1', t)) as Hacc.
  { rewrite (fetch_items_acc http BITBUCKET_WORKSPACE BITBUCKET_REPO_SLUG
               BITBUCKET_BRANCH_OR_COMMIT items acc w1), Hitems. done. }
  rewrite (bind_then _ _ _ _ _ _ Hacc), Hnext, bind_lift_val.
  rewrite preceded_by_twice. by exists logs.
Qed.

Lemma files_loop_first_event fuel list_url acc w :
  json_truthy list_url = true ->
  exists t,
    events (list_loop (S fuel) list_url acc w)
    = EvHttp (files_request list_url) :: t.
Proof.
  intros Htruthy. simpl. rewrite Htruthy. simpl.
  destruct (make_api_request_spec http GET list_url BITBUCKET_HEADERS []
              None 200 false w) as (logs & Hcall & _).
  rewrite (bind_then _ _ _ _ _ _ Hcall), events_preceded_by.
  by eexists.
Qed.

Lemma files_loop_well_formed fuel : forall list_url acc w out w' t,
  Forall well_formed_rule acc ->
  list_loop fuel list_url acc w = (Val (Some out), w', t) ->
  Forall well_formed_rule out.
Proof.
  induction fuel as [|fuel IH]; intros list_url acc w out w' t Hacc H;
    simpl in H; destruct (negb (json_truthy list_url));
    try (unfold ret in H; by simplify_eq); try done.
  apply bind_val_inv in H as (v & w1 & t1 & t2 & _ & H & ->).
  apply bind_val_inv in H as (unusable & w2 & t3 & t4 & _ & H & ->).
  destruct unusable.
  { unfold log in H. rewrite emit_bind in H. done. }
  apply bind_val_inv in H as (values & w3 & t5 & t6 & _ & H & ->).
  apply bind_val_inv in H as (items & w4 & t7 & t8 & _ & H & ->).
  apply bind_val_inv in H as (acc' & w5 & t9 & t10 & Hitems & H & ->).
  apply bind_val_inv in H as (next & w6 & t11 & t12 & _ & H & ->).
  apply fetch_items_account in Hitems as (_ & found & -> & Hwf & _).
  apply (IH _ _ _ _ _ _ (proj2 (Forall_app _ _ _) (conj Hacc Hwf)) H).
Qed.

Lemma select_item_malformed item :
  (forall kvs, item <> JObj kvs)
  \/ (exists kvs v,
        item = JObj kvs /\ assoc "type" kvs = Some (JStr "commit_file")
        /\ assoc "path" kvs = Some v /\ forall p, v <> JStr p) ->
  select_item item = Exc AttributeError.
Proof.
  intros [Hitem|(kvs & v & -> & Htype & Hpath & Hv)].
  - destruct item as [| | | | |kvs]; try done. by destruct (Hitem kvs).
  - unfold select_item. simpl. rewrite Htype, Hpath. simpl.
    destruct v as [| | |p| |]; try done. by destruct (Hv p).
Qed.

Lemma first_list_url_truthy :
  json_truthy (JStr (initial_list_url BITBUCKET_WORKSPACE BITBUCKET_REPO_SLUG
                       BITBUCKET_BRANCH_OR_COMMIT RULES_DIR)) = true.
Proof. reflexivity. Qed.

(** X16. Every rule file [get_files_from_bitbucket] returns has a path that
    ends with [.yaral], the stem of the path's last component as its name,
    and a text that is not empty and decodes as UTF-8 to something other
    than blanks. *)
Theorem listed_rule_files_are_well_formed fuel w out w' t :
  get_files fuel w = (Val (Some out), w', t) ->
  Forall well_formed_rule out.
Proof. by apply files_loop_well_formed. Qed.

(** X17. When the loop over the entries of a directory page returns, it has
    asked for the content of each entry it takes up, once and in the order
    of the page, and for nothing else; the rule files it has added come
    from these entries, in that order. *)
Theorem every_selected_entry_is_fetched_once items acc w out w' t :
  fetch_all items acc w = (Val out, w', t) ->
  requests_made t = content_req <$> selected_paths items
  /\ exists found,
       out = acc ++ found
       /\ path <$> found `sublist_of` selected_paths items.
Proof.
  intros (Hreqs & found & -> & _ & Hsub)%fetch_items_account.
  split; [done|]. by exists found.
Qed.

(** The loop over the entries stops at an entry that makes line 92 raise,
    with what the entries before it have done. *)
Lemma fetch_items_raises item rest e before : forall acc w acc' w' t,
  fetch_all before acc w = (Val acc', w', t) ->
  select_item item = Exc e ->
  fetch_all (before ++ item :: rest) acc w = (Exc e, w', t).
Proof.
  induction before as [|x before IH]; intros acc w acc' w' t H Hsel;
    simpl in *.
  { unfold ret in H. simplify_eq. by rewrite Hsel. }
  apply bind_val_inv in H as (sel & w1 & t1 & t2 & Hx & H & ->).
  apply lift_val_inv in Hx as (Hx & -> & ->).
  rewrite Hx, bind_lift_val. destruct sel as [p|].
  - apply bind_val_inv in H as (acc1 & w2 & t3 & t4 & Hfile & H & ->).
    rewrite (bind_then _ _ _ _ _ _ Hfile), (IH _ _ _ _ _ H Hsel). done.
  - by apply (IH _ _ _ _ _ H).
Qed.

(** One turn of the loop on a page with such an entry. *)
Lemma files_loop_raises fuel list_url acc w o w1 before item rest next found
    w1' t :
  json_truthy list_url = true ->
  http w (files_request list_url) = (o, w1) ->
  files_page (api_value 200 false o) (before ++ item :: rest) next ->
  fetch_all before [] w1 = (Val found, w1', t) ->
  select_item item = Exc AttributeError ->
  exists logs,
    forallb is_log logs = true
    /\ list_loop (S fuel) list_url acc w
       = (Exc AttributeError, w1', EvHttp (files_request list_url) :: logs ++ t).
Proof.
  intros Htruthy Hreq (kvs & Hv & Hvalues & Hnext) Hbefore Hsel. simpl.
  rewrite Htruthy. simpl.
  destruct (make_api_request_spec http GET list_url BITBUCKET_HEADERS []
              None 200 false w) as (logs & Hcall & Hlogs).
  fold (files_request list_url) in Hcall. rewrite Hreq in Hcall.
  simpl in Hcall. rewrite Hv in Hcall.
  rewrite (bind_then _ _ _ _ _ _ Hcall). simpl.
  rewrite Hvalues. simpl.
  rewrite bind_assoc, bind_lift_val, bind_ret. simpl.
  rewrite bind_lift_val.
  change (json_iter (JArr (before ++ item :: rest)))
    with (Val (before ++ item :: rest)).
  rewrite bind_lift_val.
  assert (fetch_all before acc w1 = (Val (acc ++ found), w1', t)) as Hacc.
  { rewrite (fetch_items_acc http BITBUCKET_WORKSPACE BITBUCKET_REPO_SLUG
               BITBUCKET_BRANCH_OR_COMMIT before acc w1), Hbefore. done. }
  exists logs. split; [done|].
  unfold bind at 1.
  by rewrite (fetch_items_raises item rest AttributeError before _ _ _ _ _
                Hacc Hsel).
Qed.

(** X18. An entry of a directory page that is no object, or a [commit_file]
    entry whose [path] is not a string, is not passed over: on whatever
    page it is and wherever on the page, the listing raises
    [AttributeError] at that entry.  The requests of the page are then the
    request for the page and the requests for the contents of the entries
    taken up before that entry; nothing is asked for the entries after
    it, and the rule files gathered so far are not returned. *)
Theorem malformed_entry_raises fuel w pages w2 list_url2 o w3 before item rest
    next found w3' t :
  file_pages http BITBUCKET_WORKSPACE BITBUCKET_REPO_SLUG
    BITBUCKET_BRANCH_OR_COMMIT w
    (JStr (initial_list_url BITBUCKET_WORKSPACE BITBUCKET_REPO_SLUG
             BITBUCKET_BRANCH_OR_COMMIT RULES_DIR))
    pages w2 list_url2 ->
  json_truthy list_url2 = true ->
  http w2 (files_request list_url2) = (o, w3) ->
  files_page (api_value 200 false o) (before ++ item :: rest) next ->
  fetch_all before [] w3 = (Val found, w3', t) ->
  (forall kvs, item <> JObj kvs)
  \/ (exists kvs v,
        item = JObj kvs /\ assoc "type" kvs = Some (JStr "commit_file")
        /\ assoc "path" kvs = Some v /\ forall p, v <> JStr p) ->
  result (get_files (length pages + S fuel) w) = Exc AttributeError
  /\ final_world (get_files (length pages + S fuel) w) = w3'
  /\ exists earlier on_page,
       events (get_files (length pages + S fuel) w) = earlier ++ on_page
       /\ length (page_requests earlier) = length pages
       /\ requests_made on_page
          = files_request list_url2
            :: (content_req <$> selected_paths before).
Proof.
  intros Hpages Htruthy Hreq Hpage Hbefore Hbad.
  apply select_item_malformed in Hbad.
  unfold get_files_from_bitbucket.
  destruct (files_loop_pages http BITBUCKET_WORKSPACE BITBUCKET_REPO_SLUG
              BITBUCKET_BRANCH_OR_COMMIT _ _ _ _ _ Hpages (S fuel) [])
    as (earlier & -> & Hn).
  destruct (files_loop_raises fuel list_url2 ([] ++ concat pages) w2 o w3
              before item rest next found w3' t Htruthy Hreq Hpage Hbefore
              Hbad) as (logs & Hlogs & ->).
  split; [done|]. split; [done|].
  exists earlier, (EvHttp (files_request list_url2) :: logs ++ t).
  split; [done|]. split; [done|].
  apply fetch_items_account in Hbefore as (Hreqs & _).
  change (EvHttp (files_request list_url2) :: logs ++ t)
    with ([EvHttp (files_request list_url2)] ++ logs ++ t).
  by rewrite !requests_made_app, (requests_made_logs logs Hlogs), Hreqs.
Qed.

(** X19. When the first page of the directory listing names a next page,
    the requests of [get_files_from_bitbucket] begin with the request for
    the first page, the requests for the contents of the entries taken up,
    and a GET of whatever the page's [next] field holds, with the
    Bitbucket headers. *)
Theorem next_link_is_followed_as_given fuel w o w1 items next found w1' t :
  let first_url :=
    JStr (initial_list_url BITBUCKET_WORKSPACE BITBUCKET_REPO_SLUG
            BITBUCKET_BRANCH_OR_COMMIT RULES_DIR) in
  http w (files_request first_url) = (o, w1) ->
  files_page (api_value 200 false o) items next ->
  fetch_all items [] w1 = (Val found, w1', t) ->
  json_truthy next = true ->
  exists rest,
    requests_made (events (get_files (S (S fuel)) w))
    = files_request first_url
      :: (content_req <$> selected_paths items)
      ++ mkRequest GET next BITBUCKET_HEADERS [] None false :: rest.
Proof.
  intros first_url Hreq Hpage Hitems Htruthy.
  unfold get_files_from_bitbucket. fold first_url.
  destruct (files_loop_turn (S fuel) first_url [] w o w1 items next found w1'
              t first_list_url_truthy Hreq Hpage Hitems)
    as (logs & Hlogs & ->).
  rewrite events_preceded_by.
  destruct (files_loop_first_event fuel next ([] ++ found) w1' Htruthy)
    as (t' & ->).
  apply fetch_items_account in Hitems as (Hreqs & _).
  exists (requests_made t').
  change (EvHttp (files_request first_url) :: logs ++ t)
    with ([EvHttp (files_request first_url)] ++ logs ++ t).
  change (EvHttp (files_request next) :: t')
    with ([EvHttp (files_request next)] ++ t').
  rewrite !requests_made_app, (requests_made_logs logs Hlogs), Hreqs.
  done.
Qed.

End FileListing.

(** ** A run that cannot list the existing rules *)

Section Abort.
Context {World : Type}.
Variable http : World -> Request -> http_outcome * World.
Variables REGION BITBUCKET_WORKSPACE BITBUCKET_REPO_SLUG : string.
Variables BITBUCKET_BRANCH_OR_COMMIT RULES_DIR : string.

Local Abbreviation run :=
  (main http REGION BITBUCKET_WORKSPACE BITBUCKET_REPO_SLUG
     BITBUCKET_BRANCH_OR_COMMIT RULES_DIR) (only parsing).

(** X20. When the request for the first page of the rule listing yields
    nothing, the run exits with status 1 after that one request: Bitbucket
    is not asked anything, and the last thing the run does is to log that
    it aborts. *)
Theorem run_aborts_when_rules_cannot_be_listed fuel w :
  api_value 200 false (http w (rules_request REGION JNull)).1 = PNone ->
  result (run (S fuel) w) = Exc (SystemExit 1)
  /\ final_world (run (S fuel) w) = (http w (rules_request REGION JNull)).2
  /\ requests_made (events (run (S fuel) w)) = [rules_request REGION JNull]
  /\ last (events (run (S fuel) w)) = Some (EvLog ERROR MsgAbortChronicle).
Proof.
  intros Hnone.
  destruct (http w (rules_request REGION JNull)) as [o w1] eqn:Hreq.
  destruct (rules_loop_failed http REGION fuel 1 JNull ∅ w o w1 Hreq Hnone)
    as (logs & Hlogs & Hloop).
  unfold main, get_existing_rule_names.
  rewrite (bind_then _ _ _ _ _ _ Hloop). simpl.
  unfold log. rewrite emit_bind.
  unfold result, final_world, events, preceded_by, exit, raise. simpl.
  split; [done|]. split; [done|]. split.
  - change (EvHttp (rules_request REGION JNull)
            :: logs ++ [EvLog ERROR MsgAbortChronicle])
      with ([EvHttp (rules_request REGION JNull)]
            ++ logs ++ [EvLog ERROR MsgAbortChronicle]).
    by rewrite !requests_made_app, (requests_made_logs logs Hlogs).
  - rewrite app_comm_cons. apply last_snoc.
Qed.

End Abort.

(** ** The settings *)

Lemma env_truthy_provided environ k :
  env_truthy (environ k) = true <-> provided environ k.
Proof.
  unfold provided. destruct (environ k) as [s|]; simpl.
  - rewrite str_truthy_nonempty. split; [by exists s|].
    by intros (? & [= <-] & ?).
  - split; [done|]. by intros (? & ? & _).
Qed.

Lemma lstrip_slashes n s : lstrip_slash (slashes n +:+ s) = lstrip_slash s.
Proof.
  induction n as [|n IH]; [done|]. simpl slashes. rewrite str_app_cons.
  simpl. by rewrite IH.
Qed.

Lemma lstrip_all_slashes m : lstrip_slash (slashes m) = EmptyString.
Proof. induction m as [|m IH]; [done|]. simpl. by rewrite IH. Qed.

Lemma str_prefix_slash_cons a s :
  str_prefix "/" (String a s) = Ascii.eqb a slash.
Proof.
  cbn [str_prefix]. rewrite andb_true_r. apply Ascii.eqb_sym.
Qed.

Lemma lstrip_no_slash s : str_prefix "/" s = false -> lstrip_slash s = s.
Proof.
  destruct s as [|a s]; [done|]. rewrite str_prefix_slash_cons.
  cbn [lstrip_slash]. by intros ->.
Qed.

Lemma lstrip_has_no_slash s : str_prefix "/" (lstrip_slash s) = false.
Proof.
  induction s as [|a s IH]; [done|]. cbn [lstrip_slash].
  destruct (Ascii.eqb a slash) eqn:Ha; [done|].
  by rewrite str_prefix_slash_cons.
Qed.

Lemma rstrip_slashes m : rstrip_slash (slashes m) = EmptyString.
Proof. induction m as [|m IH]; [done|]. simpl. by rewrite IH. Qed.

Lemma endswith_slash_cons a s :
  endswith (String a s) "/"
  = match s with
    | EmptyString => Ascii.eqb a slash
    | _ => endswith s "/"
    end.
Proof.
  simpl. destruct s as [|b s]; simpl.
  - unfold slash. by destruct (Ascii.eqb a "/").
  - by destruct (Ascii.eqb a "/").
Qed.

Lemma rstrip_no_slash s : endswith s "/" = false -> rstrip_slash s = s.
Proof.
  induction s as [|a s IH]; [done|]. rewrite endswith_slash_cons.
  destruct s as [|b s].
  - intros Ha. simpl. by rewrite Ha.
  - intros Hs. change (rstrip_slash (String a (String b s)))
      with (match rstrip_slash (String b s) with
            | EmptyString =>
              if Ascii.eqb a slash then EmptyString else String a EmptyString
            | r => String a r
            end).
    by rewrite (IH Hs).
Qed.

Lemma rstrip_app_slashes s m :
  endswith s "/" = false -> rstrip_slash (s +:+ slashes m) = s.
Proof.
  induction s as [|a s IH].
  - intros _. apply rstrip_slashes.
  - rewrite endswith_slash_cons, str_app_cons. destruct s as [|b s].
    + intros Ha. simpl. change (EmptyString +:+ slashes m) with (slashes m).
      by rewrite rstrip_slashes, Ha.
    + intros Hs. simpl. specialize (IH Hs). simpl in IH. by rewrite IH.
Qed.

Lemma rstrip_has_no_slash s : endswith (rstrip_slash s) "/" = false.
Proof.
  induction s as [|a s IH]; [done|]. simpl.
  destruct (rstrip_slash s) as [|b r] eqn:Hr.
  - destruct (Ascii.eqb a slash) eqn:Ha; [done|].
    by rewrite endswith_slash_cons.
  - by rewrite endswith_slash_cons.
Qed.

Lemma rstrip_keeps_prefix s :
  str_prefix "/" s = false -> str_prefix "/" (rstrip_slash s) = false.
Proof.
  destruct s as [|a s]; [done|]. rewrite str_prefix_slash_cons.
  intros Ha. cbn [rstrip_slash]. destruct (rstrip_slash s).
  - rewrite Ha. by rewrite str_prefix_slash_cons.
  - by rewrite str_prefix_slash_cons.
Qed.

(** X21. The module loads exactly when the five required settings are all
    there and not empty, and then with the settings as read; the Chronicle
    pair is looked at first, so that its message is the one raised whenever
    one of the two is missing, and the Bitbucket message is raised when the
    Chronicle pair is there and one of the other three is missing.  The
    branch and the rules directory are not looked at. *)
Theorem module_loads_iff_required_settings environ :
  (load_config environ = Loaded (read_environ environ) <->
   provided environ "CHRONICLE_ACCESS_TOKEN"
   /\ provided environ "CHRONICLE_REGION"
   /\ provided environ "BITBUCKET_WORKSPACE"
   /\ provided environ "BITBUCKET_REPO_SLUG"
   /\ provided environ "BITBUCKET_ACCESS_TOKEN")
  /\ (forall c, load_config environ = Loaded c -> c = read_environ environ)
  /\ (load_config environ = ValueError chronicle_message <->
      ~ (provided environ "CHRONICLE_ACCESS_TOKEN"
         /\ provided environ "CHRONICLE_REGION"))
  /\ (load_config environ = ValueError bitbucket_message <->
      provided environ "CHRONICLE_ACCESS_TOKEN"
      /\ provided environ "CHRONICLE_REGION"
      /\ ~ (provided environ "BITBUCKET_WORKSPACE"
            /\ provided environ "BITBUCKET_REPO_SLUG"
            /\ provided environ "BITBUCKET_ACCESS_TOKEN")).
Proof.
  rewrite <- !env_truthy_provided. unfold load_config, validate. simpl.
  destruct (env_truthy (environ "CHRONICLE_ACCESS_TOKEN"));
    destruct (env_truthy (environ "CHRONICLE_REGION"));
    destruct (env_truthy (environ "BITBUCKET_WORKSPACE"));
    destruct (env_truthy (environ "BITBUCKET_REPO_SLUG"));
    destruct (env_truthy (environ "BITBUCKET_ACCESS_TOKEN")); simpl;
    repeat split; try done; try (by intros c [= <-]); try tauto;
    try (by intros (? & ? & ? & ? & ?)); try (by intros (? & ? & ?));
    try (by intros [? ?]); try (by intros _ [? ?]);
    try (intros H; exfalso; apply H; done);
    try (intros (_ & _ & H); exfalso; apply H; done).
Qed.

(** X22. The rules directory the script works with neither begins nor ends
    with a slash: it is [rules] when [RULES_DIR] is not set, and otherwise
    the value of [RULES_DIR] without the slashes before and after it; the
    branch is [main] when [BITBUCKET_BRANCH_OR_COMMIT] is not set and the
    value as it is otherwise, the empty string included. *)
Theorem rules_dir_has_no_outer_slash environ :
  let c := read_environ environ in
  no_outer_slash (Config.RULES_DIR c)
  /\ (environ "RULES_DIR" = None -> Config.RULES_DIR c = "rules")
  /\ (forall n s m,
        environ "RULES_DIR" = Some (slashes n +:+ s +:+ slashes m) ->
        no_outer_slash s -> Config.RULES_DIR c = s)
  /\ (environ "BITBUCKET_BRANCH_OR_COMMIT" = None ->
      Config.BITBUCKET_BRANCH_OR_COMMIT c = "main")
  /\ (forall s,
        environ "BITBUCKET_BRANCH_OR_COMMIT" = Some s ->
        Config.BITBUCKET_BRANCH_OR_COMMIT c = s).
Proof.
  simpl. unfold strip_slash. split; [|split; [|split; [|split]]].
  - split; [|apply rstrip_has_no_slash].
    apply rstrip_keeps_prefix, lstrip_has_no_slash.
  - by intros ->.
  - intros n s m -> [Hpre Hsuf]. simpl. rewrite lstrip_slashes.
    destruct s as [|a s].
    + change (EmptyString +:+ slashes m) with (slashes m).
      by rewrite lstrip_all_slashes.
    + rewrite lstrip_no_slash; [by apply rstrip_app_slashes|].
      rewrite str_app_cons. by rewrite str_prefix_slash_cons in *.
  - by intros ->.
  - by intros s ->.
Qed.

(** ** Answers that are no failures *)

Section Answers.
Context {World : Type}.
Variable http : World -> Request -> http_outcome * World.
Variable REGION : string.


(** X24. An answer whose status is not the expected one and is no 4xx or
    5xx is logged as an error and then used as if it were expected: with a
    body that is JSON, [_make_api_request] returns the body. *)
Theorem unexpected_status_below_400_is_used m u h p j e w r w' v :
  http w (mkRequest m u h p j false) = (Responded r, w') ->
  status_code r <> e ->
  ~ (400 <= status_code r < 600) ->
  status_code r <> 204 ->
  content r <> EmptyString ->
  json r = Some v ->
  _make_api_request http m u h p j e false w
  = (Val (PJson v), w',
     [EvHttp (mkRequest m u h p j false);
      EvLog ERROR (MsgUnexpectedStatus m u (status_code r))]).
Proof.
  intros Hreq He Hrange H204 Hbody Hjson.
  unfold _make_api_request, request, bind. rewrite Hreq. simpl.
  replace (status_code r =? e) with false by lia.
  assert (raises_for_status r = false) as ->.
  { unfold raises_for_status. apply andb_false_iff. lia. }
  unfold read_body. replace (status_code r =? 204) with false by lia.
  apply str_truthy_nonempty in Hbody. rewrite Hbody, Hjson. done.
Qed.

End Answers.

(** ** The properties above on the sample deployment *)

Lemma api_request_failure_is_none_witness :
  result (_make_api_request (Sample.http Sample.rules_page2_down) GET
            (JStr (rules_url Sample.REGION)) CHRONICLE_HEADERS
            [("pageToken", JStr "p2")] None 200 false tt) = Val PNone
  /\ In (EvLog ERROR (MsgRequestError GET (JStr (rules_url Sample.REGION))))
       (events (_make_api_request (Sample.http Sample.rules_page2_down) GET
                  (JStr (rules_url Sample.REGION)) CHRONICLE_HEADERS
                  [("pageToken", JStr "p2")] None 200 false tt)).
Proof.
  apply (api_request_failure_is_none (Sample.http Sample.rules_page2_down)
           GET (JStr (rules_url Sample.REGION)) CHRONICLE_HEADERS
           [("pageToken", JStr "p2")] None 200 false tt
           Sample.server_error tt).
  - reflexivity.
  - simpl. lia.
Defined.

Lemma api_request_value_shape_witness :
  (true = false -> exists value, PBytes Sample.text_A = PJson value)
  /\ (true = true ->
      forall r,
        (Sample.http Sample.all_well tt
           (mkRequest GET (JStr (Sample.content_of "rules/ruleA.yaral"))
              BITBUCKET_HEADERS [] None true)).1 = Responded r ->
        status_code r = 200 \/ ~ (400 <= status_code r < 600) ->
        if (status_code r =? 204) || negb (str_truthy (content r))
        then PBytes Sample.text_A = PResponse r
        else PBytes Sample.text_A = PBytes (content r)).
Proof.
  apply (api_request_value_shape (Sample.http Sample.all_well) GET
           (JStr (Sample.content_of "rules/ruleA.yaral")) BITBUCKET_HEADERS
           [] None 200 true tt (PBytes Sample.text_A)).
  vm_compute. reflexivity.
Defined.

Lemma empty_body_is_a_silent_none_witness :
  _make_api_request (Sample.http Sample.all_well) GET
    (JStr (Sample.content_of "rules/empty.yaral")) BITBUCKET_HEADERS [] None
    200 false tt
  = (Val PNone, tt,
     [EvHttp (mkRequest GET (JStr (Sample.content_of "rules/empty.yaral"))
                BITBUCKET_HEADERS [] None false)]).
Proof.
  apply (empty_body_is_a_silent_none (Sample.http Sample.all_well) GET
           (JStr (Sample.content_of "rules/empty.yaral")) BITBUCKET_HEADERS
           [] None 200 tt (mkResponse 200 EmptyString None) tt);
    reflexivity.
Defined.

Lemma upload_rule_needs_identifier_witness :
  result (upload_rule (Sample.http Sample.all_well) Sample.REGION
            "ruleB" Sample.text_B tt)
  = Val (bool_decide (is_Some (assoc "ruleId" [("ruleId", JStr "ru_9")]))
         || bool_decide (is_Some (assoc "id" [("ruleId", JStr "ru_9")]))).
Proof.
  apply (proj1 (upload_rule_needs_identifier (Sample.http Sample.all_well)
                  Sample.REGION "ruleB" Sample.text_B tt)).
  reflexivity.
Defined.

Lemma upload_rule_on_scalar_answers_witness :
  result (upload_rule (Sample.http Odd.upload_number) Sample.REGION
            "ruleB" Sample.text_B tt) = Exc TypeError.
Proof.
  apply (proj1 (upload_rule_on_scalar_answers (Sample.http Odd.upload_number)
                  Sample.REGION "ruleB" Sample.text_B tt) 7).
  reflexivity.
Defined.

Lemma rules_are_verified_in_listing_order_witness :
  exists s t,
    process_rules (Sample.http Sample.upload_refused) Sample.REGION
      {[KStr "ruleA"]} initial_summary [Sample.rule_A; Sample.rule_B] tt
    = (Val s, tt, t)
    /\ verify_events t
       = (fun rd => (name rd, text rd))
         <$> new_rules {[KStr "ruleA"]} [Sample.rule_A; Sample.rule_B]
    /\ upload_events t `sublist_of` verify_events t.
Proof.
  eexists _, _. split; [vm_compute; reflexivity|].
  eapply (rules_are_verified_in_listing_order
            (Sample.http Sample.upload_refused) Sample.REGION
            {[KStr "ruleA"]} [Sample.rule_A; Sample.rule_B] initial_summary
            tt).
  vm_compute. reflexivity.
Defined.

Lemma summary_agrees_with_calls_witness :
  exists s t,
    process_rules (Sample.http Sample.verify_refused) Sample.REGION
      {[KStr "ruleA"]} initial_summary [Sample.rule_A; Sample.rule_B] tt
    = (Val s, tt, t)
    /\ (rules_skipped s
        + length (new_rules {[KStr "ruleA"]} [Sample.rule_A; Sample.rule_B]))%nat
       = length [Sample.rule_A; Sample.rule_B]
    /\ (rules_uploaded s + rules_failed_upload s)%nat
       = length (upload_events t)
    /\ (rules_failed_verification s + length (upload_events t))%nat
       = length (verify_events t)
    /\ length (verify_events t)
       = length (new_rules {[KStr "ruleA"]} [Sample.rule_A; Sample.rule_B]).
Proof.
  eexists _, _. split; [vm_compute; reflexivity|].
  eapply (summary_agrees_with_calls (Sample.http Sample.verify_refused)
            Sample.REGION {[KStr "ruleA"]} [Sample.rule_A; Sample.rule_B] tt).
  vm_compute. reflexivity.
Defined.

Lemma failure_counters_agree_with_log_witness :
  exists s t,
    process_rules (Sample.http Sample.upload_refused) Sample.REGION
      ∅ initial_summary [Sample.rule_A; Sample.rule_B] tt
    = (Val s, tt, t)
    /\ rules_failed_verification s = length (verify_failures t)
    /\ rules_failed_upload s = length (upload_failures t).
Proof.
  eexists _, _. split; [vm_compute; reflexivity|].
  eapply (failure_counters_agree_with_log (Sample.http Sample.upload_refused)
            Sample.REGION ∅ [Sample.rule_A; Sample.rule_B] tt).
  vm_compute. reflexivity.
Defined.

Lemma rules_without_name_are_left_out_witness :
  tt = tt
  /\ [EvLog WARNING (MsgRuleWithoutName (JStr "ru_7"))]
     = nameless_warning <$> List.filter lacks_name Odd.rules_of_mixed_page
  /\ (forall k,
        k ∈ ({[KInt 5]} ∪ ({[KStr "ruleX"]} ∪ ∅) : gset pykey) <->
        k ∈ (∅ : gset pykey)
        \/ exists kvs v,
             JObj kvs ∈ Odd.rules_of_mixed_page
             /\ assoc "ruleName" kvs = Some v
             /\ json_truthy v = true /\ json_key v = Val k)
  /\ (forall n,
        KStr n ∈ ({[KInt 5]} ∪ ({[KStr "ruleX"]} ∪ ∅) : gset pykey) <->
        KStr n ∈ (∅ : gset pykey)
        \/ (n <> EmptyString
            /\ exists kvs,
                 JObj kvs ∈ Odd.rules_of_mixed_page
                 /\ assoc "ruleName" kvs = Some (JStr n)))
  /\ (forall z,
        KInt z ∈ ({[KInt 5]} ∪ ({[KStr "ruleX"]} ∪ ∅) : gset pykey) <->
        KInt z ∈ (∅ : gset pykey)
        \/ exists kvs,
             JObj kvs ∈ Odd.rules_of_mixed_page
             /\ ((z <> 0 /\ assoc "ruleName" kvs = Some (JNum z))
                 \/ (z = 1 /\ assoc "ruleName" kvs = Some (JBool true))))
  /\ (KNone ∈ ({[KInt 5]} ∪ ({[KStr "ruleX"]} ∪ ∅) : gset pykey) <->
      KNone ∈ (∅ : gset pykey)).
Proof.
  apply (rules_without_name_are_left_out Odd.rules_of_mixed_page ∅ tt
           ({[KInt 5]} ∪ ({[KStr "ruleX"]} ∪ ∅)) tt
           [EvLog WARNING (MsgRuleWithoutName (JStr "ru_7"))]).
  reflexivity.
Defined.

Lemma rules_page_of_wrong_shape_raises_witness :
  result (get_existing_rule_names (Odd.always Odd.rules_as_list)
            Sample.REGION 1 tt) = Exc AttributeError.
Proof.
  apply (proj1 (rules_page_of_wrong_shape_raises
                  (Odd.always Odd.rules_as_list) Sample.REGION 0 tt (JArr [])
                  eq_refl)).
  - discriminate.
  - intros kvs. discriminate.
Defined.

Lemma next_rules_page_is_asked_with_the_token_witness :
  take 2 (requests_made (events (Sample.list_rules Sample.all_well 3)))
  = [rules_request Sample.REGION JNull;
     rules_request Sample.REGION (JStr "p2")]
  /\ req_params (rules_request Sample.REGION JNull) = []
  /\ req_params (rules_request Sample.REGION (JStr "p2"))
     = [("pageToken", JStr "p2")].
Proof.
  apply (next_rules_page_is_asked_with_the_token
           (Sample.http Sample.all_well) Sample.REGION 1 tt
           (Sample.ok Sample.rules_body1) tt [Sample.rule_named "ruleA"]
           (JStr "p2")).
  - reflexivity.
  - eexists. split; [reflexivity|]. split; [reflexivity|].
    split; reflexivity.
  - reflexivity.
Defined.

Lemma listed_rule_files_are_well_formed_witness :
  exists out t,
    Sample.list_files Sample.all_well 3 = (Val (Some out), tt, t)
    /\ Forall well_formed_rule out.
Proof.
  eexists _, _. split; [vm_compute; reflexivity|].
  eapply (listed_rule_files_are_well_formed (Sample.http Sample.all_well)
            Sample.WORKSPACE Sample.REPO_SLUG Sample.BRANCH Sample.RULES_DIR
            3 tt).
  vm_compute. reflexivity.
Defined.

Lemma every_selected_entry_is_fetched_once_witness :
  exists out t,
    fetch_items (Sample.http Sample.all_well) Sample.WORKSPACE
      Sample.REPO_SLUG Sample.BRANCH Odd.entries_of_page1 [] tt
    = (Val out, tt, t)
    /\ requests_made t
       = content_request Sample.WORKSPACE Sample.REPO_SLUG Sample.BRANCH
         <$> selected_paths Odd.entries_of_page1
    /\ exists found,
         out = [] ++ found
         /\ path <$> found `sublist_of` selected_paths Odd.entries_of_page1.
Proof.
  eexists _, _. split; [vm_compute; reflexivity|].
  eapply (every_selected_entry_is_fetched_once (Sample.http Sample.all_well)
            Sample.WORKSPACE Sample.REPO_SLUG Sample.BRANCH
            Odd.entries_of_page1 [] tt).
  vm_compute. reflexivity.
Defined.

Lemma malformed_entry_raises_witness :
  result (Sample.list_files Odd.page2_with_string 3) = Exc AttributeError
  /\ final_world (Sample.list_files Odd.page2_with_string 3) = tt
  /\ exists earlier on_page,
       events (Sample.list_files Odd.page2_with_string 3)
       = earlier ++ on_page
       /\ length (page_requests earlier) = 1%nat
       /\ requests_made on_page
          = files_request (JStr Sample.files_url2)
            :: (content_request Sample.WORKSPACE Sample.REPO_SLUG
                  Sample.BRANCH
                <$> selected_paths
                      [Sample.entry "commit_file" "rules/ruleB.yaral"]).
Proof.
  assert (file_pages (Sample.http Odd.page2_with_string) Sample.WORKSPACE
    Sample.REPO_SLUG Sample.BRANCH tt
    (JStr (initial_list_url Sample.WORKSPACE Sample.REPO_SLUG Sample.BRANCH
             Sample.RULES_DIR))
    [[Sample.rule_A]] tt (JStr Sample.files_url2)) as Hpages.
  { eapply file_pages_cons;
      [reflexivity
      |reflexivity
      |eexists; split; [reflexivity|]; split; reflexivity
      |vm_compute; reflexivity
      |apply file_pages_nil]. }
  eapply (malformed_entry_raises (Sample.http Odd.page2_with_string)
            Sample.WORKSPACE Sample.REPO_SLUG Sample.BRANCH Sample.RULES_DIR
            1 tt [[Sample.rule_A]] tt (JStr Sample.files_url2)
            (Sample.ok (JObj [("values", JArr Odd.entries_with_string)])) tt
            [Sample.entry "commit_file" "rules/ruleB.yaral"]
            (JStr "rules/ruleC.yaral")
            [Sample.entry "commit_file" "rules/gone.yaral"] JNull).
  - exact Hpages.
  - reflexivity.
  - reflexivity.
  - eexists. split; [reflexivity|]. split; reflexivity.
  - vm_compute. reflexivity.
  - left. intros kvs. discriminate.
Defined.

Lemma next_link_is_followed_as_given_witness :
  exists rest,
    requests_made (events (Sample.list_files Sample.all_well 3))
    = files_request
        (JStr (initial_list_url Sample.WORKSPACE Sample.REPO_SLUG
                 Sample.BRANCH Sample.RULES_DIR))
      :: (content_request Sample.WORKSPACE Sample.REPO_SLUG Sample.BRANCH
          <$> selected_paths Odd.entries_of_page1)
      ++ mkRequest GET (JStr Sample.files_url2) BITBUCKET_HEADERS [] None
           false :: rest.
Proof.
  eapply (next_link_is_followed_as_given (Sample.http Sample.all_well)
            Sample.WORKSPACE Sample.REPO_SLUG Sample.BRANCH Sample.RULES_DIR
            1 tt (Sample.ok Sample.files_body1) tt Odd.entries_of_page1
            (JStr Sample.files_url2)).
  - reflexivity.
  - eexists. split; [reflexivity|]. split; reflexivity.
  - vm_compute. reflexivity.
  - reflexivity.
Defined.

Lemma run_aborts_when_rules_cannot_be_listed_witness :
  let run :=
    main (Odd.always Sample.server_error) Sample.REGION Sample.WORKSPACE
      Sample.REPO_SLUG Sample.BRANCH Sample.RULES_DIR 1 tt in
  result run = Exc (SystemExit 1)
  /\ final_world run = tt
  /\ requests_made (events run) = [rules_request Sample.REGION JNull]
  /\ last (events run) = Some (EvLog ERROR MsgAbortChronicle).
Proof.
  apply (run_aborts_when_rules_cannot_be_listed
           (Odd.always Sample.server_error) Sample.REGION Sample.WORKSPACE
           Sample.REPO_SLUG Sample.BRANCH Sample.RULES_DIR 0 tt).
  reflexivity.
Defined.

Lemma unexpected_status_below_400_is_used_witness :
  _make_api_request (Sample.http Sample.verify_created) POST
    (JStr (verify_url Sample.REGION)) CHRONICLE_HEADERS []
    (Some (JObj [("rule_text", JStr Sample.text_B)])) 200 false tt
  = (Val (PJson (JObj [])), tt,
     [EvHttp (verify_request Sample.REGION Sample.text_B);
      EvLog ERROR
        (MsgUnexpectedStatus POST (JStr (verify_url Sample.REGION)) 201)]).
Proof.
  apply (unexpected_status_below_400_is_used (Sample.http Sample.verify_created)
           POST (JStr (verify_url Sample.REGION)) CHRONICLE_HEADERS []
           (Some (JObj [("rule_text", JStr Sample.text_B)])) 200 tt
           (mkResponse 201 (Sample.render (JObj [])) (Some (JObj []))) tt
           (JObj [])).
  - reflexivity.
  - simpl. lia.
  - simpl. lia.
  - simpl. lia.
  - discriminate.
  - reflexivity.
Defined.
